(** * Juno JSON-RPC service: middleware, HTTP adapter and subscription engine

  A shallow embedding of
    - the request middleware of package [jsonrpc] (WithRequestMiddleware,
      MetricsReporterMiddleware),
    - the HTTP adapter of package [jsonrpc] (ServeHTTP),
    - the subscription handlers of package [rpcv8] (subscriptions.go) and
      the tasks they start,
    - the simulation flags of package [rpcv7],
  together with the properties the service specification states about them
  and further properties that the code itself shows.

  Go values are modelled as follows: [uint64] and [int] as [Z] (with the
  wrap-around of unsigned arithmetic written out), [felt.Felt] as [Z],
  byte slices that hold text as [string], nilable pointers as [option],
  [sync.Map] and Go maps as [gmap], and every function that reads or writes
  shared state as a function from the state to a result and a new state.
  Goroutines and the calls that wait for them are steps of a relation over
  the state of the engine. *)

From Stdlib Require Import ZArith Lia List String Ascii.
From Stdlib Require Import Sorted.
From stdpp Require Import gmap strings list fin_maps pretty.

Set Implicit Arguments.
Set Contextual Implicit.

Local Open Scope Z_scope.

(* ===================================================================== *)
(** * Package jsonrpc: request middleware                                 *)
(* ===================================================================== *)

Module jsonrpc.

(** The JSON-RPC error object: a code, a message and optional data. *)
Record Error := mkError {
  Code : Z;
  Message : string;
  Data : option string
}.

(** The parts of a request and of a response the middleware looks at. *)
Record request := mkRequest {
  Method : string;
  Params : string;
  ReqID : option string
}.

Record response := mkResponse {
  Result : option string;
  RespError : option Error;
  RespID : option string
}.

(** A Go [error] that is not a JSON-RPC error, by its text. *)
Definition goerror := string.

Section Middleware.
(** [W] is everything a handler can read and change while it runs. *)
Variable W : Type.

(** [requestHandler]: from a request to a response (or nil) and an error
    (or nil). *)
Definition requestHandler : Type :=
  request -> W -> (option response * option goerror) * W.

(** [requestMiddleware]: like a handler, with the next handler to call. *)
Definition requestMiddleware : Type :=
  request -> requestHandler -> W -> (option response * option goerror) * W.

(** The server, as far as middleware is concerned: the handler of record
    ([nil] until a middleware is registered) and the terminal dispatcher
    [s.handleRequest]. *)
Record Server := mkServer {
  handler : option requestHandler;
  handleRequest : requestHandler
}.

(** The handler a newly registered middleware wraps. *)
Definition current (s : Server) : requestHandler :=
  match handler s with
  | Some h => h
  | None => handleRequest s
  end.

Definition WithRequestMiddleware (middleware : requestMiddleware)
    (s : Server) : Server :=
  let handler := current s in
  {| handler := Some (fun req => middleware req handler);
     handleRequest := handleRequest s |}.

(** Modelled from the spec: [Server.Handle] is not part of the sources at
    hand; for each request the server core runs the middleware chain,
    ending in the terminal dispatcher. *)
Definition serve (s : Server) : requestHandler := current s.

(** Registering a list of middlewares, first to last. *)
Definition register (ms : list requestMiddleware) (s : Server) : Server :=
  fold_left (fun s m => WithRequestMiddleware m s) ms s.

(** The nest of wrappers around [h]: the head of the list is innermost. *)
Fixpoint wrap (ms : list requestMiddleware) (h : requestHandler)
    : requestHandler :=
  match ms with
  | [] => h
  | m :: ms' => wrap ms' (fun req => m req h)
  end.

(** [requestReporter] is an interface; [R] is the reporter handle. *)
Class requestReporter (R : Type) := {
  ReportRequest : R -> string -> W -> W;
  ReportRequestError : R -> string -> Z -> W -> W;
  ReportRequestDuration : R -> string -> Z -> W -> W
}.

(** [time.Now()], read from the state. *)
Class Clock := { time_Now : W -> Z }.

Definition MetricsReporterMiddleware {R} `{requestReporter R} `{Clock}
    (reporter : R) : requestMiddleware :=
  fun req next w =>
    let start := time_Now w in
    let '((resp, err), w) := next req w in
    let duration := time_Now w - start in
    let w := ReportRequest reporter (Method req) w in
    let w := ReportRequestDuration reporter (Method req) duration w in
    let w :=
      match resp with
      | Some r =>
          match RespError r with
          | Some e => ReportRequestError reporter (Method req) (Code e) w
          | None => w
          end
      | None => w
      end in
    ((resp, err), w).
End Middleware.

(** ** The reporter of server_middleware_test.go *)

Record testRequestReporter := mkReporter {
  method : string;
  duration : Z;
  count : Z;
  errCode : Z
}.

Definition reporter0 : testRequestReporter :=
  {| method := ""; duration := 0; count := 0; errCode := 0 |}.

(** The state of a test run: the reporters (by address, so that two
    middlewares can share one), the clock, and the state [S] that belongs
    to the server's methods. *)
Record World (S : Type) := mkWorld {
  reporters : gmap positive testRequestReporter;
  clock : Z;
  core : S
}.

Definition update {S} (r : positive)
    (f : testRequestReporter -> testRequestReporter) (w : World S) : World S :=
  {| reporters := alter f r (reporters w); clock := clock w; core := core w |}.

#[global] Instance testReporter {S} : requestReporter (World S) positive := {
  ReportRequest r m :=
    update r (fun x => {| method := m; duration := duration x;
                          count := count x + 1; errCode := errCode x |});
  ReportRequestError r m c :=
    update r (fun x => {| method := method x; duration := duration x;
                          count := count x; errCode := c |});
  ReportRequestDuration r m d :=
    update r (fun x => {| method := method x; duration := d;
                          count := count x; errCode := errCode x |})
}.

#[global] Instance worldClock {S} : Clock (World S) := {
  time_Now w := clock w
}.

(** How often reporter [r] has been told of a request. *)
Definition countOf {S} (r : positive) (w : World S) : option Z :=
  count <$> reporters w !! r.

(** The method of the test: [subtract], answering [a - b].  The parameters
    are taken as already bound. *)
Definition subtract (a b : Z) : requestHandler (World unit) :=
  fun req w =>
    ((Some {| Result := Some (pretty (a - b));
              RespError := None; RespID := ReqID req |}, None),
     {| reporters := reporters w; clock := clock w + 1; core := core w |}).

(** ** The HTTP adapter *)

Definition StatusOK : Z := 200.
Definition StatusNotFound : Z := 404.
Definition StatusMethodNotAllowed : Z := 405.
Definition StatusInternalServerError : Z := 500.

Definition MaxRequestBodySize : Z := 10 * 1024 * 1024.

(** An [io.Reader], by what reading it to the end gives: the bytes it
    yields and then end of file ([None]) or an error. *)
Record Reader := mkReader {
  bytes : list Byte.byte;
  failure : option goerror
}.

(** [http.MaxBytesReader]: up to [n] bytes pass; a longer body yields its
    first [n] bytes and then fails. *)
Definition MaxBytesReader (r : Reader) (n : Z) : Reader :=
  if Z.of_nat (length (bytes r)) <=? n then r
  else {| bytes := take (Z.to_nat n) (bytes r);
          failure := Some "http: request body too large"%string |}.

Record Request := mkHTTPRequest {
  HTTPMethod : string;
  URLPath : string;
  Body : Reader
}.

(** An [http.ResponseWriter]: the status given to [WriteHeader] (if any),
    the headers, the body written so far, and whether the peer still
    accepts writes. *)
Record ResponseWriter := mkWriter {
  status : option Z;
  headers : gmap string string;
  body : list Byte.byte;
  open : bool
}.

(** The first status written stays. *)
Definition WriteHeader (code : Z) (w : ResponseWriter) : ResponseWriter :=
  match status w with
  | Some _ => w
  | None => {| status := Some code; headers := headers w; body := body w;
               open := open w |}
  end.

Definition HeaderSet (k v : string) (w : ResponseWriter) : ResponseWriter :=
  {| status := status w; headers := <[k := v]> (headers w); body := body w;
     open := open w |}.

(** [Write] sends status 200 first if none was written. *)
Definition Write (p : list Byte.byte) (w : ResponseWriter)
    : option goerror * ResponseWriter :=
  let w := WriteHeader StatusOK w in
  if open w then
    (None, {| status := status w; headers := headers w;
              body := body w ++ p; open := true |})
  else (Some "write: broken pipe"%string, w).

(** The status the client sees once the handler has returned. *)
Definition statusSent (w : ResponseWriter) : Z :=
  default StatusOK (status w).

Section HTTP.
(** [S] is the state of the RPC server behind the adapter. *)
Variable S : Type.
(** [Server.HandleReader], which is not part of the sources at hand: it reads
    the request from the reader and answers with the response bytes (or nil)
    and an error (or nil). *)
Variable HandleReader :
  Reader -> S -> (option (list Byte.byte) * option goerror) * S.

Record HTTP := mkHTTP {
  rpc : S;
  log : list string;
  reporter_requests : Z
}.

Definition ServeHTTP (h : HTTP) (writer : ResponseWriter) (req : Request)
    : HTTP * ResponseWriter :=
  if String.eqb (HTTPMethod req) "GET" then
    let status := StatusNotFound in
    let status := if String.eqb (URLPath req) "/" then StatusOK else status in
    (h, WriteHeader status writer)
  else if negb (String.eqb (HTTPMethod req) "POST") then
    (h, WriteHeader StatusMethodNotAllowed writer)
  else
    let reqBody := MaxBytesReader (Body req) MaxRequestBodySize in
    let requests := reporter_requests h + 1 in
    let '((resp, err), rpc) := HandleReader reqBody (rpc h) in
    let writer := HeaderSet "Content-Type" "application/json" writer in
    let writer :=
      match err with
      | Some _ => WriteHeader StatusInternalServerError writer
      | None => writer
      end in
    match resp with
    | Some resp =>
        let '(err, writer) := Write resp writer in
        let log :=
          match err with
          | Some e => log h ++ ["Failed writing response"%string]
          | None => log h
          end in
        ({| rpc := rpc; log := log; reporter_requests := requests |}, writer)
    | None =>
        ({| rpc := rpc; log := log h; reporter_requests := requests |}, writer)
    end.
End HTTP.

End jsonrpc.

(* ===================================================================== *)
(** * Package rpcv8: subscriptions                                         *)
(* ===================================================================== *)

(** The types of other packages that the handlers pass around, each with
    the fields the handlers read. *)

Module felt.
(** [felt.Felt], a field element, by its canonical representative. *)
Definition Felt : Type := Z.
End felt.

Module core.
Record Header := mkHeader {
  Number : Z;
  Hash : option felt.Felt
}.
End core.

Module sync.
Record ReorgBlockRange := mkReorg {
  StartBlockHash : option felt.Felt;
  StartBlockNum : Z;
  EndBlockHash : option felt.Felt;
  EndBlockNum : Z
}.
End sync.

Module blockchain.
Record FilteredEvent := mkFilteredEvent {
  BlockNumber : option Z;
  BlockHash : option felt.Felt;
  TransactionHash : felt.Felt;
  EventIndex : Z;
  From : felt.Felt;
  Keys : list felt.Felt;
  Data : list felt.Felt
}.
End blockchain.

Module coretx.
(** A [core.Transaction], as far as the subscriptions look at it: its hash,
    and for an invoke and a declare transaction the address of its sender.
    [OtherTransaction] is a transaction of any other type. *)
Inductive Transaction :=
| InvokeTransaction (TransactionHash : felt.Felt) (SenderAddress : felt.Felt)
| DeclareTransaction (TransactionHash : felt.Felt) (SenderAddress : felt.Felt)
| OtherTransaction (TransactionHash : felt.Felt).

(** [txn.Hash()] *)
Definition Hash (txn : Transaction) : felt.Felt :=
  match txn with
  | InvokeTransaction hash _ => hash
  | DeclareTransaction hash _ => hash
  | OtherTransaction hash => hash
  end.
End coretx.

Module rpcv8.

Abbreviation Felt := felt.Felt.

(** The error templates of [jsonrpc] and [rpccore] that the subscription
    handlers return.  Go compares them by address, so each template is a
    constructor of its own; [ErrInternal] carries the data it was cloned
    with. *)
Inductive Error :=
| MethodNotFound
| ErrInternal (data : string)
| ErrBlockNotFound
| ErrTooManyKeysInFilter
| ErrTooManyAddressesInFilter
| ErrTooManyBlocksBack
| ErrInvalidSubscriptionID
| ErrTxnHashNotFound.

#[global] Instance Error_eq_dec : EqDecision Error.
Proof. solve_decision. Defined.

(** ** Block identifiers *)

(** As per the Starknet specification: a block id without [pending]. *)
Record SubscriptionBlockID := mkBlockID {
  Latest : bool;
  Hash : option Felt;
  Number : Z
}.

(** The interface [BlockIdentifier] (without its decoder). *)
Class BlockIdentifier (B : Type) := {
  IsLatest : B -> bool;
  IsPending : B -> bool;
  GetHash : B -> option Felt;
  GetNumber : B -> Z
}.

#[global] Instance SubscriptionBlockID_BlockIdentifier
    : BlockIdentifier SubscriptionBlockID := {
  IsLatest b := Latest b;
  IsPending b := false;
  GetHash b := Hash b;
  GetNumber b := Number b
}.

(** A JSON text as [encoding/json] reads it.  A number keeps its literal. *)
#[local] Unset Elimination Schemes.
Inductive JSON :=
| JNull
| JBool (b : bool)
| JNumber (literal : string)
| JString (s : string)
| JArray (elements : list JSON)
| JObject (members : list (string * JSON)).
#[local] Set Elimination Schemes.

(** The double quote character and the JSON text of the string [latest]. *)
Definition dquote : string :=
  String (Ascii false true false false false true false false) EmptyString.
Definition latest_text : string := dquote ++ "latest" ++ dquote.

Section Decoding.
(** The library decoders the method calls: the JSON reader ([None] on a
    text that is not JSON), and [json.Unmarshal] into a [felt.Felt] and into
    a [uint64], each giving the error (or nil) and the value left in the
    target. *)
Variable decode : string -> option JSON.
Variable unmarshalFelt : JSON -> Felt -> option jsonrpc.goerror * Felt.
Variable unmarshalUint64 : JSON -> Z -> option jsonrpc.goerror * Z.

(** [json.Unmarshal(data, &jsonObject)] for a [map[string]json.RawMessage]:
    an object fills the map, a later member replacing an earlier one of the
    same name; [null] leaves the map nil; anything else is an error.  A raw
    message is kept as the value it holds. *)
Definition unmarshalObject (data : string)
    : jsonrpc.goerror + gmap string JSON :=
  match decode data with
  | None => inl "invalid character looking for beginning of value"%string
  | Some (JObject members) =>
      inr (fold_left (fun m kv => <[kv.1 := kv.2]> m) members ∅)
  | Some JNull => inr ∅
  | Some _ =>
      inl "json: cannot unmarshal into Go value of type map"%string
  end.

Definition UnmarshalJSON (data : string) (b : SubscriptionBlockID)
    : option jsonrpc.goerror * SubscriptionBlockID :=
  if String.eqb data latest_text then
    (None, {| Latest := true; Hash := Hash b; Number := Number b |})
  else
    match unmarshalObject data with
    | inl err => (Some err, b)
    | inr jsonObject =>
        match jsonObject !! "block_hash"%string with
        | Some hash =>
            let '(err, f) := unmarshalFelt hash 0 in
            (err, {| Latest := Latest b; Hash := Some f; Number := Number b |})
        | None =>
            match jsonObject !! "block_number"%string with
            | Some number =>
                let '(err, n) := unmarshalUint64 number (Number b) in
                (err, {| Latest := Latest b; Hash := Hash b; Number := n |})
            | None => (Some "cannot unmarshal block id"%string, b)
            end
        end
    end.

(** The members of an object, by name. *)
Definition hasMember (name : string) (v : JSON) : bool :=
  match v with
  | JObject members => bool_decide (name ∈ members.*1)
  | _ => false
  end.
End Decoding.

(** ** Notifications *)

(** Currently the order of transactions is deterministic, so the transaction
    hash and the event index identify an event. *)
Definition SentEvent : Type := Felt * Z.

Record Event := mkEvent {
  EvFrom : Felt;
  EvKeys : list Felt;
  EvData : list Felt
}.

Record EmittedEvent := mkEmitted {
  EmBlockNumber : option Z;
  EmBlockHash : option Felt;
  EmTransactionHash : Felt;
  EmEvent : Event
}.

Record ReorgEvent := mkReorgEvent {
  StartBlockHash : option Felt;
  StartBlockNum : Z;
  EndBlockHash : option Felt;
  EndBlockNum : Z
}.

(** What a transaction status holds, as far as the handlers look. *)
Record TransactionStatus := mkStatus {
  Finality : Z;
  Execution : Z
}.

(** The [result] of a notification.  [origin] is not on the wire: it keeps
    which event an events notification was built from. *)
Inductive Result :=
| REvent (e : EmittedEvent) (origin : SentEvent)
| RHeader (header : core.Header)
| RReorg (r : ReorgEvent)
| RTxnStatus (txHash : Felt) (status : TransactionStatus)
| RPendingTx (txHash : Felt).

Record SubscriptionResponse := mkResp {
  Version : string;
  Method : string;
  subscription_id : Z;
  result : Result
}.

(** A [jsonrpc.Conn] as one writer sees it: what was written, and for how
    many more writes the peer is there ([None]: for ever). *)
Record Wire := mkWire {
  written : list SubscriptionResponse;
  writesLeft : option nat
}.

Definition Write (resp : SubscriptionResponse) (w : Wire)
    : option jsonrpc.goerror * Wire :=
  match writesLeft w with
  | None => (None, {| written := written w ++ [resp]; writesLeft := None |})
  | Some (S n) =>
      (None, {| written := written w ++ [resp]; writesLeft := Some n |})
  | Some O => (Some "write: connection closed"%string, w)
  end.

(** [sendResponse]: the response is marshalled, which does not fail for
    the results there are, and written to the connection. *)
Definition sendResponse (method : string) (w : Wire) (id : Z)
    (result : Result) : option jsonrpc.goerror * Wire :=
  let resp := {| Version := "2.0"; Method := method;
                 subscription_id := id; result := result |} in
  Write resp w.

(** A [context.Context] as one task sees it: how many more times a look at
    [ctx.Done()] finds it open ([None]: it is never cancelled). *)
Definition Ctx : Type := option nat.

(** One look at [ctx.Done()]: [None] when the context is done. *)
Definition poll (ctx : Ctx) : option Ctx :=
  match ctx with
  | None => Some None
  | Some (S n) => Some (Some n)
  | Some O => None
  end.

(** ** Events *)

Definition emit (event : blockchain.FilteredEvent) : Result :=
  REvent
    {| EmBlockNumber := blockchain.BlockNumber event;
       EmBlockHash := blockchain.BlockHash event;
       EmTransactionHash := blockchain.TransactionHash event;
       EmEvent := {| EvFrom := blockchain.From event;
                     EvKeys := blockchain.Keys event;
                     EvData := blockchain.Data event |} |}
    (blockchain.TransactionHash event, blockchain.EventIndex event).

(** [sendEvents]; the map [eventsPreviouslySent] is changed in place, so it
    is returned next to the error. *)
Fixpoint sendEvents (ctx : Ctx) (w : Wire)
    (events : list blockchain.FilteredEvent)
    (eventsPreviouslySent : option (gset SentEvent)) (id : Z)
    : option jsonrpc.goerror * (Ctx * Wire * option (gset SentEvent)) :=
  match events with
  | [] => (None, (ctx, w, eventsPreviouslySent))
  | event :: events =>
      match poll ctx with
      | None =>
          (Some "context canceled"%string, (ctx, w, eventsPreviouslySent))
      | Some ctx =>
          let sentEvent :=
            (blockchain.TransactionHash event, blockchain.EventIndex event) in
          match eventsPreviouslySent with
          | Some sent =>
              if bool_decide (sentEvent ∈ sent) then
                sendEvents ctx w events (Some sent) id
              else
                let sent :=
                  match blockchain.BlockHash event with
                  | None => {[sentEvent]} ∪ sent
                  | Some _ => sent ∖ {[sentEvent]}
                  end in
                match sendResponse "starknet_subscriptionEvents" w id
                        (emit event) with
                | (Some err, w) => (Some err, (ctx, w, Some sent))
                | (None, w) => sendEvents ctx w events (Some sent) id
                end
          | None =>
              match sendResponse "starknet_subscriptionEvents" w id
                      (emit event) with
              | (Some err, w) => (Some err, (ctx, w, None))
              | (None, w) => sendEvents ctx w events None id
              end
          end
      end
  end.

(** What one use of the event filter gives, call by call: [Stop] when the
    filter cannot be made, its range cannot be set or [filter.Events] fails;
    [Page] for events with a continuation token, [LastPage] for events
    without one. *)
Inductive Pages :=
| Stop
| Page (events : list blockchain.FilteredEvent) (more : Pages)
| LastPage (events : list blockchain.FilteredEvent).

(** [processEvents]: a page is fetched and sent, and so on while there is a
    continuation token.  Every error is logged and ends the call. *)
Fixpoint processPages (ctx : Ctx) (w : Wire) (id : Z) (pages : Pages)
    (eventsPreviouslySent : option (gset SentEvent))
    : Ctx * Wire * option (gset SentEvent) :=
  match pages with
  | Stop => (ctx, w, eventsPreviouslySent)
  | LastPage filteredEvents =>
      snd (sendEvents ctx w filteredEvents eventsPreviouslySent id)
  | Page filteredEvents more =>
      match sendEvents ctx w filteredEvents eventsPreviouslySent id with
      | (Some err, st) => st
      | (None, (ctx, w, sent)) => processPages ctx w id more sent
      end
  end.

(** What the loop of an events subscription receives, each with what the
    filter gives when it is then asked. *)
Inductive Received :=
| FromReorgs (reorg : sync.ReorgBlockRange)
| FromNewHeads (head : core.Header) (pages : Pages)
| FromPending (pages : Pages).

Definition sendReorg (w : Wire) (reorg : sync.ReorgBlockRange) (id : Z)
    : option jsonrpc.goerror * Wire :=
  sendResponse "starknet_subscriptionReorg" w id
    (RReorg {| StartBlockHash := sync.StartBlockHash reorg;
               StartBlockNum := sync.StartBlockNum reorg;
               EndBlockHash := sync.EndBlockHash reorg;
               EndBlockNum := sync.EndBlockNum reorg |}).

(** The loop of the task of [SubscribeEvents].  [received] is what the
    [select] takes, in order, before it takes [subscriptionCtx.Done()]. *)
Fixpoint eventsLoop (received : list Received) (ctx : Ctx) (w : Wire)
    (id : Z) (nextBlock : Z) (eventsPreviouslySent : gset SentEvent)
    : Wire * Z * gset SentEvent :=
  match received with
  | [] => (w, nextBlock, eventsPreviouslySent)
  | FromReorgs reorg :: received =>
      match sendReorg w reorg id with
      | (Some err, w) => (w, nextBlock, eventsPreviouslySent)
      | (None, w) =>
          eventsLoop received ctx w id (sync.StartBlockNum reorg)
            eventsPreviouslySent
      end
  | FromNewHeads head pages :: received =>
      let '(ctx, w, sent) :=
        processPages ctx w id pages (Some eventsPreviouslySent) in
      eventsLoop received ctx w id ((core.Number head + 1) mod 2 ^ 64)
        (default ∅ sent)
  | FromPending pages :: received =>
      let '(ctx, w, sent) :=
        processPages ctx w id pages (Some eventsPreviouslySent) in
      eventsLoop received ctx w id nextBlock (default ∅ sent)
  end.

(** The task of [SubscribeEvents]: the range up to the head without the
    map, then the loop with a new, empty map. *)
Definition eventsTask (ctx : Ctx) (w : Wire) (id : Z)
    (headNumber : Z) (first : Pages) (received : list Received)
    : Wire * Z * gset SentEvent :=
  let '(ctx, w, _) := processPages ctx w id first None in
  let nextBlock := (headNumber + 1) mod 2 ^ 64 in
  let eventsPreviouslySent : gset SentEvent := ∅ in
  eventsLoop received ctx w id nextBlock eventsPreviouslySent.

(** Whether notification [r] was built from event [k]. *)
Definition isFrom (k : SentEvent) (r : SubscriptionResponse) : bool :=
  match result r with
  | REvent _ origin => bool_decide (origin = k)
  | _ => false
  end.

(** The notifications in [l] that were built from event [k]. *)
Definition notificationsOf (k : SentEvent) (l : list SubscriptionResponse)
    : list SubscriptionResponse :=
  filter (fun r => isFrom k r) l.

(** The pair that identifies an event. *)
Definition keyOf (event : blockchain.FilteredEvent) : SentEvent :=
  (blockchain.TransactionHash event, blockchain.EventIndex event).

(** The notification [sendEvents] writes for an event. *)
Definition notificationOf (id : Z) (event : blockchain.FilteredEvent)
    : SubscriptionResponse :=
  {| Version := "2.0"; Method := "starknet_subscriptionEvents";
     subscription_id := id; result := emit event |}.

(** The events the filter gives over its pages, in order. *)
Fixpoint eventsOfPages (pages : Pages) : list blockchain.FilteredEvent :=
  match pages with
  | Stop => []
  | Page events more => events ++ eventsOfPages more
  | LastPage events => events
  end.

(** The events the loop of a subscription is given, in order. *)
Fixpoint delivered (received : list Received)
    : list blockchain.FilteredEvent :=
  match received with
  | [] => []
  | FromReorgs _ :: received => delivered received
  | FromNewHeads _ pages :: received =>
      eventsOfPages pages ++ delivered received
  | FromPending pages :: received =>
      eventsOfPages pages ++ delivered received
  end.

(** The first of [events] that is event [k], if there is one. *)
Definition firstOf (k : SentEvent) (events : list blockchain.FilteredEvent)
    : option blockchain.FilteredEvent :=
  head (filter (fun event => keyOf event = k) events).

(** What handling [events] does for event [k] when the map and the
    connection go from [sent] and [w] to [sent'] and [w']: once [k] is in
    the map it stays there and nothing more is written for it; while it is
    not, nothing is written for it until it comes, and when it first comes
    from a pending block it is written once and put in the map. *)
Definition handled (k : SentEvent) (id : Z)
    (events : list blockchain.FilteredEvent)
    (sent : gset SentEvent) (w : Wire) (sent' : gset SentEvent) (w' : Wire)
    : Prop :=
  (k ∈ sent ->
   k ∈ sent'
   /\ notificationsOf k (written w') = notificationsOf k (written w))
  /\ (k ∉ sent ->
      match firstOf k events with
      | None =>
          (k ∉ sent')
          /\ notificationsOf k (written w') = notificationsOf k (written w)
      | Some event =>
          blockchain.BlockHash event = None ->
          k ∈ sent'
          /\ notificationsOf k (written w')
             = notificationsOf k (written w) ++ [notificationOf id event]
      end).

(** ** The handler and its subscriptions *)

(** The feeds of the chain a subscription reads from. *)
Inductive Feed := newHeads | reorgs | pendingBlock | l1Heads.

(** What the task of a subscription was started with. *)
Inductive Job :=
| newHeadsJob (startHeader latestHeader : core.Header)
| eventsJob (requested head : Z) (fromAddr : option Felt)
    (keys : list (list Felt))
| txStatusJob (txHash : Felt) (curStatus : TransactionStatus)
| pendingTxsJob (getDetails : bool) (senderAddr : list Felt).

(** The blockchain reader, as far as the handlers ask it here. *)
Record Reader := mkChain {
  HeadsHeader : jsonrpc.goerror + core.Header
}.

(** What the handlers are given from outside these sources, for connections
    of type [Conn]: the identity check [Conn.Equal] of a connection handle;
    the limits of package [rpccore]; the id generator the handler was made
    with, as the n-th id it hands out; and [Handler.blockHeaderByID] and
    [Handler.TransactionStatus].  The status of a transaction changes with
    the chain: [transactionStatus n] is what the n-th call answers. *)
Record Deps (Conn : Type) := mkDeps {
  Equal : Conn -> Conn -> bool;
  MaxEventFilterKeys : Z;
  MaxBlocksBack : Z;
  idgen : nat -> Z;
  blockHeaderByID :
    forall B, BlockIdentifier B -> Reader -> B -> Error + core.Header;
  transactionStatus : nat -> Felt -> Error + TransactionStatus
}.

Section Engine.
Variable Conn : Type.
Variable deps : Deps Conn.

(** The request context: it may carry the connection of the request. *)
Record RequestContext := mkCtx {
  ctxConn : option Conn
}.

Definition ConnFromContext (ctx : RequestContext) : option Conn := ctxConn ctx.

(** A subscription object: whether [cancel] was called, the connection, and
    the counter of its wait group. *)
Record subscription := mkSub {
  cancelled : bool;
  conn : Conn;
  wg : nat
}.

(** A running task: the subscription object, the id and the connection it
    holds, the feeds it is attached to (and whether as keep-last), and what
    it was started with. *)
Record task := mkTask {
  sub : positive;
  subID : Z;
  subConn : Conn;
  handles : list (Feed * bool);
  job : Job
}.

(** The handler.  Subscription objects live at addresses: the registry
    [subscriptions] maps an id to the address of its object, and a task or
    a call of [Unsubscribe] can hold an address whose id is no longer in
    the registry. *)
Record Handler := mkHandler {
  bcReader : Reader;
  subscriptions : gmap Z positive;
  heap : gmap positive subscription;
  drawn : nat;
  asked : nat;
  tasks : list task
}.

(** [h.idgen()] *)
Definition nextID (h : Handler) : Z * Handler :=
  (idgen deps (drawn h),
   {| bcReader := bcReader h; subscriptions := subscriptions h;
      heap := heap h; drawn := S (drawn h); asked := asked h;
      tasks := tasks h |}).

(** [sub := &subscription{cancel: ..., conn: w}] *)
Definition newSubscription (w : Conn) (h : Handler) : positive * Handler :=
  let l := fresh (dom (heap h)) in
  (l,
   {| bcReader := bcReader h; subscriptions := subscriptions h;
      heap := <[l := {| cancelled := false; conn := w; wg := 0 |}]> (heap h);
      drawn := drawn h; asked := asked h; tasks := tasks h |}).

(** [h.subscriptions.Store(id, sub)] *)
Definition Store (id : Z) (sub : positive) (h : Handler) : Handler :=
  {| bcReader := bcReader h; subscriptions := <[id := sub]> (subscriptions h);
     heap := heap h; drawn := drawn h; asked := asked h; tasks := tasks h |}.

(** [h.subscriptions.Delete(id)] *)
Definition Delete (id : Z) (h : Handler) : Handler :=
  {| bcReader := bcReader h; subscriptions := delete id (subscriptions h);
     heap := heap h; drawn := drawn h; asked := asked h; tasks := tasks h |}.

(** [sub.wg.Go(f)]: the counter goes up and the task runs. *)
Definition Go (t : task) (h : Handler) : Handler :=
  {| bcReader := bcReader h; subscriptions := subscriptions h;
     heap := alter (fun s => {| cancelled := cancelled s; conn := conn s;
                                wg := S (wg s) |}) (sub t) (heap h);
     drawn := drawn h; asked := asked h; tasks := tasks h ++ [t] |}.

(** [sub.cancel()] *)
Definition cancel (sub : positive) (h : Handler) : Handler :=
  {| bcReader := bcReader h; subscriptions := subscriptions h;
     heap := alter (fun s => {| cancelled := true; conn := conn s;
                                wg := wg s |}) sub (heap h);
     drawn := drawn h; asked := asked h; tasks := tasks h |}.

(** The end of the task at index [i]: the counter goes down. *)
Definition Done (i : nat) (sub : positive) (h : Handler) : Handler :=
  {| bcReader := bcReader h; subscriptions := subscriptions h;
     heap := alter (fun s => {| cancelled := cancelled s; conn := conn s;
                                wg := pred (wg s) |}) sub (heap h);
     drawn := drawn h; asked := asked h; tasks := delete i (tasks h) |}.

(** [h.TransactionStatus(ctx, txHash)] *)
Definition Handler_TransactionStatus (h : Handler) (txHash : Felt)
    : (Error + TransactionStatus) * Handler :=
  (transactionStatus deps (asked h) txHash,
   {| bcReader := bcReader h; subscriptions := subscriptions h;
      heap := heap h; drawn := drawn h; asked := S (asked h);
      tasks := tasks h |}).

(** [resolveBlockRange] returns the start and latest headers based on the
    block id; [None] is a nil id.  The subtraction is the one of [uint64]. *)
Definition resolveBlockRange {B} `{BlockIdentifier B} (h : Handler)
    (id : option B) : Error + (core.Header * core.Header) :=
  match HeadsHeader (bcReader h) with
  | inl err => inl (ErrInternal err)
  | inr latestHeader =>
      match id with
      | None => inr (latestHeader, latestHeader)
      | Some id =>
          if IsLatest id then inr (latestHeader, latestHeader)
          else
            match blockHeaderByID deps _ (bcReader h) id with
            | inl rpcErr => inl rpcErr
            | inr startHeader =>
                if (MaxBlocksBack deps <=? core.Number latestHeader)
                   && (core.Number startHeader <=?
                       (core.Number latestHeader - MaxBlocksBack deps)
                       mod 2 ^ 64)
                then inl ErrTooManyBlocksBack
                else inr (startHeader, latestHeader)
            end
      end
  end.

(** The header the requested starting block resolves to when the head is
    [latestHeader]: the head itself for a nil id and for [latest]. *)
Definition startOf {B} `{BlockIdentifier B} (h : Handler) (id : option B)
    (latestHeader : core.Header) : Error + core.Header :=
  match id with
  | None => inr latestHeader
  | Some id =>
      if IsLatest id then inr latestHeader
      else blockHeaderByID deps _ (bcReader h) id
  end.

(** [SubscribeNewHeads] *)
Definition SubscribeNewHeads (h : Handler) (ctx : RequestContext)
    (blockID : option SubscriptionBlockID) : (Z * option Error) * Handler :=
  match ConnFromContext ctx with
  | None => ((0, Some MethodNotFound), h)
  | Some w =>
      match resolveBlockRange h blockID with
      | inl rpcErr => ((0, Some rpcErr), h)
      | inr (startHeader, latestHeader) =>
          let '(id, h) := nextID h in
          let '(sub, h) := newSubscription w h in
          let h := Store id sub h in
          let h :=
            Go {| sub := sub; subID := id; subConn := w;
                  handles := [(newHeads, false); (reorgs, false)];
                  job := newHeadsJob startHeader latestHeader |} h in
          ((id, None), h)
      end
  end.

(** The sum the key check of [SubscribeEvents] makes: it starts from the
    number of inner lists and adds the length of each. *)
Definition lenKeys (keys : list (list Felt)) : Z :=
  fold_left (fun lenKeys k => lenKeys + Z.of_nat (length k)) keys
    (Z.of_nat (length keys)).

(** The sum of the key-filter entries across the inner lists, as the
    specification words the limit. *)
Definition keyEntries (keys : list (list Felt)) : Z :=
  Z.of_nat (length (concat keys)).

(** [SubscribeEvents] *)
Definition SubscribeEvents (h : Handler) (ctx : RequestContext)
    (fromAddr : option Felt) (keys : list (list Felt))
    (blockID : option SubscriptionBlockID) : (Z * option Error) * Handler :=
  match ConnFromContext ctx with
  | None => ((0, Some MethodNotFound), h)
  | Some w =>
      if MaxEventFilterKeys deps <? lenKeys keys then
        ((0, Some ErrTooManyKeysInFilter), h)
      else
        match resolveBlockRange h blockID with
        | inl rpcErr => ((0, Some rpcErr), h)
        | inr (requestedHeader, headHeader) =>
            let '(id, h) := nextID h in
            let '(sub, h) := newSubscription w h in
            let h := Store id sub h in
            let h :=
              Go {| sub := sub; subID := id; subConn := w;
                    handles := [(newHeads, true); (reorgs, true);
                                (pendingBlock, true)];
                    job := eventsJob (core.Number requestedHeader)
                             (core.Number headHeader) fromAddr keys |} h in
            ((id, None), h)
        end
  end.

(** [SubscribePendingTxs] *)
Definition SubscribePendingTxs (h : Handler) (ctx : RequestContext)
    (getDetails : option bool) (senderAddr : list Felt)
    : (Z * option Error) * Handler :=
  match ConnFromContext ctx with
  | None => ((0, Some MethodNotFound), h)
  | Some w =>
      if MaxEventFilterKeys deps <? Z.of_nat (length senderAddr) then
        ((0, Some ErrTooManyAddressesInFilter), h)
      else
        let '(id, h) := nextID h in
        let '(sub, h) := newSubscription w h in
        let h := Store id sub h in
        let h :=
          Go {| sub := sub; subID := id; subConn := w;
                handles := [(pendingBlock, false)];
                job := pendingTxsJob (default false getDetails) senderAddr |}
            h in
        ((id, None), h)
  end.

(** The loop [txNotFoundLoop] of [SubscribeTransactionStatus].  [ticks] is
    how often the [select] takes the ticker before it takes the timeout:
    the timer fires once, so the loop ends. *)
Fixpoint txNotFoundLoop (ticks : nat) (h : Handler) (txHash : Felt)
    (rpcErr : Error) : (Error + TransactionStatus) * Handler :=
  match ticks with
  | O => (inl rpcErr, h)
  | S ticks =>
      let '(r, h) := Handler_TransactionStatus h txHash in
      match r with
      | inl rpcErr =>
          if bool_decide (rpcErr ≠ ErrTxnHashNotFound) then (inl rpcErr, h)
          else txNotFoundLoop ticks h txHash rpcErr
      | inr curStatus => (inr curStatus, h)
      end
  end.

(** [SubscribeTransactionStatus] *)
Definition SubscribeTransactionStatus (h : Handler) (ctx : RequestContext)
    (txHash : Felt) (ticks : nat) : (Z * option Error) * Handler :=
  match ConnFromContext ctx with
  | None => ((0, Some MethodNotFound), h)
  | Some w =>
      let '(r, h) := Handler_TransactionStatus h txHash in
      let '(r, h) :=
        match r with
        | inl rpcErr =>
            if bool_decide (rpcErr ≠ ErrTxnHashNotFound) then (inl rpcErr, h)
            else txNotFoundLoop ticks h txHash rpcErr
        | inr curStatus => (inr curStatus, h)
        end in
      match r with
      | inl rpcErr => ((0, Some rpcErr), h)
      | inr curStatus =>
          let '(id, h) := nextID h in
          let '(sub, h) := newSubscription w h in
          let h := Store id sub h in
          let h :=
            Go {| sub := sub; subID := id; subConn := w;
                  handles := [(pendingBlock, false); (l1Heads, false);
                              (reorgs, false)];
                  job := txStatusJob txHash curStatus |} h in
          ((id, None), h)
      end
  end.

(** ** Unsubscribe *)

(** Where a call of [Unsubscribe] is: about to start, in [subs.wg.Wait()]
    holding the address [subs] it loaded, or back with its results. *)
Inductive call :=
| Called (ctx : RequestContext) (id : Z)
| Waiting (subs : positive) (id : Z)
| Returned (ok : bool) (err : option Error).

(** [Unsubscribe], up to the wait.  A registry entry always holds the
    address of an object; the branch for an address without one is there
    for the lookup in the model only. *)
Definition Unsubscribe_enter (h : Handler) (ctx : RequestContext) (id : Z)
    : call * Handler :=
  match ConnFromContext ctx with
  | None => (Returned false (Some MethodNotFound), h)
  | Some w =>
      match subscriptions h !! id with
      | None => (Returned false (Some ErrInvalidSubscriptionID), h)
      | Some sub =>
          match heap h !! sub with
          | None => (Returned false (Some ErrInvalidSubscriptionID), h)
          | Some subs =>
              if negb (Equal deps (conn subs) w) then
                (Returned false (Some ErrInvalidSubscriptionID), h)
              else (Waiting sub id, cancel sub h)
          end
      end
  end.

(** [Unsubscribe], from the wait on: [None] while a task of the
    subscription still runs. *)
Definition Unsubscribe_leave (h : Handler) (subs : positive) (id : Z)
    : option (call * Handler) :=
  match heap h !! subs with
  | Some s =>
      if bool_decide (wg s = 0%nat) then
        Some (Returned true None, Delete id h)
      else None
  | None => None
  end.

(** Modelled from the spec: [Handler.unsubscribe], which a task defers, is
    not part of the sources at hand; on termination the engine releases the
    feed handles and deletes the registry entry. *)
Definition unsubscribe (sub : positive) (id : Z) (h : Handler) : Handler :=
  Delete id (cancel sub h).

(** ** The engine at work *)

(** Calls run side by side, so that another call can come between two lines
    of a subscribe handler.  Up to [h.subscriptions.Store(id, sub)] a handler
    writes nothing that another call reads, it only draws its id; from there
    on its subscription is in the registry, while its task is started only
    by the [sub.wg.Go] that follows.  So a handler is run in two halves:
    the first, from its first line to the [Store], gives the error the
    handler returns or the task it is about to start; the second is the
    [sub.wg.Go] of that task. *)
Definition SubscribeNewHeads_store (h : Handler) (ctx : RequestContext)
    (blockID : option SubscriptionBlockID) : (Error + task) * Handler :=
  match ConnFromContext ctx with
  | None => (inl MethodNotFound, h)
  | Some w =>
      match resolveBlockRange h blockID with
      | inl rpcErr => (inl rpcErr, h)
      | inr (startHeader, latestHeader) =>
          let '(id, h) := nextID h in
          let '(sub, h) := newSubscription w h in
          let h := Store id sub h in
          (inr {| sub := sub; subID := id; subConn := w;
                  handles := [(newHeads, false); (reorgs, false)];
                  job := newHeadsJob startHeader latestHeader |}, h)
      end
  end.

Definition SubscribeEvents_store (h : Handler) (ctx : RequestContext)
    (fromAddr : option Felt) (keys : list (list Felt))
    (blockID : option SubscriptionBlockID) : (Error + task) * Handler :=
  match ConnFromContext ctx with
  | None => (inl MethodNotFound, h)
  | Some w =>
      if MaxEventFilterKeys deps <? lenKeys keys then
        (inl ErrTooManyKeysInFilter, h)
      else
        match resolveBlockRange h blockID with
        | inl rpcErr => (inl rpcErr, h)
        | inr (requestedHeader, headHeader) =>
            let '(id, h) := nextID h in
            let '(sub, h) := newSubscription w h in
            let h := Store id sub h in
            (inr {| sub := sub; subID := id; subConn := w;
                    handles := [(newHeads, true); (reorgs, true);
                                (pendingBlock, true)];
                    job := eventsJob (core.Number requestedHeader)
                             (core.Number headHeader) fromAddr keys |}, h)
        end
  end.

Definition SubscribePendingTxs_store (h : Handler) (ctx : RequestContext)
    (getDetails : option bool) (senderAddr : list Felt)
    : (Error + task) * Handler :=
  match ConnFromContext ctx with
  | None => (inl MethodNotFound, h)
  | Some w =>
      if MaxEventFilterKeys deps <? Z.of_nat (length senderAddr) then
        (inl ErrTooManyAddressesInFilter, h)
      else
        let '(id, h) := nextID h in
        let '(sub, h) := newSubscription w h in
        let h := Store id sub h in
        (inr {| sub := sub; subID := id; subConn := w;
                handles := [(pendingBlock, false)];
                job := pendingTxsJob (default false getDetails) senderAddr |},
         h)
  end.

Definition SubscribeTransactionStatus_store (h : Handler)
    (ctx : RequestContext) (txHash : Felt) (ticks : nat)
    : (Error + task) * Handler :=
  match ConnFromContext ctx with
  | None => (inl MethodNotFound, h)
  | Some w =>
      let '(r, h) := Handler_TransactionStatus h txHash in
      let '(r, h) :=
        match r with
        | inl rpcErr =>
            if bool_decide (rpcErr ≠ ErrTxnHashNotFound) then (inl rpcErr, h)
            else txNotFoundLoop ticks h txHash rpcErr
        | inr curStatus => (inr curStatus, h)
        end in
      match r with
      | inl rpcErr => (inl rpcErr, h)
      | inr curStatus =>
          let '(id, h) := nextID h in
          let '(sub, h) := newSubscription w h in
          let h := Store id sub h in
          (inr {| sub := sub; subID := id; subConn := w;
                  handles := [(pendingBlock, false); (l1Heads, false);
                              (reorgs, false)];
                  job := txStatusJob txHash curStatus |}, h)
      end
  end.

(** The handler; the subscribe calls that are between their [Store] and
    their [sub.wg.Go], each as the task it is about to start; the
    subscriptions whose connection is closed or has refused a write; the
    calls of [Unsubscribe] under way; and what was written to the
    connections. *)
Record World := mkWorld {
  handler : Handler;
  starting : list task;
  broken : gset positive;
  calls : gmap nat call;
  out : list (Conn * SubscriptionResponse)
}.

Definition withHandler (h : Handler) (s : World) : World :=
  {| handler := h; starting := starting s; broken := broken s;
     calls := calls s; out := out s |}.

(** The engine after the first half of a subscribe handler. *)
Definition withStored (r : (Error + task) * Handler) (s : World) : World :=
  {| handler := r.2;
     starting := match r.1 with
                 | inl _ => starting s
                 | inr t => starting s ++ [t]
                 end;
     broken := broken s; calls := calls s; out := out s |}.

(** When a task can end.  Every loop of a task leaves at
    [<-subscriptionCtx.Done()], which is open once [sub.cancel()] was called
    or the connection the context comes from is closed; a task also returns
    when a write to its connection fails; and the task of a transaction
    status returns by itself when the status it starts with is final.
    Which statuses are final is not looked at here: such a task can end at
    any time.  The other tasks run until one of the first two. *)
Definition ending (s : World) (t : task) : Prop :=
  (cancelled <$> heap (handler s) !! sub t) = Some true
  \/ sub t ∈ broken s
  \/ exists txHash curStatus, job t = txStatusJob txHash curStatus.

(** One step of the engine: the first half of a subscribe handler runs; the
    second half of one that is under way runs, which starts its task; a call
    of [Unsubscribe] arrives, starts or gets through its wait; a task writes
    a notification for its id to its connection; a connection is closed or
    refuses a write; or a task that can end ends (its deferred [unsubscribe]
    runs and its wait group is told).  A task can write for as long as it
    runs, also when its context is cancelled: the task of a transaction
    status writes the status it starts with before it looks at its context,
    and a [select] takes any of the channels that are ready. *)
Inductive step (s : World) : World -> Prop :=
| step_newHeads ctx blockID :
    step s (withStored (SubscribeNewHeads_store (handler s) ctx blockID) s)
| step_events ctx fromAddr keys blockID :
    step s
      (withStored
         (SubscribeEvents_store (handler s) ctx fromAddr keys blockID) s)
| step_pendingTxs ctx getDetails senderAddr :
    step s
      (withStored
         (SubscribePendingTxs_store (handler s) ctx getDetails senderAddr) s)
| step_txStatus ctx txHash ticks :
    step s
      (withStored
         (SubscribeTransactionStatus_store (handler s) ctx txHash ticks) s)
| step_go n t :
    starting s !! n = Some t ->
    step s {| handler := Go t (handler s); starting := delete n (starting s);
              broken := broken s; calls := calls s; out := out s |}
| step_call t ctx id :
    calls s !! t = None ->
    step s {| handler := handler s; starting := starting s;
              broken := broken s;
              calls := <[t := Called ctx id]> (calls s); out := out s |}
| step_enter t ctx id :
    calls s !! t = Some (Called ctx id) ->
    step s {| handler := (Unsubscribe_enter (handler s) ctx id).2;
              starting := starting s; broken := broken s;
              calls := <[t := (Unsubscribe_enter (handler s) ctx id).1]>
                         (calls s);
              out := out s |}
| step_leave t subs id c h :
    calls s !! t = Some (Waiting subs id) ->
    Unsubscribe_leave (handler s) subs id = Some (c, h) ->
    step s {| handler := h; starting := starting s; broken := broken s;
              calls := <[t := c]> (calls s); out := out s |}
| step_write i t resp :
    tasks (handler s) !! i = Some t ->
    subscription_id resp = subID t ->
    step s {| handler := handler s; starting := starting s;
              broken := broken s; calls := calls s;
              out := out s ++ [(subConn t, resp)] |}
| step_break l :
    step s {| handler := handler s; starting := starting s;
              broken := {[l]} ∪ broken s; calls := calls s; out := out s |}
| step_exit i t :
    tasks (handler s) !! i = Some t ->
    ending s t ->
    step s (withHandler
              (Done i (sub t) (unsubscribe (sub t) (subID t) (handler s))) s).

(** Any number of steps. *)
Definition steps : World -> World -> Prop := rtc step.

(** A handler that was just made, and the engine around it. *)
Definition newHandler (chain : Reader) : Handler :=
  {| bcReader := chain; subscriptions := ∅; heap := ∅; drawn := 0;
     asked := 0; tasks := [] |}.

Definition newWorld (chain : Reader) : World :=
  {| handler := newHandler chain; starting := []; broken := ∅; calls := ∅;
     out := [] |}.

(** The notifications in [l] for subscription id [i]. *)
Definition notificationsFor (i : Z) (l : list (Conn * SubscriptionResponse))
    : list (Conn * SubscriptionResponse) :=
  filter (fun x => subscription_id x.2 = i) l.

(** ** The books of the engine *)

(** The id [i] was handed out by the generator. *)
Definition drawnID (i : Z) (h : Handler) : Prop :=
  exists n, (n < drawn h)%nat /\ i = idgen deps n.

(** The tasks of the subscription object at [l]. *)
Definition tasksOf (l : positive) (h : Handler) : list task :=
  filter (fun t => sub t = l) (tasks h).

(** What holds of a handler between any two steps: the ids in the registry
    and of the tasks were handed out; registry entries and tasks hold
    addresses of objects; a task whose id is in the registry belongs to the
    object registered under it; and the counter of each wait group is the
    number of tasks of its object. *)
Record consistent (h : Handler) : Prop := mkConsistent {
  registry_drawn :
    forall i l, subscriptions h !! i = Some l -> drawnID i h;
  registry_alloc :
    forall i l, subscriptions h !! i = Some l -> is_Some (heap h !! l);
  tasks_drawn : forall t, t ∈ tasks h -> drawnID (subID t) h;
  tasks_alloc : forall t, t ∈ tasks h -> is_Some (heap h !! sub t);
  registry_tasks :
    forall t l, t ∈ tasks h -> subscriptions h !! subID t = Some l ->
      sub t = l;
  wg_counts :
    forall l s, heap h !! l = Some s -> wg s = length (tasksOf l h)
}.

(** What holds of the subscribe calls [st] that are between their [Store]
    and their [sub.wg.Go], next to the books of the handler and the
    notifications [o] written so far: the id of each was handed out; its
    object is there and holds its connection; if its id is in the registry,
    then with its object; no task holds its id and nothing was written for
    it; and no two of them have one id. *)
Record prepared (h : Handler) (st : list task)
    (o : list (Conn * SubscriptionResponse)) : Prop := mkPrepared {
  starting_drawn : forall t, t ∈ st -> drawnID (subID t) h;
  starting_conn :
    forall t, t ∈ st ->
      exists sb, heap h !! sub t = Some sb /\ conn sb = subConn t;
  starting_registry :
    forall t l, t ∈ st -> subscriptions h !! subID t = Some l -> sub t = l;
  starting_tasks :
    forall t t', t ∈ st -> t' ∈ tasks h -> subID t' <> subID t;
  starting_out :
    forall t c r, t ∈ st -> (c, r) ∈ o -> subscription_id r <> subID t;
  starting_ids : NoDup (subID <$> st)
}.

(** The ways the engine changes: the status of a transaction is asked; a
    subscription is stored (an id is drawn, an object made and stored, its
    task yet to start); the task of a stored subscription is started; an
    object is cancelled; an id is deleted from the registry; a task is
    done; a task writes; and the rest, which the books do not look at. *)
Inductive change (s : World) : World -> Prop :=
| change_asked n :
    change s
      (withHandler
         {| bcReader := bcReader (handler s);
            subscriptions := subscriptions (handler s);
            heap := heap (handler s); drawn := drawn (handler s); asked := n;
            tasks := tasks (handler s) |} s)
| change_stored w handles job :
    change s
      {| handler :=
           Store (nextID (handler s)).1
             (newSubscription w (nextID (handler s)).2).1
             (newSubscription w (nextID (handler s)).2).2;
         starting :=
           starting s
           ++ [{| sub := (newSubscription w (nextID (handler s)).2).1;
                  subID := (nextID (handler s)).1; subConn := w;
                  handles := handles; job := job |}];
         broken := broken s; calls := calls s; out := out s |}
| change_go n t :
    starting s !! n = Some t ->
    change s {| handler := Go t (handler s);
                starting := delete n (starting s);
                broken := broken s; calls := calls s; out := out s |}
| change_cancel l : change s (withHandler (cancel l (handler s)) s)
| change_delete i : change s (withHandler (Delete i (handler s)) s)
| change_done i t :
    tasks (handler s) !! i = Some t ->
    change s (withHandler (Done i (sub t) (handler s)) s)
| change_written i t resp :
    tasks (handler s) !! i = Some t ->
    subscription_id resp = subID t ->
    change s {| handler := handler s; starting := starting s;
                broken := broken s; calls := calls s;
                out := out s ++ [(subConn t, resp)] |}
| change_rest b c :
    change s {| handler := handler s; starting := starting s; broken := b;
                calls := c; out := out s |}.

End Engine.

(** ** The books of a new subscription, and where notifications go *)

Section Books.
Variable Conn : Type.
Variable deps : Deps Conn.


(** What the handler [h'] has in common with [h] when no subscription was
    made: everything but the count of status lookups. *)
Definition sameBooks (h h' : Handler Conn) : Prop :=
  bcReader h' = bcReader h
  /\ subscriptions h' = subscriptions h
  /\ heap h' = heap h
  /\ drawn h' = drawn h
  /\ tasks h' = tasks h.

(** What holds of the notifications [o] written so far, next to the books of
    the handler: each is for an id that was handed out; a task writes to the
    connection of its object; tasks with one id write to one connection, to
    which everything for that id went; and while an id is registered, that is
    the connection of the object registered under it. *)
Record routed (h : Handler Conn) (o : list (Conn * SubscriptionResponse))
    : Prop := mkRouted {
  out_drawn :
    forall c r, (c, r) ∈ o -> drawnID deps (subscription_id r) h;
  task_conn :
    forall t sb, t ∈ tasks h -> heap h !! sub t = Some sb ->
      conn sb = subConn t;
  task_ids :
    forall t1 t2, t1 ∈ tasks h -> t2 ∈ tasks h -> subID t1 = subID t2 ->
      subConn t1 = subConn t2;
  out_task :
    forall c r t, (c, r) ∈ o -> t ∈ tasks h ->
      subscription_id r = subID t -> c = subConn t;
  out_agree :
    forall c1 r1 c2 r2, (c1, r1) ∈ o -> (c2, r2) ∈ o ->
      subscription_id r1 = subscription_id r2 -> c1 = c2;
  out_registry :
    forall c r l sb, (c, r) ∈ o ->
      subscriptions h !! subscription_id r = Some l ->
      heap h !! l = Some sb -> c = conn sb
}.

End Books.

(** ** New heads and reorgs *)

(** [sendHeader]: the header goes out as [adaptBlockHeader] makes it, which
    is kept here as the header it is made from. *)
Definition sendHeader (w : Wire) (header : core.Header) (id : Z)
    : option jsonrpc.goerror * Wire :=
  sendResponse "starknet_subscriptionNewHeads" w id (RHeader header).

(** [sendHistoricalHeaders] sends a range of headers from the start header
    until the latest header.  [BlockHeaderByNumber] is the one of the
    blockchain reader; [fuel] bounds the turns of the loop, and [None] is a
    loop that has not returned within them. *)
Fixpoint sendHistoricalHeaders (fuel : nat)
    (BlockHeaderByNumber : Z -> jsonrpc.goerror + core.Header) (ctx : Ctx)
    (curHeader latestHeader : core.Header) (w : Wire) (id : Z)
    : option (option jsonrpc.goerror * (Ctx * Wire)) :=
  match fuel with
  | O => None
  | S fuel =>
      match poll ctx with
      | None => Some (Some "context canceled"%string, (ctx, w))
      | Some ctx =>
          match sendHeader w curHeader id with
          | (Some err, w) => Some (Some err, (ctx, w))
          | (None, w) =>
              if core.Number curHeader =? core.Number latestHeader then
                Some (None, (ctx, w))
              else
                match BlockHeaderByNumber
                        ((core.Number curHeader + 1) mod 2 ^ 64) with
                | inl err => Some (Some err, (ctx, w))
                | inr curHeader =>
                    sendHistoricalHeaders fuel BlockHeaderByNumber ctx
                      curHeader latestHeader w id
                end
          end
      end
  end.

(** [processNewHeaders].  [received] is what the [select] takes from the
    feed of new heads, in order, before it takes [ctx.Done()]: the header
    of each block. *)
Fixpoint processNewHeaders (received : list core.Header) (w : Wire) (id : Z)
    : Wire :=
  match received with
  | [] => w
  | head :: received =>
      match sendHeader w head id with
      | (Some err, w) => w
      | (None, w) => processNewHeaders received w id
      end
  end.

(** [processReorgs], likewise for the feed of reorgs. *)
Fixpoint processReorgs (received : list sync.ReorgBlockRange) (w : Wire)
    (id : Z) : Wire :=
  match received with
  | [] => w
  | reorg :: received =>
      match sendReorg w reorg id with
      | (Some err, w) => w
      | (None, w) => processReorgs received w id
      end
  end.

(** The notifications [sendHeader] and [sendReorg] write. *)
Definition headerNotification (id : Z) (header : core.Header)
    : SubscriptionResponse :=
  {| Version := "2.0"; Method := "starknet_subscriptionNewHeads";
     subscription_id := id; result := RHeader header |}.

Definition reorgNotification (id : Z) (reorg : sync.ReorgBlockRange)
    : SubscriptionResponse :=
  {| Version := "2.0"; Method := "starknet_subscriptionReorg";
     subscription_id := id;
     result := RReorg {| StartBlockHash := sync.StartBlockHash reorg;
                         StartBlockNum := sync.StartBlockNum reorg;
                         EndBlockHash := sync.EndBlockHash reorg;
                         EndBlockNum := sync.EndBlockNum reorg |} |}.

(** How many of [n] writes get through to the connection [w]. *)
Definition through (w : Wire) (n : nat) : nat :=
  match writesLeft w with
  | None => n
  | Some k => n `min` k
  end.

(** The connection [w'] is [w] with more written, all of it for the id
    [id], as version 2.0 and under one of the methods [methods]. *)
Definition extends (id : Z) (methods : list string) (w w' : Wire) : Prop :=
  exists new,
    written w' = written w ++ new
    /\ Forall (fun r => subscription_id r = id
                        /\ Version r = "2.0"%string
                        /\ Method r ∈ methods) new.

(** ** Pending transactions *)

Section PendingTxs.
(** The transaction of the RPC answer, and [AdaptTransaction], which makes
    it; neither is part of the sources at hand. *)
Variable Transaction : Type.
Variable AdaptTransaction : coretx.Transaction -> Transaction.

(** [filterTxBySender] checks if the transaction is included in the sender
    address list.  If the list is empty, it returns true. *)
Definition filterTxBySender (txn : coretx.Transaction)
    (senderAddr : list Felt) : bool :=
  if (length senderAddr =? 0)%nat then true
  else
    match txn with
    | coretx.InvokeTransaction _ SenderAddress =>
        existsb (fun addr => SenderAddress =? addr) senderAddr
    | coretx.DeclareTransaction _ SenderAddress =>
        existsb (fun addr => SenderAddress =? addr) senderAddr
    | coretx.OtherTransaction _ => false
    end.

Definition filterTxDetails (pendingTxs : list coretx.Transaction)
    (senderAddr : list Felt) : list Transaction :=
  fold_left
    (fun filteredTxs txn =>
       if filterTxBySender txn senderAddr
       then filteredTxs ++ [AdaptTransaction txn] else filteredTxs)
    pendingTxs [].

Definition filterTxHashes (pendingTxs : list coretx.Transaction)
    (senderAddr : list Felt) : list Felt :=
  fold_left
    (fun filteredTxHashes txn =>
       if filterTxBySender txn senderAddr
       then filteredTxHashes ++ [coretx.Hash txn] else filteredTxHashes)
    pendingTxs [].

(** [filterTxs]: the details of the transactions, or their hashes only. *)
Definition filterTxs (pendingTxs : list coretx.Transaction)
    (getDetails : bool) (senderAddr : list Felt)
    : list (Transaction + Felt) :=
  if getDetails then inl <$> filterTxDetails pendingTxs senderAddr
  else inr <$> filterTxHashes pendingTxs senderAddr.

(** Whether the sender list names the sender of the transaction. *)
Definition sentBy (senderAddr : list Felt) (txn : coretx.Transaction)
    : Prop :=
  match txn with
  | coretx.InvokeTransaction _ SenderAddress => SenderAddress ∈ senderAddr
  | coretx.DeclareTransaction _ SenderAddress => SenderAddress ∈ senderAddr
  | coretx.OtherTransaction _ => False
  end.
End PendingTxs.

(** ** The task of a transaction status subscription *)

(** [sendTxnStatus], given the hash and the status it is to send. *)
Definition sendTxnStatus (w : Wire) (txHash : Felt)
    (status : TransactionStatus) (id : Z) : option jsonrpc.goerror * Wire :=
  sendResponse "starknet_subscriptionTransactionsStatus" w id
    (RTxnStatus txHash status).

Definition statusNotification (id : Z) (txHash : Felt)
    (status : TransactionStatus) : SubscriptionResponse :=
  {| Version := "2.0"; Method := "starknet_subscriptionTransactionsStatus";
     subscription_id := id; result := RTxnStatus txHash status |}.

(** The receipt of a transaction, as far as the task looks at it. *)
Record TransactionReceipt := mkReceipt {
  FinalityStatus : Z;
  ExecutionStatus : Z
}.

(** What the two loops of the task receive: a pending block, with what
    [Handler.TransactionStatus] answers when it is then asked; an L1 head,
    with what [Handler.TransactionReceiptByHash] answers; a reorg. *)
Inductive StatusReceived :=
| StatusPending (answer : Error + TransactionStatus)
| StatusL1Head (receipt : Error + TransactionReceipt)
| StatusReorg (reorg : sync.ReorgBlockRange).

Section TxStatus.
(** The constants of [TxnStatus] and of [TxnFinalityStatus] the task
    compares with; they are not part of the sources at hand. *)
Variable TxnStatusRejected : Z.
Variable TxnStatusAcceptedOnL2 : Z.
Variable TxnStatusAcceptedOnL1 : Z.
Variable TxnAcceptedOnL1 : Z.

(** A transaction is considered to be final if it has been rejected or
    accepted on L1. *)
Definition isFinal (status : TransactionStatus) : bool :=
  (Finality status =? TxnStatusRejected)
  || (Finality status =? TxnStatusAcceptedOnL1).

(** The two loops the task starts once the transaction is known not to be
    final: the loop of the status, on pending blocks and L1 heads, and
    [processReorgs]; both write to the one connection.  [received] is what
    their [select]s take, in the order they take it, before they take
    [subscriptionCtx.Done()]; [running] tells which of the two loops has not
    returned yet, and what comes for a loop that has returned is left
    alone. *)
Fixpoint statusLoops (received : list StatusReceived) (running : bool * bool)
    (w : Wire) (id : Z) (txHash : Felt) (curStatus : TransactionStatus)
    : Wire :=
  match received with
  | [] => w
  | StatusPending answer :: received =>
      if negb running.1 then
        statusLoops received running w id txHash curStatus
      else if Finality curStatus <? TxnStatusAcceptedOnL2 then
        let prevStatus := curStatus in
        match answer with
        | inl rpcErr =>
            statusLoops received (false, running.2) w id txHash curStatus
        | inr curStatus =>
            if Finality prevStatus <? Finality curStatus then
              match sendTxnStatus w txHash curStatus id with
              | (Some err, w) =>
                  statusLoops received (false, running.2) w id txHash
                    curStatus
              | (None, w) =>
                  if isFinal curStatus then
                    statusLoops received (false, running.2) w id txHash
                      curStatus
                  else statusLoops received running w id txHash curStatus
              end
            else statusLoops received running w id txHash curStatus
        end
      else statusLoops received running w id txHash curStatus
  | StatusL1Head receipt :: received =>
      if negb running.1 then
        statusLoops received running w id txHash curStatus
      else
        match receipt with
        | inl rpcErr =>
            statusLoops received (false, running.2) w id txHash curStatus
        | inr receipt =>
            if FinalityStatus receipt =? TxnAcceptedOnL1 then
              let s := {| Finality := FinalityStatus receipt;
                          Execution := ExecutionStatus receipt |} in
              let '(_, w) := sendTxnStatus w txHash s id in
              statusLoops received (false, running.2) w id txHash curStatus
            else statusLoops received running w id txHash curStatus
        end
  | StatusReorg reorg :: received =>
      if negb running.2 then
        statusLoops received running w id txHash curStatus
      else
        match sendReorg w reorg id with
        | (Some err, w) =>
            statusLoops received (running.1, false) w id txHash curStatus
        | (None, w) => statusLoops received running w id txHash curStatus
        end
  end.

(** The task of [SubscribeTransactionStatus]: the status the subscription
    was made with is sent, and unless that fails or the status is final,
    the two loops run. *)
Definition statusTask (received : list StatusReceived) (w : Wire) (id : Z)
    (txHash : Felt) (curStatus : TransactionStatus) : Wire :=
  match sendTxnStatus w txHash curStatus id with
  | (Some err, w) => w
  | (None, w) =>
      if isFinal curStatus then w
      else statusLoops received (true, true) w id txHash curStatus
  end.

(** The answers do not go back: each status that is looked up is at least as
    final as the one before, starting from [f], and a receipt that is
    accepted on L1 is more final than the status held when it comes. *)
Fixpoint rising (f : Z) (received : list StatusReceived) : Prop :=
  match received with
  | [] => True
  | StatusPending (inr status) :: received =>
      f <= Finality status /\ rising (Finality status) received
  | StatusL1Head (inr receipt) :: received =>
      (FinalityStatus receipt = TxnAcceptedOnL1 -> f < FinalityStatus receipt)
      /\ rising f received
  | _ :: received => rising f received
  end.
End TxStatus.

(** The finalities of the statuses in [l] that were written for the
    subscription [id], in order. *)
Definition finalitiesFor (id : Z) (l : list SubscriptionResponse) : list Z :=
  omap (fun r =>
          match result r with
          | RTxnStatus _ status =>
              if subscription_id r =? id then Some (Finality status)
              else None
          | _ => None
          end) l.

End rpcv8.

(* ===================================================================== *)
(** * Package rpcv7: simulation flags                                      *)
(* ===================================================================== *)

Module rpcv7.

(** [SimulationFlag] is an [int]; its constants count from [iota + 1]. *)
Definition SimulationFlag : Type := Z.
Definition SkipValidateFlag : SimulationFlag := 0 + 1.
Definition SkipFeeChargeFlag : SimulationFlag := 1 + 1.

(** The error [fmt.Errorf] makes, by its format and its argument. *)
Inductive error := Errorf (format : string) (arg : string).

Definition skipValidateText : string :=
  rpcv8.dquote ++ "SKIP_VALIDATE" ++ rpcv8.dquote.
Definition skipFeeChargeText : string :=
  rpcv8.dquote ++ "SKIP_FEE_CHARGE" ++ rpcv8.dquote.

(** [SimulationFlag.UnmarshalJSON]: the error (or nil) and the flag left in
    the target. *)
Definition UnmarshalJSON (bytes : string) (s : SimulationFlag)
    : option error * SimulationFlag :=
  let flag := bytes in
  if String.eqb flag skipValidateText then (None, SkipValidateFlag)
  else if String.eqb flag skipFeeChargeText then (None, SkipFeeChargeFlag)
  else (Some (Errorf "unknown simulation flag %q" flag), s).

(** The first lines of [simulateTransactions]: what the flags of a request
    switch off. *)
Definition skipFeeCharge (simulationFlags : list SimulationFlag) : bool :=
  existsb (fun f => f =? SkipFeeChargeFlag) simulationFlags.
Definition skipValidate (simulationFlags : list SimulationFlag) : bool :=
  existsb (fun f => f =? SkipValidateFlag) simulationFlags.

End rpcv7.

(* ===================================================================== *)
(** * Fixtures                                                             *)
(* ===================================================================== *)

Module fixtures.
Import jsonrpc.

(** The request of server_middleware_test.go, its parameters bound. *)
Definition subtractRequest : request :=
  {| Method := "subtract"; Params := "minuend 42, subtrahend 23";
     ReqID := Some "4"%string |}.

(** A world with one reporter, at address 1, that has seen nothing. *)
Definition testWorld : World unit :=
  {| reporters := {[ 1%positive := reporter0 ]}; clock := 0; core := tt |}.

(** A server core that answers with the bytes it read, and fails when the
    reader failed. *)
Definition echo (r : Reader) (n : nat)
    : (option (list Byte.byte) * option goerror) * nat :=
  ((Some (bytes r), failure r), S n).

Definition emptyWriter : ResponseWriter :=
  {| status := None; headers := ∅; body := []; open := true |}.

Definition adapter : HTTP nat :=
  {| rpc := 0%nat; log := []; reporter_requests := 0 |}.

(** A POST whose body can be read, and one whose body breaks off. *)
Definition postRequest : Request :=
  {| HTTPMethod := "POST"; URLPath := "/";
     Body := {| bytes := [Byte.x7b; Byte.x7d]; failure := None |} |}.

Definition brokenPost : Request :=
  {| HTTPMethod := "POST"; URLPath := "/";
     Body := {| bytes := [Byte.x7b];
                failure := Some "unexpected EOF"%string |} |}.

(** A dispatcher that knows no method: it answers with the error object of
    JSON-RPC for a method that is not found, and takes three ticks. *)
Definition notFound : requestHandler (World unit) :=
  fun req w =>
    ((Some {| Result := None;
              RespError := Some {| Code := -32601;
                                   Message := "Method not found";
                                   Data := None |};
              RespID := ReqID req |}, None),
     {| reporters := reporters w; clock := clock w + 3; core := core w |}).

(** A response writer whose peer has gone. *)
Definition closedWriter : ResponseWriter :=
  {| status := None; headers := ∅; body := []; open := false |}.

End fixtures.

Module subscriptions_fixtures.
Import rpcv8.

(** The JSON texts of the examples: a block number, an empty object, and
    [null]. *)
Definition numberText : string :=
  "{" ++ dquote ++ "block_number" ++ dquote ++ ":7}".
Definition emptyObjectText : string := "{}".
Definition nullText : string := "null".

(** A JSON reader that knows the texts of the examples. *)
Definition reader (data : string) : option JSON :=
  if String.eqb data latest_text then Some (JString "latest")
  else if String.eqb data numberText then
    Some (JObject [("block_number"%string, JNumber "7")])
  else if String.eqb data emptyObjectText then Some (JObject [])
  else if String.eqb data nullText then Some JNull
  else None.

Definition readFelt (v : JSON) (old : Felt) : option jsonrpc.goerror * Felt :=
  match v with
  | JString "0x1" => (None, 1)
  | _ => (Some "felt: cannot unmarshal"%string, old)
  end.

Definition readUint64 (v : JSON) (old : Z) : option jsonrpc.goerror * Z :=
  match v with
  | JNumber "7" => (None, 7)
  | JNull => (None, old)
  | _ => (Some "json: cannot unmarshal into uint64"%string, old)
  end.

Definition blankID : SubscriptionBlockID :=
  {| Latest := false; Hash := None; Number := 0 |}.

(** The text of an object with a block hash and a block number, and a JSON
    reader that knows it. *)
Definition hashText : string :=
  "{" ++ dquote ++ "block_hash" ++ dquote ++ ":" ++ dquote ++ "0x1" ++ dquote
  ++ "," ++ dquote ++ "block_number" ++ dquote ++ ":7}".

Definition hashReader (data : string) : option JSON :=
  if String.eqb data hashText then
    Some (JObject [("block_hash"%string, JString "0x1");
                   ("block_number"%string, JNumber "7")])
  else None.

(** Ids are handed out in order, from 1. *)
Definition counter (n : nat) : Z := Z.of_nat n + 1.

(** A chain that has a block for every number, and whose head is block
    2048. *)
Definition headerByNumber (B : Type) (_ : BlockIdentifier B) (chain : Reader)
    (b : B) : Error + core.Header :=
  inr {| core.Number := GetNumber b; core.Hash := Some (GetNumber b) |}.

Definition chain2048 : Reader :=
  {| HeadsHeader := inr {| core.Number := 2048; core.Hash := Some 2048 |} |}.

(** A transaction the feeder never produces. *)
Definition neverFound (n : nat) (txHash : Felt) : Error + TransactionStatus :=
  inl ErrTxnHashNotFound.

(** Connections are numbered, and two handles are equal when the numbers
    are; both limits are 1024. *)
Definition deps1024 : Deps positive :=
  {| Equal := Pos.eqb; MaxEventFilterKeys := 1024; MaxBlocksBack := 1024;
     idgen := counter; blockHeaderByID := headerByNumber;
     transactionStatus := neverFound |}.

(** A request on connection 1, and one on connection 2. *)
Definition onConn1 : RequestContext positive :=
  {| ctxConn := Some 1%positive |}.
Definition onConn2 : RequestContext positive :=
  {| ctxConn := Some 2%positive |}.

(** A handler that was just made, over that chain. *)
Definition handler0 : Handler positive := newHandler chain2048.

(** An event of transaction 7, as the pending block has it and as block 11
    has it once it is confirmed. *)
Definition pendingEvent : blockchain.FilteredEvent :=
  {| blockchain.BlockNumber := None; blockchain.BlockHash := None;
     blockchain.TransactionHash := 7; blockchain.EventIndex := 0;
     blockchain.From := 3; blockchain.Keys := [1]; blockchain.Data := [2] |}.

Definition confirmedEvent : blockchain.FilteredEvent :=
  {| blockchain.BlockNumber := Some 11; blockchain.BlockHash := Some 99;
     blockchain.TransactionHash := 7; blockchain.EventIndex := 0;
     blockchain.From := 3; blockchain.Keys := [1]; blockchain.Data := [2] |}.

(** A connection nothing was written to, whose peer stays. *)
Definition freshWire : Wire := {| written := []; writesLeft := None |}.

(** The pending block with the event, twice, and then block 11. *)
Definition pendingThenConfirmed : list Received :=
  [FromPending (LastPage [pendingEvent]);
   FromPending (LastPage [pendingEvent]);
   FromNewHeads {| core.Number := 11; core.Hash := Some 99 |}
     (LastPage [confirmedEvent])].

(** The handler after connection 1 subscribed to new heads from the latest
    block: the subscription has id 1 and its object is at address 1. *)
Definition subscribed : Handler positive :=
  (SubscribeNewHeads deps1024 handler0 onConn1 None).2.

Definition subscription1 : subscription positive :=
  {| cancelled := false; conn := 1%positive; wg := 1 |}.

(** The engine after that subscription, with a call of [Unsubscribe] for
    id 1 that has arrived on connection 1. *)
Definition unsubscribing : World positive :=
  {| handler := subscribed; starting := []; broken := ∅;
     calls := {[ 0%nat := Called onConn1 1 ]}; out := [] |}.

(** One inner list of 1024 keys. *)
Definition keys1024 : list (list Felt) := [repeat 1 1024].

(** The block that is 1024 blocks behind the head. *)
Definition block1024 : SubscriptionBlockID :=
  {| Latest := false; Hash := None; Number := 1024 |}.

(** The engine after that subscription, once its task has written the
    header of the head to connection 1. *)
Definition head2048 : core.Header :=
  {| core.Number := 2048; core.Hash := Some 2048 |}.

Definition notified : World positive :=
  {| handler := subscribed; starting := []; broken := ∅; calls := ∅;
     out := [(1%positive, headerNotification 1 head2048)] |}.

(** A chain that has a block for every number. *)
Definition headerOf (n : Z) : core.Header :=
  {| core.Number := n; core.Hash := Some n |}.

Definition everyBlock (n : Z) : jsonrpc.goerror + core.Header :=
  inr (headerOf n).

(** A transaction that is received (1), then accepted on L2 (3), and then
    has a receipt that is accepted on L1 (4), with a reorg in between. *)
Definition acceptedOnL2 : TransactionStatus :=
  {| Finality := 3; Execution := 1 |}.

Definition statusFeed : list StatusReceived :=
  [StatusPending (inr {| Finality := 1; Execution := 0 |});
   StatusPending (inr acceptedOnL2);
   StatusReorg {| sync.StartBlockHash := Some 5; sync.StartBlockNum := 5;
                  sync.EndBlockHash := Some 6; sync.EndBlockNum := 6 |};
   StatusPending (inr acceptedOnL2);
   StatusL1Head (inr {| FinalityStatus := 4; ExecutionStatus := 1 |})].

(** A chain whose head cannot be read. *)
Definition brokenChain : Reader :=
  {| HeadsHeader := inl "db: key not found"%string |}.

(** A connection that takes two more writes. *)
Definition twoWrites : Wire := {| written := []; writesLeft := Some 2%nat |}.

(** A pending block with an invoke transaction of sender 3, a declare
    transaction of sender 4 and a transaction of another type. *)
Definition pendingTxs : list coretx.Transaction :=
  [coretx.InvokeTransaction 10 3; coretx.DeclareTransaction 11 4;
   coretx.OtherTransaction 12].

(** A request that came over HTTP: its context carries no connection. *)
Definition noConn : RequestContext positive := {| ctxConn := None |}.

(** A transaction the feeder has at the third lookup, as received. *)
Definition received1 : TransactionStatus :=
  {| Finality := 1; Execution := 0 |}.

Definition foundAtThird (n : nat) (txHash : Felt)
    : Error + TransactionStatus :=
  if (n <? 2)%nat then inl ErrTxnHashNotFound else inr received1.

Definition depsFound : Deps positive :=
  {| Equal := Pos.eqb; MaxEventFilterKeys := 1024; MaxBlocksBack := 1024;
     idgen := counter; blockHeaderByID := headerByNumber;
     transactionStatus := foundAtThird |}.

(** The task of the subscription to new heads that connection 1 made. *)
Definition headsTask1 : task positive :=
  {| sub := 1%positive; subID := 1; subConn := 1%positive;
     handles := [(newHeads, false); (reorgs, false)];
     job := newHeadsJob head2048 head2048 |}.

(** A transaction the node has, as received, at every lookup. *)
Definition alwaysReceived (n : nat) (txHash : Felt)
    : Error + TransactionStatus :=
  inr received1.

Definition depsReceived : Deps positive :=
  {| Equal := Pos.eqb; MaxEventFilterKeys := 1024; MaxBlocksBack := 1024;
     idgen := counter; blockHeaderByID := headerByNumber;
     transactionStatus := alwaysReceived |}.

(** Connection 1 subscribes to the status of transaction 9 and, side by
    side, calls [Unsubscribe] for id 1.  The subscribe call has stored its
    subscription, and is about to start this task, when the other call
    arrives. *)
Definition statusTask1 : task positive :=
  {| sub := 1%positive; subID := 1; subConn := 1%positive;
     handles := [(pendingBlock, false); (l1Heads, false); (reorgs, false)];
     job := txStatusJob 9 received1 |}.

Definition racing : World positive :=
  {| handler :=
       (SubscribeTransactionStatus_store depsReceived handler0 onConn1 9 0).2;
     starting := [statusTask1]; broken := ∅;
     calls := {[ 0%nat := Called onConn1 1 ]}; out := [] |}.

(** The call of [Unsubscribe] has returned [true]; the task is still to
    start. *)
Definition returnedEarly : World positive :=
  {| handler := Delete 1 (cancel 1%positive (handler racing));
     starting := [statusTask1]; broken := ∅;
     calls := {[ 0%nat := Returned true None ]}; out := [] |}.

(** The subscribe call has gone on, and the task has written the status it
    starts with. *)
Definition writtenLate : World positive :=
  {| handler := Go statusTask1 (handler returnedEarly);
     starting := []; broken := ∅;
     calls := {[ 0%nat := Returned true None ]};
     out := [(1%positive, statusNotification 1 9 received1)] |}.

End subscriptions_fixtures.

Unset Implicit Arguments.
Unset Contextual Implicit.

(* ===================================================================== *)
(** * Properties of the middleware                                         *)
(* ===================================================================== *)

Section MiddlewareProperties.
Import jsonrpc.
Context {W : Type}.

Lemma current_WithRequestMiddleware (m : requestMiddleware W) (s : Server W) :
  current (WithRequestMiddleware m s) = fun req => m req (current s).
Proof. reflexivity. Qed.

Lemma register_snoc (ms : list (requestMiddleware W)) m (s : Server W) :
  register (ms ++ [m]) s = WithRequestMiddleware m (register ms s).
Proof. unfold register. by rewrite fold_left_app. Qed.

Lemma wrap_snoc (ms : list (requestMiddleware W)) m (h : requestHandler W) :
  wrap (ms ++ [m]) h = fun req => m req (wrap ms h).
Proof.
  revert h. induction ms as [|m' ms IH]; intros h; simpl; [done|].
  by rewrite IH.
Qed.

(** Registering [ms] one after the other leaves the nest [wrap ms] around
    the handler there was: the last one registered is outermost. *)
Lemma current_register (ms : list (requestMiddleware W)) (s : Server W) :
  current (register ms s) = wrap ms (current s).
Proof.
  induction ms as [|m ms IH] using rev_ind; [done|].
  by rewrite register_snoc, current_WithRequestMiddleware, IH, wrap_snoc.
Qed.

(** C8 — Middleware composition is LIFO: for two middlewares [M1] and [M2]
    registered in that order with [WithRequestMiddleware], the handler of
    record is [M2] applied around [M1] applied around the terminal
    dispatcher, and that is what runs on each request: [M2] outermost, [M1]
    around the terminal handler. *)
Theorem middleware_lifo (terminal : requestHandler W)
    (M1 M2 : requestMiddleware W) :
  let s := {| handler := None; handleRequest := terminal |} in
  handler (WithRequestMiddleware M2 (WithRequestMiddleware M1 s))
    = Some (fun req => M2 req (fun req => M1 req terminal))
  /\ (forall req w,
        serve (WithRequestMiddleware M2 (WithRequestMiddleware M1 s)) req w
        = M2 req (fun req => M1 req terminal) w)
  /\ serve (register [M1; M2] s) = wrap [M1; M2] terminal.
Proof. repeat split. Qed.

End MiddlewareProperties.

Section MetricsProperties.
Import jsonrpc.
Context {S : Type}.

(** The count of reporter [r] after [f] changed the reporter at [r']. *)
Lemma countOf_update (r r' : positive) f (w : World S) :
  countOf r (update r' f w)
  = if decide (r' = r) then (fun x => count (f x)) <$> (reporters w) !! r
    else countOf r w.
Proof.
  unfold countOf, update; simpl. rewrite lookup_alter.
  case_decide; [subst r'|done]. by destruct (reporters w !! r).
Qed.

(** One call through the metrics middleware adds exactly one to the count of
    its reporter, on top of what the next handler did. *)
Lemma metrics_counts_one (r : positive) (next : requestHandler (World S))
    req w :
  countOf r (MetricsReporterMiddleware r req next w).2
  = Z.succ <$> countOf r (next req w).2.
Proof.
  unfold MetricsReporterMiddleware.
  destruct (next req w) as [[resp err] w1]; simpl.
  assert (Hone : countOf r
            (ReportRequestDuration r (Method req) (time_Now w1 - time_Now w)
               (ReportRequest r (Method req) w1)) = Z.succ <$> countOf r w1).
  { simpl. rewrite !countOf_update. rewrite !decide_True by done.
    unfold update; simpl. rewrite lookup_alter, decide_True by done.
    unfold countOf. destruct (reporters w1 !! r); simpl; [|done].
    f_equal. }
  destruct resp as [resp|]; [|done].
  destruct (RespError resp); [|done].
  simpl. rewrite countOf_update, decide_True by done.
  simpl in Hone. rewrite <- Hone. unfold countOf, update; simpl.
  rewrite !lookup_alter, !decide_True by done.
  by destruct (reporters w1 !! r).
Qed.

(** The method the reporter was last told of is the method of the request. *)
Lemma metrics_reports_method (r : positive)
    (next : requestHandler (World S)) req w :
  method <$> reporters (MetricsReporterMiddleware r req next w).2 !! r
  = (fun _ => Method req) <$> reporters (next req w).2 !! r.
Proof.
  unfold MetricsReporterMiddleware.
  destruct (next req w) as [[resp err] w1]; simpl.
  assert (Hone : method <$> reporters
            (ReportRequestDuration r (Method req) (time_Now w1 - time_Now w)
               (ReportRequest r (Method req) w1)) !! r
            = (fun _ => Method req) <$> reporters w1 !! r).
  { simpl. unfold update; simpl. rewrite !lookup_alter_eq.
    by destruct (reporters w1 !! r). }
  destruct resp as [resp|]; [|done].
  destruct (RespError resp); [|done].
  simpl in *. rewrite <- Hone. unfold update; simpl.
  rewrite !lookup_alter_eq. by destruct (reporters w1 !! r).
Qed.

(** C7 — The metrics middleware calls [ReportRequest] with the method of
    the request exactly once per call through it: the count of its reporter
    goes up by one over what the next handler left.  So one request on a
    server with two chained metrics middlewares that report to the same
    reporter, over a dispatcher that leaves the reporters alone, takes the
    count from [c] to [c + 2]: from 0 to exactly 2. *)
Theorem metrics_reports_once_per_call (r : positive)
    (terminal : requestHandler (World S)) (req : request) (w : World S) :
  (forall req w, reporters (terminal req w).2 = reporters w) ->
  (forall next,
     countOf r (MetricsReporterMiddleware r req next w).2
     = Z.succ <$> countOf r (next req w).2
     /\ method <$> reporters (MetricsReporterMiddleware r req next w).2 !! r
        = (fun _ => Method req) <$> reporters (next req w).2 !! r)
  /\ (let s := {| handler := None; handleRequest := terminal |} in
      let m := MetricsReporterMiddleware r in
      countOf r
        (serve (WithRequestMiddleware m (WithRequestMiddleware m s)) req w).2
      = (fun c => c + 2) <$> countOf r w).
Proof.
  intros Hframe. split.
  { intros next. split;
      [apply metrics_counts_one|apply metrics_reports_method]. }
  simpl. unfold serve; rewrite !current_WithRequestMiddleware.
  rewrite !metrics_counts_one. unfold current; simpl.
  unfold countOf at 1. rewrite Hframe. unfold countOf.
  destruct (reporters w !! r); simpl; [|done]. f_equal. lia.
Qed.

End MetricsProperties.

(** The chained case of server_middleware_test.go: the answer is 19 and the
    reporter has counted 2. *)
Lemma metrics_reports_once_per_call_witness :
  let m := jsonrpc.MetricsReporterMiddleware 1%positive in
  let s := jsonrpc.WithRequestMiddleware m (jsonrpc.WithRequestMiddleware m
             {| jsonrpc.handler := None;
                jsonrpc.handleRequest := jsonrpc.subtract 42 23 |}) in
  jsonrpc.countOf 1
    (jsonrpc.serve s fixtures.subtractRequest fixtures.testWorld).2
    = Some 2
  /\ (jsonrpc.Result
        <$> (jsonrpc.serve s fixtures.subtractRequest
               fixtures.testWorld).1.1)
    = Some (Some "19"%string).
Proof.
  split; [|vm_compute; reflexivity].
  exact (proj2 (metrics_reports_once_per_call 1%positive
                  (jsonrpc.subtract 42 23)
                  fixtures.subtractRequest fixtures.testWorld
                  (fun _ _ => eq_refl))).
Defined.

(* ===================================================================== *)
(** * Properties of the HTTP adapter                                       *)
(* ===================================================================== *)

Section HTTPProperties.
Import jsonrpc.
Context {S : Type}.

(** The body limit is 10 MiB. *)
Lemma MaxRequestBodySize_value : MaxRequestBodySize = 10485760.
Proof. reflexivity. Qed.

(** A capped reader never yields more than its cap, and a body within the
    cap passes as it is. *)
Lemma MaxBytesReader_capped (r : Reader) (n : Z) :
  0 <= n ->
  Z.of_nat (length (bytes (MaxBytesReader r n))) <= n
  /\ (Z.of_nat (length (bytes r)) <= n -> MaxBytesReader r n = r)
  /\ (n < Z.of_nat (length (bytes r)) ->
      bytes (MaxBytesReader r n) = take (Z.to_nat n) (bytes r)
      /\ is_Some (failure (MaxBytesReader r n))).
Proof.
  intros Hn. unfold MaxBytesReader.
  destruct (Z.leb_spec (Z.of_nat (length (bytes r))) n) as [Hle|Hgt]; simpl.
  - split_and!; [lia|done|lia].
  - split_and!; [rewrite length_take; lia|lia|].
    intros _. split; [done|by eexists].
Qed.

Lemma statusSent_WriteHeader code (w : ResponseWriter) :
  status w = None -> statusSent (WriteHeader code w) = code.
Proof. intros Hw. unfold statusSent, WriteHeader. by rewrite Hw. Qed.

(** C9 — On a response writer nothing was written to yet: a GET of path
    [/] is answered 200 and a GET of any other path 404, both without the
    server core being called or the body being read; a method other than
    GET and POST is answered 405; a POST hands the body, capped at 10 MiB
    ([MaxRequestBodySize]), to the server core, and when the core returns
    an error the status is 500 while the response bytes, if there are any,
    are still written. *)
Theorem http_surface
    (HandleReader :
       Reader -> S -> (option (list Byte.byte) * option goerror) * S)
    (h : HTTP S) (writer : ResponseWriter) (req : Request) :
  status writer = None ->
  let served := ServeHTTP HandleReader h writer req in
  (HTTPMethod req = "GET"%string -> URLPath req = "/"%string ->
     served = (h, WriteHeader StatusOK writer) /\ statusSent served.2 = 200)
  /\ (HTTPMethod req = "GET"%string -> URLPath req <> "/"%string ->
     served = (h, WriteHeader StatusNotFound writer)
     /\ statusSent served.2 = 404)
  /\ (HTTPMethod req <> "GET"%string -> HTTPMethod req <> "POST"%string ->
     served = (h, WriteHeader StatusMethodNotAllowed writer)
     /\ statusSent served.2 = 405)
  /\ (HTTPMethod req = "POST"%string ->
     let reqBody := MaxBytesReader (Body req) MaxRequestBodySize in
     let handled := HandleReader reqBody (rpc h) in
     Z.of_nat (length (bytes reqBody)) <= 10 * 1024 * 1024
     /\ rpc served.1 = handled.2
     /\ (is_Some handled.1.2 -> statusSent served.2 = 500)
     /\ (handled.1.2 = None -> statusSent served.2 = 200)
     /\ (open writer = true ->
         body served.2 = body writer ++ default [] handled.1.1)).
Proof.
  intros Hfresh served. subst served. unfold ServeHTTP.
  split_and!.
  - intros -> ->. split; [done|]. by apply statusSent_WriteHeader.
  - intros -> Hpath%String.eqb_neq. simpl. rewrite Hpath.
    split; [done|]. by apply statusSent_WriteHeader.
  - intros Hget%String.eqb_neq Hpost%String.eqb_neq. rewrite Hget, Hpost.
    split; [done|]. by apply statusSent_WriteHeader.
  - intros Hpost. cbv zeta. split_and!.
  + apply MaxBytesReader_capped. done.
  + rewrite Hpost. simpl.
    destruct (HandleReader _ _) as [[resp err] rpc']; simpl.
    destruct resp as [resp|]; [|done].
    destruct (Write resp _) as [e wr]; done.
  + intros [e He]. rewrite Hpost. simpl.
    destruct (HandleReader _ _) as [[resp err] rpc']; simpl in *. subst err.
    destruct resp as [resp|]; simpl.
    * unfold Write, WriteHeader, HeaderSet, statusSent. simpl.
      rewrite Hfresh. simpl. by destruct (open writer).
    * unfold WriteHeader, HeaderSet, statusSent. simpl. by rewrite Hfresh.
  + intros He. rewrite Hpost. simpl.
    destruct (HandleReader _ _) as [[resp err] rpc']; simpl in *. subst err.
    destruct resp as [resp|]; simpl.
    * unfold Write, WriteHeader, HeaderSet, statusSent. simpl.
      rewrite Hfresh. simpl. by destruct (open writer).
    * unfold HeaderSet, statusSent. simpl. by rewrite Hfresh.
  + intros Hopen. rewrite Hpost. simpl.
    destruct (HandleReader _ _) as [[resp err] rpc']; simpl in *.
    destruct resp as [resp|]; simpl.
    * destruct err; unfold Write, WriteHeader, HeaderSet; simpl;
        rewrite Hfresh; simpl; by rewrite Hopen.
    * destruct err; unfold WriteHeader, HeaderSet; simpl;
        rewrite ?Hfresh; simpl; by rewrite app_nil_r.
Qed.

End HTTPProperties.

(** A POST is handed to the core and answered 200 with the bytes of the
    core; when the core fails the answer is 500, the bytes still written. *)
Lemma http_surface_witness :
  (let served := jsonrpc.ServeHTTP fixtures.echo fixtures.adapter
                   fixtures.emptyWriter fixtures.postRequest in
   jsonrpc.statusSent served.2 = 200
   /\ jsonrpc.body served.2 = [Byte.x7b; Byte.x7d])
  /\ (let served := jsonrpc.ServeHTTP fixtures.echo fixtures.adapter
                      fixtures.emptyWriter fixtures.brokenPost in
      jsonrpc.statusSent served.2 = 500
      /\ jsonrpc.body served.2 = [Byte.x7b]).
Proof.
  split.
  - destruct (http_surface fixtures.echo fixtures.adapter fixtures.emptyWriter
                fixtures.postRequest eq_refl) as (_ & _ & _ & Hpost).
    destruct (Hpost eq_refl) as (_ & _ & _ & Hok & Hbody).
    split; [exact (Hok eq_refl)|exact (Hbody eq_refl)].
  - destruct (http_surface fixtures.echo fixtures.adapter fixtures.emptyWriter
                fixtures.brokenPost eq_refl) as (_ & _ & _ & Hpost).
    destruct (Hpost eq_refl) as (_ & _ & Herr & _ & Hbody).
    split; [apply Herr; by eexists|exact (Hbody eq_refl)].
Defined.

(* ===================================================================== *)
(** * Properties of the subscription block id                              *)
(* ===================================================================== *)

Section BlockIDProperties.
Import rpcv8.

(** A name is found in the map of an object exactly when the object has a
    member of that name. *)
Lemma lookup_members (members : list (string * JSON)) (name : string)
    (m : gmap string JSON) :
  is_Some (fold_left (fun m kv => <[kv.1 := kv.2]> m) members m !! name)
  <-> name ∈ members.*1 \/ is_Some (m !! name).
Proof.
  revert m. induction members as [|[k v] members IH]; intros m; simpl.
  - rewrite elem_of_nil. tauto.
  - rewrite IH, lookup_insert_is_Some, elem_of_cons.
    destruct (decide (k = name)); intuition congruence.
Qed.

Lemma unmarshalObject_lookup (decode : string -> option JSON)
    (data name : string) (jsonObject : gmap string JSON) :
  unmarshalObject decode data = inr jsonObject ->
  is_Some (jsonObject !! name) ->
  exists members,
    decode data = Some (JObject members)
    /\ hasMember name (JObject members) = true.
Proof.
  unfold unmarshalObject. intros Hobj Hsome.
  destruct (decode data) as [[| | | | |members]|]; simplify_eq.
  - rewrite lookup_empty in Hsome. by destruct Hsome.
  - exists members. split; [done|]. simpl. apply bool_decide_eq_true.
    apply lookup_members in Hsome as [?|Hsome]; [done|].
    rewrite lookup_empty in Hsome. by destruct Hsome.
Qed.

Lemma unmarshalObject_no_member (decode : string -> option JSON)
    (data name : string) (v : JSON) (jsonObject : gmap string JSON) :
  decode data = Some v ->
  hasMember name v = false ->
  unmarshalObject decode data = inr jsonObject ->
  jsonObject !! name = None.
Proof.
  unfold unmarshalObject. intros -> Hno Hobj.
  destruct v as [| | | | |members]; simplify_eq; [done|].
  apply eq_None_not_Some. intros [Hin|Hsome]%lookup_members.
  - simpl in Hno. by apply bool_decide_eq_false in Hno.
  - rewrite lookup_empty in Hsome. by destruct Hsome.
Qed.

(** C10 — [IsPending] is false for every subscription block id.
    [UnmarshalJSON] succeeds only on the exact text of the string [latest]
    or on a JSON object with a member [block_hash] or [block_number]; on
    any other JSON text it returns an error, which for an object with
    neither member is [cannot unmarshal block id]; so no text from the wire
    makes a block id that is pending. *)
Theorem subscription_block_id_never_pending
    (decode : string -> option JSON)
    (unmarshalFelt : JSON -> Felt -> option jsonrpc.goerror * Felt)
    (unmarshalUint64 : JSON -> Z -> option jsonrpc.goerror * Z) :
  (forall b : SubscriptionBlockID, IsPending b = false)
  /\ (forall data b,
        (UnmarshalJSON decode unmarshalFelt unmarshalUint64 data b).1 = None ->
        data = latest_text
        \/ exists members,
             decode data = Some (JObject members)
             /\ (hasMember "block_hash" (JObject members) = true
                 \/ hasMember "block_number" (JObject members) = true))
  /\ (forall data b v,
        decode data = Some v ->
        data <> latest_text ->
        hasMember "block_hash" v = false ->
        hasMember "block_number" v = false ->
        exists err,
          (UnmarshalJSON decode unmarshalFelt unmarshalUint64 data b).1
          = Some err
          /\ (forall members, v = JObject members ->
                err = "cannot unmarshal block id"%string))
  /\ (forall data b,
        IsPending (UnmarshalJSON decode unmarshalFelt unmarshalUint64 data b).2
        = false).
Proof.
  split_and!; [done| | |done].
  - intros data b. unfold UnmarshalJSON.
    destruct (String.eqb_spec data latest_text) as [->|Hne]; [by left|].
    intros Hok. right.
    destruct (unmarshalObject decode data) as [err|jsonObject] eqn:Hobj;
      [done|].
    destruct (jsonObject !! "block_hash"%string) as [hash|] eqn:Hhash.
    { destruct (unmarshalObject_lookup decode data "block_hash" jsonObject Hobj)
        as (members & Hdec & Hmem); [by eexists|].
      exists members. auto. }
    destruct (jsonObject !! "block_number"%string) as [number|] eqn:Hnumber;
      [|done].
    destruct (unmarshalObject_lookup decode data "block_number" jsonObject Hobj)
      as (members & Hdec & Hmem); [by eexists|].
    exists members. auto.
  - intros data b v Hdec Hne Hhash Hnumber. unfold UnmarshalJSON.
    apply String.eqb_neq in Hne. rewrite Hne.
    destruct (unmarshalObject decode data) as [err|jsonObject] eqn:Hobj.
    + exists err. split; [done|]. intros members ->.
      unfold unmarshalObject in Hobj. by rewrite Hdec in Hobj.
    + rewrite (unmarshalObject_no_member decode data _ v jsonObject
                 Hdec Hhash Hobj).
      rewrite (unmarshalObject_no_member decode data _ v jsonObject
                 Hdec Hnumber Hobj).
      by eexists.
Qed.

End BlockIDProperties.

(** A block number is read; an empty object is refused. *)
Lemma subscription_block_id_never_pending_witness :
  let unmarshal :=
    rpcv8.UnmarshalJSON subscriptions_fixtures.reader
      subscriptions_fixtures.readFelt subscriptions_fixtures.readUint64 in
  unmarshal subscriptions_fixtures.numberText subscriptions_fixtures.blankID
    = (None, {| rpcv8.Latest := false; rpcv8.Hash := None; rpcv8.Number := 7 |})
  /\ (subscriptions_fixtures.numberText = rpcv8.latest_text
      \/ exists members,
           subscriptions_fixtures.reader subscriptions_fixtures.numberText
             = Some (rpcv8.JObject members)
           /\ (rpcv8.hasMember "block_hash" (rpcv8.JObject members) = true
               \/ rpcv8.hasMember "block_number" (rpcv8.JObject members)
                  = true))
  /\ (exists err,
        (unmarshal subscriptions_fixtures.emptyObjectText
           subscriptions_fixtures.blankID).1 = Some err
        /\ (forall members, rpcv8.JObject [] = rpcv8.JObject members ->
              err = "cannot unmarshal block id"%string)).
Proof.
  destruct (subscription_block_id_never_pending subscriptions_fixtures.reader
              subscriptions_fixtures.readFelt subscriptions_fixtures.readUint64)
    as (_ & Honly & Hother & _).
  split_and!.
  - reflexivity.
  - exact (Honly subscriptions_fixtures.numberText
             subscriptions_fixtures.blankID eq_refl).
  - apply (Hother subscriptions_fixtures.emptyObjectText
             subscriptions_fixtures.blankID (rpcv8.JObject []));
      [reflexivity|intros H; vm_compute in H; discriminate H
      |reflexivity|reflexivity].
Defined.

(* ===================================================================== *)
(** * Properties of the subscribe handlers                                 *)
(* ===================================================================== *)

Section SubscribeProperties.
Import rpcv8.
Variable Conn : Type.
Variable deps : Deps Conn.
Implicit Types (h : Handler Conn) (ctx : RequestContext Conn) (w : Conn).

(** The sum of the key check is the number of inner lists plus the number of
    their entries. *)
Lemma lenKeys_sum (keys : list (list Felt)) :
  lenKeys keys = Z.of_nat (length keys) + keyEntries keys.
Proof.
  unfold lenKeys, keyEntries.
  generalize (Z.of_nat (length keys)) as n.
  induction keys as [|k keys IH]; intros n; simpl; [lia|].
  rewrite IH, length_app. lia.
Qed.

(** What a subscribe handler answers once its checks are through: the error
    of the block range, or no error. *)
Lemma newHeads_error h ctx w blockID :
  ConnFromContext ctx = Some w ->
  (SubscribeNewHeads deps h ctx blockID).1.2
  = match resolveBlockRange deps h blockID with
    | inl e => Some e
    | inr _ => None
    end.
Proof.
  intros Hw. unfold SubscribeNewHeads. rewrite Hw.
  by destruct (resolveBlockRange deps h blockID) as [e|[start latest]].
Qed.

Lemma events_error h ctx w fromAddr keys blockID :
  ConnFromContext ctx = Some w ->
  lenKeys keys <= MaxEventFilterKeys deps ->
  (SubscribeEvents deps h ctx fromAddr keys blockID).1.2
  = match resolveBlockRange deps h blockID with
    | inl e => Some e
    | inr _ => None
    end.
Proof.
  intros Hw Hkeys. unfold SubscribeEvents. rewrite Hw.
  destruct (Z.ltb_spec (MaxEventFilterKeys deps) (lenKeys keys)) as [?|_];
    [lia|].
  by destruct (resolveBlockRange deps h blockID) as [e|[start latest]].
Qed.

(** A handler that answers an error has changed nothing. *)
Lemma newHeads_rejected h ctx blockID e :
  (SubscribeNewHeads deps h ctx blockID).1.2 = Some e ->
  (SubscribeNewHeads deps h ctx blockID).2 = h.
Proof.
  unfold SubscribeNewHeads. destruct (ConnFromContext ctx); [|done].
  by destruct (resolveBlockRange deps h blockID) as [?|[start latest]].
Qed.

Lemma events_rejected h ctx fromAddr keys blockID e :
  (SubscribeEvents deps h ctx fromAddr keys blockID).1.2 = Some e ->
  (SubscribeEvents deps h ctx fromAddr keys blockID).2 = h.
Proof.
  unfold SubscribeEvents. destruct (ConnFromContext ctx); [|done].
  destruct (_ <? _); [done|].
  by destruct (resolveBlockRange deps h blockID) as [?|[start latest]].
Qed.

(** C1, as the code has it — For a call of [SubscribeEvents] on a
    connection, over a block lookup that does not answer with the
    too-many-keys error: the call returns the too-many-keys error if and
    only if the number of inner key lists plus the sum of the key-filter
    entries across them exceeds [MaxEventFilterKeys deps], and then nothing is
    changed; otherwise the key validation passes and the call goes on to
    the block range, whose error, if any, it returns. *)
Theorem subscribe_events_key_limit h ctx w fromAddr keys blockID :
  ConnFromContext ctx = Some w ->
  (forall e, resolveBlockRange deps h blockID = inl e ->
     e <> ErrTooManyKeysInFilter) ->
  let counted := Z.of_nat (length keys) + keyEntries keys in
  ((SubscribeEvents deps h ctx fromAddr keys blockID).1.2
   = Some ErrTooManyKeysInFilter
   <-> MaxEventFilterKeys deps < counted)
  /\ (MaxEventFilterKeys deps < counted ->
      SubscribeEvents deps h ctx fromAddr keys blockID
      = ((0, Some ErrTooManyKeysInFilter), h))
  /\ (counted <= MaxEventFilterKeys deps ->
      (SubscribeEvents deps h ctx fromAddr keys blockID).1.2
      = match resolveBlockRange deps h blockID with
        | inl e => Some e
        | inr _ => None
        end).
Proof.
  intros Hw Hresolve counted. subst counted. rewrite <- lenKeys_sum.
  assert (Hover : MaxEventFilterKeys deps < lenKeys keys ->
            SubscribeEvents deps h ctx fromAddr keys blockID
            = ((0, Some ErrTooManyKeysInFilter), h)).
  { intros Hlt. unfold SubscribeEvents. rewrite Hw.
    by destruct (Z.ltb_spec (MaxEventFilterKeys deps) (lenKeys keys)); [|lia]. }
  split_and!; [split| |].
  - intros Herr.
    destruct (Z.lt_ge_cases (MaxEventFilterKeys deps) (lenKeys keys))
      as [|Hle]; [done|].
    rewrite (events_error _ _ w) in Herr by done.
    destruct (resolveBlockRange deps h blockID) as [e|] eqn:He; [|done].
    by destruct (Hresolve e eq_refl); simplify_eq.
  - intros Hlt. by rewrite Hover.
  - done.
  - intros Hle. by apply (events_error _ _ w).
Qed.

(** The check of the block range, in numbers: with the head at [H] and the
    start at [S], the range is refused exactly when
    [S + MaxBlocksBack <= H]. *)
Lemma blocks_back_check (H S : Z) :
  0 <= H < 2 ^ 64 -> 0 <= S -> 0 <= MaxBlocksBack deps ->
  (MaxBlocksBack deps <=? H)
  && (S <=? (H - MaxBlocksBack deps) mod 2 ^ 64) = true
  <-> S + MaxBlocksBack deps <= H.
Proof.
  intros HH HS HM. rewrite andb_true_iff, Z.leb_le, Z.leb_le. split.
  - intros [Hge Hle]. rewrite Z.mod_small in Hle by lia. lia.
  - intros Hle. rewrite Z.mod_small by lia. lia.
Qed.

(** With the head at [latest] and the start at [start], the block range is
    refused exactly when the start is [MaxBlocksBack deps] blocks or more behind
    the head. *)
Lemma resolveBlockRange_spec h blockID latest start :
  HeadsHeader (bcReader h) = inr latest ->
  startOf deps h blockID latest = inr start ->
  0 <= core.Number latest < 2 ^ 64 -> 0 <= core.Number start ->
  0 < MaxBlocksBack deps ->
  resolveBlockRange deps h blockID
  = if bool_decide
         (core.Number start + MaxBlocksBack deps <= core.Number latest)
    then inl ErrTooManyBlocksBack else inr (start, latest).
Proof.
  intros Hhead Hstart HH HS HM.
  unfold resolveBlockRange, startOf in *. rewrite Hhead.
  assert (Hself : inr (latest, latest)
            = (if bool_decide (core.Number latest + MaxBlocksBack deps
                               <= core.Number latest)
               then inl ErrTooManyBlocksBack
               else inr (latest, latest) : Error + core.Header * core.Header)).
  { by rewrite bool_decide_eq_false_2 by lia. }
  destruct blockID as [id|]; [|by simplify_eq].
  destruct (IsLatest id); [by simplify_eq|].
  rewrite Hstart.
  pose proof (blocks_back_check (core.Number latest) (core.Number start)
                HH HS ltac:(lia)) as Hcheck.
  destruct (_ && _).
  - by rewrite bool_decide_eq_true_2 by (by apply Hcheck).
  - rewrite bool_decide_eq_false_2; [done|].
    intros Hle. apply Hcheck in Hle. done.
Qed.

(** C2, as the code has it — For a subscribe call that resolves a block
    range (new heads, events within the key limit) on a connection, with
    the chain head at number [H] and the requested starting block resolved
    to number [S]: the call is refused with [too many blocks back] if and
    only if [S] is [MaxBlocksBack deps] blocks or more behind the head, that is
    [S <= H - MaxBlocksBack] (in numbers, [S + MaxBlocksBack <= H]); and on
    refusal no id is drawn and no subscription is made: the handler is as
    it was. *)
Theorem too_many_blocks_back h ctx w blockID fromAddr keys latest start :
  ConnFromContext ctx = Some w ->
  HeadsHeader (bcReader h) = inr latest ->
  startOf deps h blockID latest = inr start ->
  0 <= core.Number latest < 2 ^ 64 -> 0 <= core.Number start ->
  0 < MaxBlocksBack deps ->
  let refused := core.Number start + MaxBlocksBack deps <= core.Number latest in
  ((SubscribeNewHeads deps h ctx blockID).1.2 = Some ErrTooManyBlocksBack
   <-> refused)
  /\ (refused ->
      SubscribeNewHeads deps h ctx blockID
      = ((0, Some ErrTooManyBlocksBack), h))
  /\ (lenKeys keys <= MaxEventFilterKeys deps ->
      ((SubscribeEvents deps h ctx fromAddr keys blockID).1.2
       = Some ErrTooManyBlocksBack <-> refused)
      /\ (refused ->
          SubscribeEvents deps h ctx fromAddr keys blockID
          = ((0, Some ErrTooManyBlocksBack), h))).
Proof.
  intros Hw Hhead Hstart HH HS HM refused. subst refused.
  pose proof (resolveBlockRange_spec h blockID latest start
                Hhead Hstart HH HS HM) as Hres.
  assert (Hheads : (SubscribeNewHeads deps h ctx blockID).1.2
            = Some ErrTooManyBlocksBack
            <-> core.Number start + MaxBlocksBack deps <= core.Number latest).
  { rewrite (newHeads_error _ _ w) by done. rewrite Hres.
    case_bool_decide; split; (done || lia). }
  split_and!; [done| |].
  - intros Hle. apply Hheads in Hle.
    pose proof (newHeads_rejected _ _ _ _ Hle) as Hsame.
    destruct (SubscribeNewHeads deps h ctx blockID) as [[id e] h'] eqn:Hcall.
    simpl in *. subst. f_equal. f_equal.
    unfold SubscribeNewHeads in Hcall. rewrite Hw, Hres in Hcall.
    destruct (bool_decide _); by simplify_eq.
  - intros Hkeys.
    assert (Hevents : (SubscribeEvents deps h ctx fromAddr keys blockID).1.2
              = Some ErrTooManyBlocksBack
              <-> core.Number start + MaxBlocksBack deps <= core.Number latest).
    { rewrite (events_error _ _ w) by done. rewrite Hres.
      case_bool_decide; split; (done || lia). }
    split; [done|]. intros Hle. apply Hevents in Hle.
    pose proof (events_rejected _ _ _ _ _ _ Hle) as Hsame.
    destruct (SubscribeEvents deps h ctx fromAddr keys blockID)
      as [[id e] h'] eqn:Hcall.
    simpl in *. subst. f_equal. f_equal.
    unfold SubscribeEvents in Hcall. rewrite Hw, Hres in Hcall.
    destruct (_ <? _); [by simplify_eq|].
    destruct (bool_decide _); by simplify_eq.
Qed.

(** The handler after [n] more askings of a transaction's status. *)
Lemma txNotFoundLoop_never ticks h txHash :
  (forall i, (asked h <= i < asked h + ticks)%nat ->
     transactionStatus deps i txHash = inl ErrTxnHashNotFound) ->
  txNotFoundLoop deps ticks h txHash ErrTxnHashNotFound
  = (inl ErrTxnHashNotFound,
     {| bcReader := bcReader h; subscriptions := subscriptions h;
        heap := heap h; drawn := drawn h;
        asked := (asked h + ticks)%nat; tasks := tasks h |}).
Proof.
  revert h. induction ticks as [|ticks IH]; intros h Hnever; simpl.
  - destruct h; simpl. do 2 f_equal. lia.
  - rewrite Hnever by lia. simpl.
    rewrite IH; simpl; [do 2 f_equal; lia|].
    intros i Hi. apply Hnever. lia.
Qed.

(** C6 — For a transaction hash whose status lookup answers [transaction
    hash not found] every time during the wait (the first lookup and the one
    at each tick of the ticker before the timeout is taken),
    [SubscribeTransactionStatus] on a connection asks once per tick and then
    returns the [not found] error from the call itself; no id was drawn and
    nothing was stored in the registry: only the count of lookups differs. *)
Theorem tx_status_not_found h ctx w txHash ticks :
  ConnFromContext ctx = Some w ->
  (forall i, (asked h <= i <= asked h + ticks)%nat ->
     transactionStatus deps i txHash = inl ErrTxnHashNotFound) ->
  SubscribeTransactionStatus deps h ctx txHash ticks
  = ((0, Some ErrTxnHashNotFound),
     {| bcReader := bcReader h; subscriptions := subscriptions h;
        heap := heap h; drawn := drawn h;
        asked := S (asked h + ticks); tasks := tasks h |}).
Proof.
  intros Hw Hnever. unfold SubscribeTransactionStatus. rewrite Hw.
  simpl. rewrite Hnever by lia. simpl.
  rewrite txNotFoundLoop_never; simpl; [done|].
  intros i Hi. apply Hnever. lia.
Qed.

End SubscribeProperties.

(** Two inner lists with three keys between them are within a limit of
    1024: the key validation passes and the subscription is made. *)
Lemma subscribe_events_key_limit_witness :
  let call :=
    rpcv8.SubscribeEvents subscriptions_fixtures.deps1024
      subscriptions_fixtures.handler0 subscriptions_fixtures.onConn1 None
      [[1; 2]; [3]] None in
  (call.1.2 = Some rpcv8.ErrTooManyKeysInFilter
   <-> 1024 < 2 + rpcv8.keyEntries [[1; 2]; [3]])
  /\ call.1 = (1, None).
Proof.
  split; [|reflexivity].
  apply (subscribe_events_key_limit positive subscriptions_fixtures.deps1024
           subscriptions_fixtures.handler0 subscriptions_fixtures.onConn1
           1%positive None [[1; 2]; [3]] None); [reflexivity|].
  intros e He. vm_compute in He. discriminate He.
Defined.

(** One inner list of 1024 keys, with the limit at 1024: the sum of the
    entries is 1024, which does not exceed the limit, and yet the call
    returns the too-many-keys error, since the inner list itself is counted
    as well. *)
Lemma subscribe_events_key_limit_counterexample :
  rpcv8.MaxEventFilterKeys subscriptions_fixtures.deps1024 = 1024
  /\ ~ ((rpcv8.SubscribeEvents subscriptions_fixtures.deps1024
           subscriptions_fixtures.handler0 subscriptions_fixtures.onConn1
           None subscriptions_fixtures.keys1024 None).1.2
        = Some rpcv8.ErrTooManyKeysInFilter
        <-> rpcv8.MaxEventFilterKeys subscriptions_fixtures.deps1024
            < rpcv8.keyEntries subscriptions_fixtures.keys1024).
Proof.
  split; [reflexivity|]. intros [Hto _].
  assert (Hlt : rpcv8.MaxEventFilterKeys subscriptions_fixtures.deps1024
                < rpcv8.keyEntries subscriptions_fixtures.keys1024).
  { apply Hto. vm_compute. reflexivity. }
  vm_compute in Hlt. discriminate Hlt.
Qed.

(** With the head at block 2048 and a limit of 1024, a subscription from
    block 1024 is refused and the handler stays as it was. *)
Lemma too_many_blocks_back_witness :
  rpcv8.SubscribeNewHeads subscriptions_fixtures.deps1024
    subscriptions_fixtures.handler0 subscriptions_fixtures.onConn1
    (Some subscriptions_fixtures.block1024)
  = ((0, Some rpcv8.ErrTooManyBlocksBack), subscriptions_fixtures.handler0).
Proof.
  set (latest := {| core.Number := 2048; core.Hash := Some 2048 |}).
  set (start := {| core.Number := 1024; core.Hash := Some 1024 |}).
  assert (Hhead : 0 <= core.Number latest < 2 ^ 64) by (simpl; lia).
  assert (Hstart : 0 <= core.Number start) by (simpl; lia).
  assert (Hback : 0 < rpcv8.MaxBlocksBack subscriptions_fixtures.deps1024)
    by (simpl; lia).
  destruct (too_many_blocks_back positive subscriptions_fixtures.deps1024
              subscriptions_fixtures.handler0
              subscriptions_fixtures.onConn1 1%positive
              (Some subscriptions_fixtures.block1024) None [] latest start
              eq_refl eq_refl eq_refl Hhead Hstart Hback)
    as (_ & Hrefused & _).
  apply Hrefused. simpl. lia.
Defined.

(** The head is at [H = 2048] and the start resolves to [S = 1024], with
    [MaxBlocksBack = 1024]: [S] is not older than [H - MaxBlocksBack], as
    [1024 < 1024] is false, and yet the call is refused. *)
Lemma too_many_blocks_back_counterexample :
  let H := 2048 in
  let S := 1024 in
  rpcv8.MaxBlocksBack subscriptions_fixtures.deps1024 = 1024
  /\ rpcv8.HeadsHeader (rpcv8.bcReader subscriptions_fixtures.handler0)
     = inr {| core.Number := H; core.Hash := Some 2048 |}
  /\ rpcv8.startOf subscriptions_fixtures.deps1024
       subscriptions_fixtures.handler0 (Some subscriptions_fixtures.block1024)
       {| core.Number := H; core.Hash := Some 2048 |}
     = inr {| core.Number := S; core.Hash := Some 1024 |}
  /\ ~ ((rpcv8.SubscribeNewHeads subscriptions_fixtures.deps1024
           subscriptions_fixtures.handler0 subscriptions_fixtures.onConn1
           (Some subscriptions_fixtures.block1024)).1.2
        = Some rpcv8.ErrTooManyBlocksBack
        <-> S < H - rpcv8.MaxBlocksBack subscriptions_fixtures.deps1024).
Proof.
  split_and!; [reflexivity|reflexivity|reflexivity|].
  intros [Hto _].
  assert (Hlt : 1024
                < 2048 - rpcv8.MaxBlocksBack subscriptions_fixtures.deps1024).
  { apply Hto. vm_compute. reflexivity. }
  vm_compute in Hlt. discriminate Hlt.
Qed.

(** A hash the feeder never produces, with three ticks before the timeout:
    four lookups, the [not found] error, and no subscription. *)
Lemma tx_status_not_found_witness :
  rpcv8.SubscribeTransactionStatus subscriptions_fixtures.deps1024
    subscriptions_fixtures.handler0 subscriptions_fixtures.onConn1 5 3
  = ((0, Some rpcv8.ErrTxnHashNotFound),
     {| rpcv8.bcReader := subscriptions_fixtures.chain2048;
        rpcv8.subscriptions := ∅; rpcv8.heap := ∅; rpcv8.drawn := 0;
        rpcv8.asked := 4; rpcv8.tasks := [] |}).
Proof.
  apply (tx_status_not_found positive subscriptions_fixtures.deps1024
           subscriptions_fixtures.handler0 subscriptions_fixtures.onConn1
           1%positive 5 3); [reflexivity|intros i _; reflexivity].
Defined.

(* ===================================================================== *)
(** * Properties of the events subscription                                *)
(* ===================================================================== *)

Section EventsProperties.
Import rpcv8.

Lemma firstOf_cons (k : SentEvent) event events :
  firstOf k (event :: events)
  = if decide (keyOf event = k) then Some event else firstOf k events.
Proof. unfold firstOf. rewrite filter_cons. by case_decide. Qed.

Lemma firstOf_app (k : SentEvent) events1 events2 :
  firstOf k (events1 ++ events2)
  = match firstOf k events1 with
    | Some event => Some event
    | None => firstOf k events2
    end.
Proof.
  unfold firstOf. rewrite filter_app.
  by destruct (filter _ events1).
Qed.

Lemma notificationsOf_snoc (k : SentEvent) (l : list SubscriptionResponse) r :
  notificationsOf k (l ++ [r])
  = if isFrom k r then notificationsOf k l ++ [r] else notificationsOf k l.
Proof.
  unfold notificationsOf. rewrite filter_app, filter_cons, filter_nil.
  destruct (isFrom k r); simpl; [done|]. by rewrite app_nil_r.
Qed.

Lemma isFrom_notificationOf (k : SentEvent) id event :
  isFrom k (notificationOf id event) = bool_decide (keyOf event = k).
Proof. reflexivity. Qed.

(** Nothing handled, nothing changed. *)
Lemma handled_same (k : SentEvent) id events sent (w w' : Wire) :
  notificationsOf k (written w') = notificationsOf k (written w) ->
  (k ∉ sent -> firstOf k events = None) ->
  handled k id events sent w sent w'.
Proof.
  intros Hsame Hnone. split; [done|].
  intros Hk. by rewrite Hnone.
Qed.

(** Handling one run of events and then another is handling both. *)
Lemma handled_app (k : SentEvent) id events1 events2 sent (w : Wire) sent1
    (w1 : Wire) sent2 (w2 : Wire) :
  handled k id events1 sent w sent1 w1 ->
  handled k id events2 sent1 w1 sent2 w2 ->
  handled k id (events1 ++ events2) sent w sent2 w2.
Proof.
  intros [Hin1 Hout1] [Hin2 Hout2]. split.
  - intros Hk. destruct (Hin1 Hk) as [Hk1 Hw1].
    destruct (Hin2 Hk1) as [Hk2 Hw2]. split; [done|congruence].
  - intros Hk. specialize (Hout1 Hk). rewrite firstOf_app.
    destruct (firstOf k events1) as [event|].
    + intros Hpending. destruct (Hout1 Hpending) as [Hk1 Hw1].
      destruct (Hin2 Hk1) as [Hk2 Hw2]. split; [done|congruence].
    + destruct Hout1 as [Hk1 Hw1]. specialize (Hout2 Hk1).
      destruct (firstOf k events2) as [event|].
      * intros Hpending. destruct (Hout2 Hpending) as [Hk2 Hw2].
        split; [done|congruence].
      * destruct Hout2 as [Hk2 Hw2]. split; [done|congruence].
Qed.

(** What [sendEvents] does with one event that is not in the map: the event
    is written, and put in the map when it is pending. *)
Lemma handled_one (k : SentEvent) (id : Z)
    (event : blockchain.FilteredEvent) (sent : gset SentEvent) (w : Wire) :
  keyOf event ∉ sent ->
  handled k id [event] sent w
    (match blockchain.BlockHash event with
     | None => {[keyOf event]} ∪ sent
     | Some _ => sent ∖ {[keyOf event]}
     end)
    {| written := written w ++ [notificationOf id event];
       writesLeft := None |}.
Proof.
  intros Hnew. split; simpl.
  - intros Hk. assert (keyOf event <> k) by congruence.
    rewrite notificationsOf_snoc, isFrom_notificationOf.
    rewrite bool_decide_eq_false_2 by done.
    split; [|done]. destruct (blockchain.BlockHash event); set_solver.
  - intros Hk. rewrite firstOf_cons. case_decide as Hkey.
    + intros ->. rewrite notificationsOf_snoc, isFrom_notificationOf.
      rewrite bool_decide_eq_true_2 by done. split; [set_solver|done].
    + rewrite notificationsOf_snoc, isFrom_notificationOf.
      rewrite bool_decide_eq_false_2 by done.
      split; [|done]. destruct (blockchain.BlockHash event).
      * rewrite elem_of_difference. tauto.
      * rewrite elem_of_union, elem_of_singleton. intros [?|?]; congruence.
Qed.

(** On a connection whose peer stays and under a context that is not
    cancelled, [sendEvents] with a map gets through all its events. *)
Lemma sendEvents_handled (k : SentEvent) id events sent (w : Wire) :
  writesLeft w = None ->
  exists sent' w',
    sendEvents None w events (Some sent) id = (None, (None, w', Some sent'))
    /\ writesLeft w' = None
    /\ handled k id events sent w sent' w'.
Proof.
  revert sent w. induction events as [|event events IH]; intros sent w Hw.
  - exists sent, w. split_and!; [done..|]. by apply handled_same.
  - simpl. case_bool_decide as Hin.
    + destruct (IH sent w Hw) as (sent' & w' & Hrun & Hw' & Hhandled).
      exists sent', w'. split_and!; [done..|].
      apply (handled_app k id [event] events sent w sent w); [|done].
      apply handled_same; [done|].
      intros Hk. rewrite firstOf_cons, decide_False; [done|].
      intros <-. done.
    + unfold sendResponse, Write. rewrite Hw.
      set (sent1 := match blockchain.BlockHash event with
                    | None => _ | Some _ => _ end).
      set (w1 := {| written := _; writesLeft := None |}).
      destruct (IH sent1 w1 eq_refl) as (sent' & w' & Hrun & Hw' & Hhandled).
      exists sent', w'. split_and!; [done..|].
      apply (handled_app k id [event] events sent w sent1 w1); [|done].
      by apply handled_one.
Qed.

(** The same for [sendEvents] without a map: every event is written. *)
Lemma sendEvents_nil_map (k : SentEvent) id events (w : Wire) :
  writesLeft w = None ->
  exists w',
    sendEvents None w events None id = (None, (None, w', None))
    /\ writesLeft w' = None
    /\ (firstOf k events = None ->
        notificationsOf k (written w') = notificationsOf k (written w)).
Proof.
  revert w. induction events as [|event events IH]; intros w Hw.
  - by exists w.
  - simpl. unfold sendResponse, Write. rewrite Hw.
    set (w1 := {| written := _; writesLeft := None |}).
    destruct (IH w1 eq_refl) as (w' & Hrun & Hw' & Hsame).
    exists w'. split_and!; [done..|].
    rewrite firstOf_cons. case_decide as Hkey; [done|].
    intros Hnone. rewrite (Hsame Hnone). unfold w1; simpl.
    rewrite notificationsOf_snoc.
    change (isFrom k _) with (bool_decide (keyOf event = k)).
    by rewrite bool_decide_eq_false_2.
Qed.

Lemma processPages_handled (k : SentEvent) id pages sent (w : Wire) :
  writesLeft w = None ->
  exists sent' w',
    processPages None w id pages (Some sent) = (None, w', Some sent')
    /\ writesLeft w' = None
    /\ handled k id (eventsOfPages pages) sent w sent' w'.
Proof.
  revert sent w. induction pages as [|events more IH|events]; intros sent w Hw.
  - exists sent, w. split_and!; [done..|]. by apply handled_same.
  - simpl.
    destruct (sendEvents_handled k id events sent w Hw)
      as (sent1 & w1 & -> & Hw1 & Hfirst).
    destruct (IH sent1 w1 Hw1) as (sent' & w' & Hrun & Hw' & Hmore).
    exists sent', w'. split_and!; [done..|]. by eapply handled_app.
  - simpl.
    destruct (sendEvents_handled k id events sent w Hw)
      as (sent' & w' & -> & Hw' & Hall).
    by exists sent', w'.
Qed.

Lemma processPages_nil_map (k : SentEvent) id pages (w : Wire) :
  writesLeft w = None ->
  exists w',
    processPages None w id pages None = (None, w', None)
    /\ writesLeft w' = None
    /\ (firstOf k (eventsOfPages pages) = None ->
        notificationsOf k (written w') = notificationsOf k (written w)).
Proof.
  revert w. induction pages as [|events more IH|events]; intros w Hw.
  - by exists w.
  - simpl.
    destruct (sendEvents_nil_map k id events w Hw) as (w1 & -> & Hw1 & Hfirst).
    destruct (IH w1 Hw1) as (w' & Hrun & Hw' & Hmore).
    exists w'. split_and!; [done..|].
    rewrite firstOf_app. destruct (firstOf k events); [done|].
    intros Hnone. by rewrite (Hmore Hnone), Hfirst.
  - simpl.
    destruct (sendEvents_nil_map k id events w Hw) as (w' & -> & Hw' & Hall).
    by exists w'.
Qed.

(** The loop of the subscription handles what it is given. *)
Lemma eventsLoop_handled (k : SentEvent) id received (w : Wire) nextBlock
    sent :
  writesLeft w = None ->
  exists w' nextBlock' sent',
    eventsLoop received None w id nextBlock sent = (w', nextBlock', sent')
    /\ handled k id (delivered received) sent w sent' w'.
Proof.
  revert w nextBlock sent.
  induction received as [|[reorg|head pages|pages] received IH];
    intros w nextBlock sent Hw; simpl.
  - exists w, nextBlock, sent. split; [done|]. by apply handled_same.
  - unfold sendReorg, sendResponse, Write. rewrite Hw.
    set (w1 := {| written := _; writesLeft := None |}).
    destruct (IH w1 (sync.StartBlockNum reorg) sent eq_refl)
      as (w' & nextBlock' & sent' & Hrun & Hhandled).
    exists w', nextBlock', sent'. split; [done|].
    apply (handled_app k id [] (delivered received) sent w sent w1); [|done].
    apply handled_same; [|done]. unfold w1; simpl.
    by rewrite notificationsOf_snoc.
  - destruct (processPages_handled k id pages sent w Hw)
      as (sent1 & w1 & -> & Hw1 & Hpages).
    destruct (IH w1 ((core.Number head + 1) mod 2 ^ 64) sent1 Hw1)
      as (w' & nextBlock' & sent' & Hrun & Hhandled).
    exists w', nextBlock', sent'. split; [done|]. by eapply handled_app.
  - destruct (processPages_handled k id pages sent w Hw)
      as (sent1 & w1 & -> & Hw1 & Hpages).
    destruct (IH w1 nextBlock sent1 Hw1)
      as (w' & nextBlock' & sent' & Hrun & Hhandled).
    exists w', nextBlock', sent'. split; [done|]. by eapply handled_app.
Qed.

(** C5 — For an event [k] that an events subscription first gets from a
    pending block (nil block hash) and gets again later, from a confirmed
    block (non-nil block hash) or otherwise, exactly one notification built
    from it is written for the subscription: the one for the pending block.
    [sendEvents] skips an event whose pair of transaction hash and event
    index is in the map, records the pair when the block hash is nil, and
    removes the pair when a non-nil block hash comes for a pair that is not
    in the map.  The connection's peer stays, the context is not cancelled,
    and the event is not in the range up to the head that is sent first. *)
Theorem sent_event_idempotence (k : SentEvent) (id : Z)
    (event : blockchain.FilteredEvent) (w : Wire) (headNumber : Z)
    (first : Pages) (received : list Received) :
  writesLeft w = None ->
  firstOf k (eventsOfPages first) = None ->
  firstOf k (delivered received) = Some event ->
  blockchain.BlockHash event = None ->
  (forall sent w0 e, writesLeft w0 = None -> keyOf e = k ->
     let w1 := {| written := written w0 ++ [notificationOf id e];
                  writesLeft := None |} in
     (k ∈ sent ->
      sendEvents None w0 [e] (Some sent) id = (None, (None, w0, Some sent)))
     /\ (k ∉ sent -> blockchain.BlockHash e = None ->
         sendEvents None w0 [e] (Some sent) id
         = (None, (None, w1, Some ({[k]} ∪ sent))))
     /\ (k ∉ sent -> is_Some (blockchain.BlockHash e) ->
         sendEvents None w0 [e] (Some sent) id
         = (None, (None, w1, Some (sent ∖ {[k]})))))
  /\ notificationsOf k
       (written (eventsTask None w id headNumber first received).1.1)
     = notificationsOf k (written w) ++ [notificationOf id event]
  /\ k ∈ (eventsTask None w id headNumber first received).2.
Proof.
  intros Hw Hfirst Hdelivered Hpending. split.
  - intros sent w0 e Hw0 <- w1. simpl. unfold sendResponse, Write.
    rewrite Hw0. split_and!.
    + intros Hk. by rewrite bool_decide_eq_true_2.
    + intros Hk ->. by rewrite bool_decide_eq_false_2.
    + intros Hk [hash ->]. by rewrite bool_decide_eq_false_2.
  - unfold eventsTask.
    destruct (processPages_nil_map k id first w Hw) as (w1 & -> & Hw1 & Hsame).
    destruct (eventsLoop_handled k id received w1
                ((headNumber + 1) mod 2 ^ 64) ∅ Hw1)
      as (w' & nextBlock' & sent' & -> & _ & Hout).
    simpl. specialize (Hout ltac:(set_solver)).
    rewrite Hdelivered in Hout. destruct (Hout Hpending) as [Hk Hone].
    split; [|done]. by rewrite Hone, (Hsame Hfirst).
Qed.

End EventsProperties.

(** The event comes with the pending block, twice, and then with block 11:
    one notification is written for it, the one without a block hash. *)
Lemma sent_event_idempotence_witness :
  let written :=
    rpcv8.written
      (rpcv8.eventsTask None subscriptions_fixtures.freshWire 1 10
         (rpcv8.LastPage []) subscriptions_fixtures.pendingThenConfirmed).1.1 in
  rpcv8.notificationsOf (7, 0) written
    = [rpcv8.notificationOf 1 subscriptions_fixtures.pendingEvent]
  /\ length written = 1%nat.
Proof.
  split; [|reflexivity].
  exact (proj1 (proj2 (sent_event_idempotence (7, 0) 1
                         subscriptions_fixtures.pendingEvent
                         subscriptions_fixtures.freshWire 10
                         (rpcv8.LastPage [])
                         subscriptions_fixtures.pendingThenConfirmed
                         eq_refl eq_refl eq_refl eq_refl))).
Defined.

(* ===================================================================== *)
(** * Properties of Unsubscribe                                            *)
(* ===================================================================== *)

Section EngineProperties.
Import rpcv8.
Variable Conn : Type.
Variable deps : Deps Conn.
Implicit Types (h : Handler Conn) (t : task Conn).
Implicit Types (ctx : RequestContext Conn) (l : positive) (i : Z).

(** ** The books are kept *)

Lemma consistent_newHandler chain :
  consistent deps (newHandler chain : Handler Conn).
Proof.
  split; simpl; try (intros ???; by rewrite ?lookup_empty);
    intros ? Hin; by apply elem_of_nil in Hin.
Qed.

Lemma tasksOf_snoc l (ts : list (task Conn)) t :
  filter (fun t => sub t = l) (ts ++ [t])
  = filter (fun t => sub t = l) ts ++ (if decide (sub t = l) then [t] else []).
Proof. rewrite filter_app, filter_cons, filter_nil. by case_decide. Qed.

(** Taking the task at [n] away takes one from the tasks of its object and
    none from the tasks of another. *)
Lemma tasksOf_delete l (ts : list (task Conn)) n t :
  ts !! n = Some t ->
  length (filter (fun t => sub t = l) (delete n ts))
  = if decide (sub t = l)
    then pred (length (filter (fun t => sub t = l) ts))
    else length (filter (fun t => sub t = l) ts).
Proof.
  intros Hn. rewrite delete_take_drop.
  pose proof (take_drop_middle ts n t Hn) as Heq. revert Heq.
  generalize (take n ts) (drop (S n) ts). intros a b <-.
  rewrite !filter_app, filter_cons, !length_app.
  case_decide; simpl; lia.
Qed.

Lemma consistent_asked h n :
  consistent deps h ->
  consistent deps {| bcReader := bcReader h; subscriptions := subscriptions h;
                heap := heap h; drawn := drawn h; asked := n;
                tasks := tasks h |}.
Proof. intros [? ? ? ? ? ?]. by split. Qed.

Lemma consistent_cancel h l : consistent deps h -> consistent deps (cancel l h).
Proof.
  intros [Hrd Hra Htd Hta Hrt Hwg]. split; simpl; try done.
  - intros i l0 Hi. rewrite lookup_alter_is_Some. by eapply Hra.
  - intros t Ht. rewrite lookup_alter_is_Some. by apply Hta.
  - intros l0 s0 Hs0. apply lookup_alter_Some in Hs0.
    destruct Hs0 as [(-> & s1 & Hs1 & ->)|[_ Hs0]]; simpl; by apply Hwg.
Qed.

Lemma consistent_Delete h i : consistent deps h -> consistent deps (Delete i h).
Proof.
  intros [Hrd Hra Htd Hta Hrt Hwg]. split; simpl; try done.
  - intros i0 l [_ Hi0]%lookup_delete_Some. by eapply Hrd.
  - intros i0 l [_ Hi0]%lookup_delete_Some. by eapply Hra.
  - intros t l Ht [_ Hi0]%lookup_delete_Some. by apply Hrt.
Qed.

Lemma consistent_Done h n t :
  tasks h !! n = Some t ->
  consistent deps h -> consistent deps (Done n (sub t) h).
Proof.
  intros Hn [Hrd Hra Htd Hta Hrt Hwg]. split; simpl.
  - done.
  - intros i l Hi. rewrite lookup_alter_is_Some. by eapply Hra.
  - intros t0 Ht0%list_elem_of_delete_inv. by apply Htd.
  - intros t0 Ht0%list_elem_of_delete_inv.
    rewrite lookup_alter_is_Some. by apply Hta.
  - intros t0 l Ht0%list_elem_of_delete_inv. by apply Hrt.
  - intros l s0 Hs0. unfold tasksOf; simpl.
    rewrite (tasksOf_delete l _ n t Hn).
    apply lookup_alter_Some in Hs0.
    destruct Hs0 as [(-> & s1 & Hs1 & ->)|[Hne Hs0]]; simpl.
    + rewrite decide_True by done. f_equal. by apply Hwg.
    + rewrite decide_False by done. by apply Hwg.
Qed.

Lemma drawnID_S i h h' :
  drawn h' = S (drawn h) -> drawnID deps i h -> drawnID deps i h'.
Proof. intros Hd (n & Hn & ->). exists n. split; [lia|done]. Qed.

(** A subscription that is stored: its id is new, its object is new, and
    it has no task yet. *)
Lemma consistent_stored h w :
  Inj (=) (=) (idgen deps) ->
  consistent deps h ->
  consistent deps
    (Store (nextID deps h).1 (newSubscription w (nextID deps h).2).1
       (newSubscription w (nextID deps h).2).2).
Proof.
  intros Hinj [Hrd Hra Htd Hta Hrt Hwg].
  set (l := fresh (dom (heap h))).
  assert (Hfresh : heap h !! l = None).
  { apply not_elem_of_dom. apply is_fresh. }
  split; simpl; fold l.
  - intros i l0 Hi. destruct (decide (i = idgen deps (drawn h))) as [->|Hne].
    + exists (drawn h). simpl. split; [lia|done].
    + rewrite lookup_insert_ne in Hi by done.
      eapply drawnID_S; [|by eapply Hrd]. done.
  - intros i l0 Hi. rewrite lookup_insert_is_Some.
    destruct (decide (i = idgen deps (drawn h))) as [->|Hne].
    + rewrite lookup_insert_eq in Hi. left. congruence.
    + rewrite lookup_insert_ne in Hi by done.
      destruct (decide (l = l0)); [by left|right].
      split; [done|]. by eapply Hra.
  - intros t Ht. eapply drawnID_S; [|by apply Htd]. done.
  - intros t Ht. rewrite lookup_insert_is_Some.
    destruct (decide (l = sub t)); [by left|right].
    split; [done|]. by apply Hta.
  - intros t l0 Ht Hi. destruct (Htd t Ht) as (n & Hn & Hid).
    rewrite lookup_insert_ne in Hi; [by apply Hrt|].
    rewrite Hid. intros Heq%Hinj. lia.
  - intros l0 s0 Hs0. unfold tasksOf; simpl.
    destruct (decide (l = l0)) as [<-|Hne].
    + rewrite lookup_insert_eq in Hs0. simplify_eq. simpl.
      destruct (filter _ (tasks h)) as [|t ts] eqn:Hf; [done|].
      assert (Ht : t ∈ filter (fun t => sub t = l) (tasks h))
        by (rewrite Hf; left).
      apply list_elem_of_filter in Ht as [Hsub Ht].
      destruct (Hta t Ht) as [s1 Hs1]. congruence.
    + rewrite lookup_insert_ne in Hs0 by done. by apply Hwg.
Qed.

(** The task of a stored subscription is started. *)
Lemma consistent_Go h t :
  drawnID deps (subID t) h ->
  is_Some (heap h !! sub t) ->
  (forall l, subscriptions h !! subID t = Some l -> sub t = l) ->
  consistent deps h -> consistent deps (Go t h).
Proof.
  intros Hd Ha Hr [Hrd Hra Htd Hta Hrt Hwg]. split; simpl.
  - done.
  - intros i l Hi. rewrite lookup_alter_is_Some. by eapply Hra.
  - intros t0 [Ht0| ->%list_elem_of_singleton]%elem_of_app;
      [by apply Htd|done].
  - intros t0 Ht0. rewrite lookup_alter_is_Some.
    apply elem_of_app in Ht0 as [Ht0| ->%list_elem_of_singleton];
      [by apply Hta|done].
  - intros t0 l [Ht0| ->%list_elem_of_singleton]%elem_of_app Hi;
      [by apply Hrt|by apply Hr].
  - intros l s0 Hs0. unfold tasksOf; simpl.
    rewrite tasksOf_snoc, length_app.
    apply lookup_alter_Some in Hs0.
    destruct Hs0 as [(-> & s1 & Hs1 & ->)|[Hne Hs0]]; simpl.
    + rewrite decide_True by done. simpl.
      rewrite (Hwg _ _ Hs1). unfold tasksOf. lia.
    + rewrite decide_False by done. simpl.
      rewrite Nat.add_0_r. by apply Hwg.
Qed.

(** ** The two halves of a subscribe handler *)

(** Each subscribe handler is its first half and then the [sub.wg.Go] of the
    task, with nothing in between. *)
Lemma SubscribeNewHeads_halves h ctx blockID :
  SubscribeNewHeads deps h ctx blockID
  = match SubscribeNewHeads_store deps h ctx blockID with
    | (inl err, h1) => ((0, Some err), h1)
    | (inr t, h1) => ((subID t, None), Go t h1)
    end.
Proof.
  unfold SubscribeNewHeads, SubscribeNewHeads_store.
  destruct (ConnFromContext ctx) as [w|]; [|done].
  by destruct (resolveBlockRange _ _ _) as [e|[start latest]].
Qed.

Lemma SubscribeEvents_halves h ctx fromAddr keys blockID :
  SubscribeEvents deps h ctx fromAddr keys blockID
  = match SubscribeEvents_store deps h ctx fromAddr keys blockID with
    | (inl err, h1) => ((0, Some err), h1)
    | (inr t, h1) => ((subID t, None), Go t h1)
    end.
Proof.
  unfold SubscribeEvents, SubscribeEvents_store.
  destruct (ConnFromContext ctx) as [w|]; [|done].
  destruct (_ <? _); [done|].
  by destruct (resolveBlockRange _ _ _) as [e|[start latest]].
Qed.

Lemma SubscribePendingTxs_halves h ctx getDetails senderAddr :
  SubscribePendingTxs deps h ctx getDetails senderAddr
  = match SubscribePendingTxs_store deps h ctx getDetails senderAddr with
    | (inl err, h1) => ((0, Some err), h1)
    | (inr t, h1) => ((subID t, None), Go t h1)
    end.
Proof.
  unfold SubscribePendingTxs, SubscribePendingTxs_store.
  destruct (ConnFromContext ctx) as [w|]; [|done].
  by destruct (_ <? _).
Qed.

Lemma SubscribeTransactionStatus_halves h ctx txHash ticks :
  SubscribeTransactionStatus deps h ctx txHash ticks
  = match SubscribeTransactionStatus_store deps h ctx txHash ticks with
    | (inl err, h1) => ((0, Some err), h1)
    | (inr t, h1) => ((subID t, None), Go t h1)
    end.
Proof.
  unfold SubscribeTransactionStatus, SubscribeTransactionStatus_store.
  destruct (ConnFromContext ctx) as [w|]; [|done]. simpl.
  destruct (transactionStatus deps (asked h) txHash) as [e|st]; simpl;
    [|done].
  case_bool_decide; [done|].
  by destruct (txNotFoundLoop _ _ _ _ _) as [[e'|st] h2].
Qed.

Lemma Unsubscribe_leave_changes h l i c h' :
  Unsubscribe_leave h l i = Some (c, h') ->
  c = Returned true None /\ h' = Delete i h
  /\ exists sb, heap h !! l = Some sb /\ wg sb = 0%nat.
Proof.
  unfold Unsubscribe_leave. destruct (heap h !! l) as [sb|]; [|done].
  case_bool_decide; [|done]. intros [= <- <-]. eauto.
Qed.

(** ** Unsubscribe *)

(** C3 — With [Equal] true exactly of one and the same connection: for a
    subscription id [i] owned by connection [c1], a call of [Unsubscribe]
    for [i] from a connection [c2] other than [c1], or a call with an id
    that is not in the registry, returns [false] with the [invalid
    subscription id] error at once, and changes nothing: the context of the
    subscription is not cancelled, its registry entry is not deleted and no
    wait is begun. *)
Theorem unsubscribe_authorization h i c1 c2 l sb ctx i' :
  (forall a b : Conn, Equal deps a b = true <-> a = b) ->
  subscriptions h !! i = Some l ->
  heap h !! l = Some sb ->
  conn sb = c1 ->
  ConnFromContext ctx = Some c2 ->
  (i' = i /\ c2 <> c1) \/ subscriptions h !! i' = None ->
  Unsubscribe_enter deps h ctx i'
    = (Returned false (Some ErrInvalidSubscriptionID), h)
  /\ subscriptions (Unsubscribe_enter deps h ctx i').2 !! i = Some l
  /\ heap (Unsubscribe_enter deps h ctx i').2 !! l = Some sb
  /\ (@cancelled Conn <$> heap (Unsubscribe_enter deps h ctx i').2 !! l)
     = Some (cancelled sb).
Proof.
  intros Hequal Hi Hl Hconn Hctx Hother.
  assert (Hsame : Unsubscribe_enter deps h ctx i'
            = (Returned false (Some ErrInvalidSubscriptionID), h)).
  { unfold Unsubscribe_enter. rewrite Hctx.
    destruct Hother as [[-> Hne]| ->]; [|done].
    rewrite Hi, Hl.
    destruct (Equal deps (conn sb) c2) eqn:Heq; [|done].
    apply Hequal in Heq. congruence. }
  rewrite Hsame. simpl. by rewrite Hl.
Qed.

End EngineProperties.

(** Connection 2 cannot end the subscription of connection 1. *)
Lemma unsubscribe_authorization_witness :
  rpcv8.Unsubscribe_enter subscriptions_fixtures.deps1024
    subscriptions_fixtures.subscribed subscriptions_fixtures.onConn2 1
  = (rpcv8.Returned false (Some rpcv8.ErrInvalidSubscriptionID),
     subscriptions_fixtures.subscribed).
Proof.
  refine (proj1 (unsubscribe_authorization positive
                   subscriptions_fixtures.deps1024
                   subscriptions_fixtures.subscribed 1 1%positive 2%positive
                   1%positive subscriptions_fixtures.subscription1
                   subscriptions_fixtures.onConn2 1
                   Pos.eqb_eq eq_refl eq_refl eq_refl eq_refl _)).
  left. split; [reflexivity|discriminate].
Defined.

(* ===================================================================== *)
(** * More on the middleware and the HTTP adapter                          *)
(* ===================================================================== *)

Section MetricsCoverage.
Import jsonrpc.
Context {S : Type}.

(** X1 — The metrics middleware is transparent: it returns the response and
    the error of the next handler as they are, and of the state it leaves
    the server's own part, the clock and every other reporter as the next
    handler left them. *)
Theorem metrics_middleware_transparent (r : positive)
    (next : requestHandler (World S)) (req : request) (w : World S) :
  let served := MetricsReporterMiddleware r req next w in
  served.1 = (next req w).1
  /\ core served.2 = core (next req w).2
  /\ clock served.2 = clock (next req w).2
  /\ (forall r', r' <> r ->
        reporters served.2 !! r' = reporters (next req w).2 !! r').
Proof.
  unfold MetricsReporterMiddleware.
  destruct (next req w) as [[resp err] w1]; simpl.
  destruct resp as [resp|]; [destruct (RespError resp)|]; simpl;
    (split_and!; [done..|]); intros r' Hr';
    by rewrite ?lookup_alter_ne by done.
Qed.

(** X2 — What the metrics middleware tells its reporter, in full: the method
    of the request, the time the next handler took (and not the time of the
    reporting itself), one request more, and the code of the error object
    when the response has one.  A response without an error object, or no
    response at all (also when the next handler returns a Go error), leaves
    the error code of the reporter as it was. *)
Theorem metrics_report (r : positive) (next : requestHandler (World S))
    (req : request) (w : World S) (x : testRequestReporter) :
  reporters (next req w).2 !! r = Some x ->
  reporters (MetricsReporterMiddleware r req next w).2 !! r
  = Some {| method := Method req;
            duration := clock (next req w).2 - clock w;
            count := count x + 1;
            errCode :=
              match (next req w).1.1 with
              | Some resp =>
                  match RespError resp with
                  | Some e => Code e
                  | None => errCode x
                  end
              | None => errCode x
              end |}.
Proof.
  unfold MetricsReporterMiddleware.
  destruct (next req w) as [[resp err] w1]; simpl. intros Hx.
  destruct resp as [resp|]; [destruct (RespError resp)|]; simpl;
    rewrite !lookup_alter_eq, Hx; done.
Qed.

(** The count after a nest of [n] metrics middlewares around [h]. *)
Lemma wrap_metrics_counts (r : positive) (n : nat)
    (h : requestHandler (World S)) req w :
  countOf r (wrap (replicate n (MetricsReporterMiddleware r)) h req w).2
  = (fun c => c + Z.of_nat n) <$> countOf r (h req w).2
  /\ (wrap (replicate n (MetricsReporterMiddleware r)) h req w).1
     = (h req w).1
  /\ core (wrap (replicate n (MetricsReporterMiddleware r)) h req w).2
     = core (h req w).2.
Proof.
  revert h. induction n as [|n IH]; intros h; simpl.
  - split; [|done]. destruct (countOf r (h req w).2); simpl; [|done].
    f_equal. lia.
  - destruct (IH (fun req => MetricsReporterMiddleware r req h))
      as (Hc & Hr & Hs).
    rewrite Hc, Hr, Hs, metrics_counts_one. split_and!.
    + destruct (countOf r (h req w).2); simpl; [|done]. f_equal. lia.
    + unfold MetricsReporterMiddleware.
      by destruct (h req w) as [[resp err] w1].
    + unfold MetricsReporterMiddleware.
      destruct (h req w) as [[[resp|] err] w1]; simpl; [|done].
      by destruct (RespError resp).
Qed.

(** X3 — Metrics middlewares add up: on a server on which [n] metrics
    middlewares that report to one reporter were registered one after the
    other, over a dispatcher that leaves the reporters alone, one request
    takes the count of the reporter up by exactly [n]; the answer is the
    one of the dispatcher, and so is what the request did to the state of
    the server: the dispatcher ran once. *)
Theorem metrics_chain_counts (r : positive)
    (terminal : requestHandler (World S)) (req : request) (w : World S)
    (n : nat) :
  (forall req w, reporters (terminal req w).2 = reporters w) ->
  let s := register (replicate n (MetricsReporterMiddleware r))
             {| handler := None; handleRequest := terminal |} in
  countOf r (serve s req w).2 = (fun c => c + Z.of_nat n) <$> countOf r w
  /\ (serve s req w).1 = (terminal req w).1
  /\ core (serve s req w).2 = core (terminal req w).2.
Proof.
  intros Hframe s. subst s. unfold serve. rewrite current_register.
  unfold current; simpl.
  destruct (wrap_metrics_counts r n terminal req w) as (Hc & Hr & Hs).
  rewrite Hc, Hr, Hs. split_and!; [|done|done].
  unfold countOf. by rewrite Hframe.
Qed.

End MetricsCoverage.

(** A request for a method that is not there: the reporter has the error
    code of the answer, and the three ticks the dispatcher took. *)
Lemma metrics_report_witness :
  jsonrpc.reporters
    (jsonrpc.MetricsReporterMiddleware 1%positive fixtures.subtractRequest
       fixtures.notFound fixtures.testWorld).2 !! 1%positive
  = Some {| jsonrpc.method := "subtract"; jsonrpc.duration := 3;
            jsonrpc.count := 1; jsonrpc.errCode := -32601 |}.
Proof.
  exact (metrics_report 1%positive fixtures.notFound fixtures.subtractRequest
           fixtures.testWorld jsonrpc.reporter0 eq_refl).
Defined.

(** Three metrics middlewares around the method of the test: the reporter
    counts 3 and the answer is 19. *)
Lemma metrics_chain_counts_witness :
  let s := jsonrpc.register
             (replicate 3 (jsonrpc.MetricsReporterMiddleware 1%positive))
             {| jsonrpc.handler := None;
                jsonrpc.handleRequest := jsonrpc.subtract 42 23 |} in
  jsonrpc.countOf 1
    (jsonrpc.serve s fixtures.subtractRequest fixtures.testWorld).2
  = Some 3
  /\ (jsonrpc.serve s fixtures.subtractRequest fixtures.testWorld).1
     = (jsonrpc.subtract 42 23 fixtures.subtractRequest
          fixtures.testWorld).1.
Proof.
  destruct (metrics_chain_counts 1%positive (jsonrpc.subtract 42 23)
              fixtures.subtractRequest fixtures.testWorld 3
              (fun _ _ => eq_refl)) as (Hcount & Hanswer & _).
  split; [exact Hcount|exact Hanswer].
Defined.

Section HTTPCoverage.
Import jsonrpc.
Context {S : Type}.

(** X4 — The accounts of a POST: whatever the server core answers, the
    counter of requests goes up by one and the content type of the answer
    is set to [application/json]; a failure to write the response is logged
    and goes no further, and then nothing was added to the body; when the
    write succeeds or there is nothing to write, nothing is logged. *)
Theorem http_post_accounts
    (HandleReader :
       Reader -> S -> (option (list Byte.byte) * option goerror) * S)
    (h : HTTP S) (writer : ResponseWriter) (req : Request) :
  HTTPMethod req = "POST"%string ->
  let served := ServeHTTP HandleReader h writer req in
  let handled :=
    HandleReader (MaxBytesReader (Body req) MaxRequestBodySize) (rpc h) in
  reporter_requests served.1 = reporter_requests h + 1
  /\ headers served.2 !! "Content-Type"%string
     = Some "application/json"%string
  /\ (open writer = true \/ handled.1.1 = None -> log served.1 = log h)
  /\ (open writer = false -> is_Some handled.1.1 ->
      log served.1 = log h ++ ["Failed writing response"%string]
      /\ body served.2 = body writer).
Proof.
  intros Hpost. unfold ServeHTTP. rewrite Hpost. simpl.
  destruct (HandleReader _ _) as [[resp err] rpc']; simpl.
  assert (Hheaders : forall code wr,
            headers (WriteHeader code wr) = headers wr).
  { intros code wr. unfold WriteHeader. by destruct (status wr). }
  assert (Hopen : forall code wr, open (WriteHeader code wr) = open wr).
  { intros code wr. unfold WriteHeader. by destruct (status wr). }
  assert (Hbody : forall code wr, body (WriteHeader code wr) = body wr).
  { intros code wr. unfold WriteHeader. by destruct (status wr). }
  destruct resp as [resp|]; simpl.
  - unfold Write. rewrite !Hopen.
    destruct err; simpl; rewrite ?Hopen; simpl;
      destruct (open writer) eqn:Hw; simpl;
      rewrite ?Hheaders, ?Hbody; simpl; rewrite ?lookup_insert_eq;
      (split_and!; [done|done|intros [?|?]; done|intros ? ?; done]).
  - destruct err; simpl; rewrite ?Hheaders; simpl; rewrite lookup_insert_eq;
      (split_and!; [done|done|done|intros ? [? ?]; done]).
Qed.

End HTTPCoverage.

(** A POST to a peer that has gone: the request is counted, the failure is
    logged, and nothing is in the body. *)
Lemma http_post_accounts_witness :
  let served := jsonrpc.ServeHTTP fixtures.echo fixtures.adapter
                  fixtures.closedWriter fixtures.postRequest in
  jsonrpc.reporter_requests served.1 = 1
  /\ jsonrpc.log served.1 = ["Failed writing response"%string]
  /\ jsonrpc.body served.2 = [].
Proof.
  destruct (http_post_accounts fixtures.echo fixtures.adapter
              fixtures.closedWriter fixtures.postRequest eq_refl)
    as (Hcount & _ & _ & Hlog).
  destruct (Hlog eq_refl ltac:(by eexists)) as [Hl Hb].
  split_and!; [exact Hcount|exact Hl|exact Hb].
Defined.

(* ===================================================================== *)
(** * More on block ids and simulation flags                               *)
(* ===================================================================== *)

Section BlockIDCoverage.
Import rpcv8.

(** A value found in the map of an object is the value of the last member
    of that name, or was in the map before. *)
Lemma lookup_members_last (members : list (string * JSON)) (name : string)
    (m : gmap string JSON) (v : JSON) :
  fold_left (fun m kv => <[kv.1 := kv.2]> m) members m !! name = Some v ->
  (exists before after,
     members = before ++ (name, v) :: after /\ (name ∉ after.*1))
  \/ ((name ∉ members.*1) /\ m !! name = Some v).
Proof.
  revert m. induction members as [|[k v'] members IH]; intros m; simpl.
  - intros Hm. right. split; [apply not_elem_of_nil|done].
  - intros [(before & after & -> & Hafter)|[Hnot Hm]]%IH.
    + left. by exists ((k, v') :: before), after.
    + apply lookup_insert_Some in Hm as [[<- <-]|[Hne Hm]].
      * left. by exists [], members.
      * right. split; [|done]. by apply not_elem_of_cons.
Qed.

(** X5 — What [UnmarshalJSON] leaves in the block id it is called on.  It
    never clears [Latest]: the field is true afterwards exactly when it was
    true before or the text is the string [latest], and for that text
    nothing else is touched.  For an object with a member [block_hash] the
    hash is read and [block_number] is not looked at: the error is the one
    of reading the last member of that name into a new felt, [Hash] is that
    felt, as the reading left it (so it is not nil even when the reading
    fails), and [Latest] and [Number] stay as they were.  For an object
    without [block_hash] the hash stays as it was, and when it has a member
    [block_number], the last one of that name is read into [Number], with
    the error of that reading. *)
Theorem unmarshal_block_id_fields
    (decode : string -> option JSON)
    (unmarshalFelt : JSON -> Felt -> option jsonrpc.goerror * Felt)
    (unmarshalUint64 : JSON -> Z -> option jsonrpc.goerror * Z)
    (data : string) (b : SubscriptionBlockID) :
  let r := UnmarshalJSON decode unmarshalFelt unmarshalUint64 data b in
  Latest r.2 = Latest b || String.eqb data latest_text
  /\ (data = latest_text ->
      r = (None, {| Latest := true; Hash := Hash b; Number := Number b |}))
  /\ (forall members,
        data <> latest_text -> decode data = Some (JObject members) ->
        hasMember "block_hash" (JObject members) = true ->
        exists before hash after,
          members = before ++ ("block_hash"%string, hash) :: after
          /\ ("block_hash"%string ∉ after.*1)
          /\ r = ((unmarshalFelt hash 0).1,
                  {| Latest := Latest b; Hash := Some (unmarshalFelt hash 0).2;
                     Number := Number b |}))
  /\ (forall members,
        data <> latest_text -> decode data = Some (JObject members) ->
        hasMember "block_hash" (JObject members) = false ->
        Hash r.2 = Hash b)
  /\ (forall members,
        data <> latest_text -> decode data = Some (JObject members) ->
        hasMember "block_hash" (JObject members) = false ->
        hasMember "block_number" (JObject members) = true ->
        exists before number after,
          members = before ++ ("block_number"%string, number) :: after
          /\ ("block_number"%string ∉ after.*1)
          /\ r = ((unmarshalUint64 number (Number b)).1,
                  {| Latest := Latest b; Hash := Hash b;
                     Number := (unmarshalUint64 number (Number b)).2 |})).
Proof.
  unfold UnmarshalJSON.
  destruct (String.eqb_spec data latest_text) as [->|Hne]; simpl.
  { rewrite orb_true_r. split_and!; done. }
  rewrite orb_false_r. unfold unmarshalObject.
  assert (Hfound : forall members name,
            hasMember name (JObject members) = true ->
            exists before v after,
              members = before ++ (name, v) :: after /\ (name ∉ after.*1)
              /\ fold_left (fun m kv => <[kv.1 := kv.2]> m) members
                   (∅ : gmap string JSON) !! name = Some v).
  { intros members name Hmem. simpl in Hmem.
    apply bool_decide_eq_true in Hmem.
    assert (Hsome : is_Some
              (fold_left (fun m kv => <[kv.1 := kv.2]> m) members
                 (∅ : gmap string JSON) !! name)).
    { apply lookup_members. by left. }
    destruct Hsome as [v Hv].
    destruct (lookup_members_last _ _ _ _ Hv)
      as [(before & after & Heq & Hafter)|[_ Hempty]];
      [|by rewrite lookup_empty in Hempty].
    by exists before, v, after. }
  assert (Hmissing : forall members name,
            hasMember name (JObject members) = false ->
            fold_left (fun m kv => <[kv.1 := kv.2]> m) members
              (∅ : gmap string JSON) !! name = None).
  { intros members name Hmem. simpl in Hmem.
    apply bool_decide_eq_false in Hmem.
    apply eq_None_not_Some. intros [?|Hsome]%lookup_members; [done|].
    rewrite lookup_empty in Hsome. by destruct Hsome. }
  split_and!; [|done| | |].
  - destruct (decode data) as [[| | | | |members]|]; try done.
    destruct (_ !! "block_hash"%string) as [hash|].
    + by destruct (unmarshalFelt hash 0).
    + destruct (_ !! "block_number"%string) as [number|]; [|done].
      by destruct (unmarshalUint64 number (Number b)).
  - intros members _ -> Hmem.
    destruct (Hfound _ _ Hmem) as (before & hash & after & Heq & Hafter & ->).
    exists before, hash, after.
    by destruct (unmarshalFelt hash 0) as [err f].
  - intros members _ -> Hmem. rewrite (Hmissing _ _ Hmem).
    destruct (_ !! "block_number"%string) as [number|]; [|done].
    by destruct (unmarshalUint64 number (Number b)).
  - intros members _ -> Hhash Hmem. rewrite (Hmissing _ _ Hhash).
    destruct (Hfound _ _ Hmem)
      as (before & number & after & Heq & Hafter & ->).
    exists before, number, after.
    by destruct (unmarshalUint64 number (Number b)) as [err n].
Qed.

End BlockIDCoverage.

Section SimulationFlags.
Import rpcv7.

(** X6 — [SimulationFlag.UnmarshalJSON] takes exactly two texts, the
    strings [SKIP_VALIDATE] and [SKIP_FEE_CHARGE], to the flags 1 and 2;
    every other text (another case, no quotes, a number) is an error that
    names the text, and leaves the flag as it was.  So, of flags that came
    from texts, a list switches the fee charge off exactly when one of its
    texts is [SKIP_FEE_CHARGE], and validation exactly when one is
    [SKIP_VALIDATE]. *)
Theorem simulation_flag_unmarshal (bytes : string) (s : SimulationFlag) :
  (bytes = skipValidateText -> UnmarshalJSON bytes s = (None, 1))
  /\ (bytes = skipFeeChargeText -> UnmarshalJSON bytes s = (None, 2))
  /\ (bytes <> skipValidateText -> bytes <> skipFeeChargeText ->
      UnmarshalJSON bytes s
      = (Some (Errorf "unknown simulation flag %q" bytes), s))
  /\ (forall texts flags,
        Forall2 (fun text flag => UnmarshalJSON text 0 = (None, flag))
          texts flags ->
        (skipFeeCharge flags = true <-> skipFeeChargeText ∈ texts)
        /\ (skipValidate flags = true <-> skipValidateText ∈ texts)).
Proof.
  split_and!.
  - by intros ->.
  - by intros ->.
  - intros Hv%String.eqb_neq Hf%String.eqb_neq. unfold UnmarshalJSON.
    by rewrite Hv, Hf.
  - intros texts flags Hall.
    induction Hall as [|text flag texts flags Hone _ IH].
    { split; (split; [done|by intros ?%elem_of_nil]). }
    destruct IH as [IHf IHv]. unfold skipFeeCharge, skipValidate in *.
    simpl. rewrite !orb_true_iff, !elem_of_cons, IHf, IHv.
    unfold UnmarshalJSON in Hone.
    destruct (String.eqb_spec text skipValidateText) as [->|Hv].
    { injection Hone as <-. split; (split; intros [?|?]; try done; auto). }
    destruct (String.eqb_spec text skipFeeChargeText) as [->|Hf]; [|done].
    injection Hone as <-. split; (split; intros [?|?]; try done; auto).
Qed.

End SimulationFlags.

(* ===================================================================== *)
(** * More on the subscribe handlers                                       *)
(* ===================================================================== *)

Section SubscribeCoverage.
Import rpcv8.
Variable Conn : Type.
Variable deps : Deps Conn.
Implicit Types (h : Handler Conn) (ctx : RequestContext Conn) (w : Conn).

(** X7 — [SubscribePendingTxs] on a connection is refused with [too many
    addresses in filter] if and only if the sender list has more than
    [MaxEventFilterKeys] addresses (the limit of the event keys is the one
    that is used), and then nothing is changed; otherwise the call cannot
    fail: it returns the next id of the generator and no error. *)
Theorem pending_txs_address_limit h ctx w getDetails senderAddr :
  ConnFromContext ctx = Some w ->
  let call := SubscribePendingTxs deps h ctx getDetails senderAddr in
  (call.1.2 = Some ErrTooManyAddressesInFilter
   <-> MaxEventFilterKeys deps < Z.of_nat (length senderAddr))
  /\ (MaxEventFilterKeys deps < Z.of_nat (length senderAddr) ->
      call = ((0, Some ErrTooManyAddressesInFilter), h))
  /\ (Z.of_nat (length senderAddr) <= MaxEventFilterKeys deps ->
      call.1 = (idgen deps (drawn h), None)).
Proof.
  intros Hw call. subst call. unfold SubscribePendingTxs. rewrite Hw.
  destruct (Z.ltb_spec (MaxEventFilterKeys deps)
              (Z.of_nat (length senderAddr))) as [Hlt|Hle]; simpl.
  - split_and!; [done|done|lia].
  - split_and!; [split; [done|lia]|lia|done].
Qed.

(** X8 — Without a connection in the context of the request (a request that
    did not come over a WebSocket), each of the four subscribe methods and
    [Unsubscribe] answers [method not found] and changes nothing: no id is
    drawn, the status of a transaction is not even looked up, and no
    subscription is cancelled. *)
Theorem subscriptions_need_connection h ctx :
  ConnFromContext ctx = None ->
  (forall blockID,
     SubscribeNewHeads deps h ctx blockID = ((0, Some MethodNotFound), h))
  /\ (forall fromAddr keys blockID,
        SubscribeEvents deps h ctx fromAddr keys blockID
        = ((0, Some MethodNotFound), h))
  /\ (forall getDetails senderAddr,
        SubscribePendingTxs deps h ctx getDetails senderAddr
        = ((0, Some MethodNotFound), h))
  /\ (forall txHash ticks,
        SubscribeTransactionStatus deps h ctx txHash ticks
        = ((0, Some MethodNotFound), h))
  /\ (forall id,
        Unsubscribe_enter deps h ctx id
        = (Returned false (Some MethodNotFound), h)).
Proof.
  intros Hnone.
  unfold SubscribeNewHeads, SubscribeEvents, SubscribePendingTxs,
    SubscribeTransactionStatus, Unsubscribe_enter.
  rewrite Hnone. split_and!; done.
Qed.

(** Asking for the status of a transaction changes the count of lookups
    only. *)
Lemma txNotFoundLoop_books ticks h txHash e :
  sameBooks h (txNotFoundLoop deps ticks h txHash e).2.
Proof.
  revert h e. induction ticks as [|ticks IH]; intros h e; simpl; [done|].
  destruct (transactionStatus deps (asked h) txHash) as [e'|st]; simpl;
    [|done].
  case_bool_decide; [done|].
  destruct (IH {| bcReader := bcReader h; subscriptions := subscriptions h;
                  heap := heap h; drawn := drawn h; asked := S (asked h);
                  tasks := tasks h |} e') as (? & ? & ? & ? & ?).
  by split_and!.
Qed.

(** The handler after the lookups [SubscribeTransactionStatus] begins
    with. *)
Lemma txStatus_lookups h txHash ticks :
  sameBooks h
    (let '(r, h) := Handler_TransactionStatus deps h txHash in
     match r with
     | inl rpcErr =>
         if bool_decide (rpcErr ≠ ErrTxnHashNotFound) then (inl rpcErr, h)
         else txNotFoundLoop deps ticks h txHash rpcErr
     | inr curStatus => (inr curStatus, h)
     end).2.
Proof.
  simpl. destruct (transactionStatus deps (asked h) txHash) as [e|st];
    [|done].
  case_bool_decide; [done|].
  destruct (txNotFoundLoop_books ticks
              {| bcReader := bcReader h; subscriptions := subscriptions h;
                 heap := heap h; drawn := drawn h; asked := S (asked h);
                 tasks := tasks h |} txHash e) as (? & ? & ? & ? & ?).
  by split_and!.
Qed.

(** X9 — A subscribe call that answers an error has made no subscription:
    it returns the id 0, and the handler is as it was (after
    [SubscribeTransactionStatus], but for the count of status lookups): no
    id was drawn, nothing was registered and no task was started. *)
Theorem failed_subscribe_leaves_no_trace h ctx :
  (forall blockID e,
     (SubscribeNewHeads deps h ctx blockID).1.2 = Some e ->
     SubscribeNewHeads deps h ctx blockID = ((0, Some e), h))
  /\ (forall fromAddr keys blockID e,
        (SubscribeEvents deps h ctx fromAddr keys blockID).1.2 = Some e ->
        SubscribeEvents deps h ctx fromAddr keys blockID = ((0, Some e), h))
  /\ (forall getDetails senderAddr e,
        (SubscribePendingTxs deps h ctx getDetails senderAddr).1.2 = Some e ->
        SubscribePendingTxs deps h ctx getDetails senderAddr
        = ((0, Some e), h))
  /\ (forall txHash ticks e,
        (SubscribeTransactionStatus deps h ctx txHash ticks).1.2 = Some e ->
        (SubscribeTransactionStatus deps h ctx txHash ticks).1 = (0, Some e)
        /\ sameBooks h
             (SubscribeTransactionStatus deps h ctx txHash ticks).2).
Proof.
  split_and!.
  - intros blockID e. unfold SubscribeNewHeads.
    destruct (ConnFromContext ctx); [|by intros [= <-]].
    destruct (resolveBlockRange deps h blockID) as [?|[start latest]];
      [by intros [= <-]|done].
  - intros fromAddr keys blockID e. unfold SubscribeEvents.
    destruct (ConnFromContext ctx); [|by intros [= <-]].
    destruct (_ <? _); [by intros [= <-]|].
    destruct (resolveBlockRange deps h blockID) as [?|[start latest]];
      [by intros [= <-]|done].
  - intros getDetails senderAddr e. unfold SubscribePendingTxs.
    destruct (ConnFromContext ctx); [|by intros [= <-]].
    destruct (_ <? _); [by intros [= <-]|done].
  - intros txHash ticks e. unfold SubscribeTransactionStatus.
    destruct (ConnFromContext ctx); [|by intros [= <-]].
    pose proof (txStatus_lookups h txHash ticks) as Hbooks. simpl in *.
    destruct (match transactionStatus deps (asked h) txHash with
              | inl _ => _ | inr _ => _ end)
      as [[e'|st] h1]; simpl in *; [by intros [= <-]|done].
Qed.










(** X12 — [Unsubscribe] works once: after a call for an id has returned
    [true], a second call for the same id, from any connection, answers
    [invalid subscription id] and changes nothing. *)
Theorem unsubscribe_twice h l id c h' ctx w :
  Unsubscribe_leave h l id = Some (c, h') ->
  ConnFromContext ctx = Some w ->
  c = Returned true None
  /\ Unsubscribe_enter deps h' ctx id
     = (Returned false (Some ErrInvalidSubscriptionID), h').
Proof.
  intros (-> & -> & _)%Unsubscribe_leave_changes Hw. split; [done|].
  unfold Unsubscribe_enter. rewrite Hw. simpl.
  by rewrite lookup_delete_eq.
Qed.

(** The loop of lookups ends at the first answer that is not [not found]. *)
Lemma txNotFoundLoop_first k ticks h txHash ans :
  (k < ticks)%nat ->
  (forall i, (asked h <= i < asked h + k)%nat ->
     transactionStatus deps i txHash = inl ErrTxnHashNotFound) ->
  transactionStatus deps (asked h + k) txHash = ans ->
  ans <> inl ErrTxnHashNotFound ->
  txNotFoundLoop deps ticks h txHash ErrTxnHashNotFound
  = (ans,
     {| bcReader := bcReader h; subscriptions := subscriptions h;
        heap := heap h; drawn := drawn h;
        asked := (asked h + S k)%nat; tasks := tasks h |}).
Proof.
  revert ticks h. induction k as [|k IH]; intros ticks h Hk Hnever Hans Hne.
  - destruct ticks as [|ticks]; [lia|]. simpl.
    rewrite Nat.add_0_r in Hans. rewrite Hans.
    destruct ans as [e|st].
    + rewrite bool_decide_eq_true_2 by congruence.
      do 2 f_equal. lia.
    + do 2 f_equal. lia.
  - destruct ticks as [|ticks]; [lia|]. simpl.
    rewrite Hnever by lia. simpl.
    rewrite (IH ticks _ ltac:(lia)); simpl.
    + do 2 f_equal. lia.
    + intros i Hi. apply Hnever. lia.
    + rewrite <- Hans. f_equal. lia.
    + done.
Qed.

(** X13 — [SubscribeTransactionStatus] on a connection, for a hash that is
    [not found] at the first lookup and at the first [k] ticks, and for
    which the lookup at the next tick, before the timeout, answers something
    else: an answer that is an error ends the call with that error and no
    subscription; an answer that is a status makes the subscription, whose
    task starts with that status.  Either way [k + 2] lookups were made. *)
Theorem tx_status_found_late h ctx w txHash ticks k ans :
  ConnFromContext ctx = Some w ->
  (k < ticks)%nat ->
  (forall i, (asked h <= i <= asked h + k)%nat ->
     transactionStatus deps i txHash = inl ErrTxnHashNotFound) ->
  transactionStatus deps (asked h + S k) txHash = ans ->
  ans <> inl ErrTxnHashNotFound ->
  let call := SubscribeTransactionStatus deps h ctx txHash ticks in
  asked call.2 = (asked h + S (S k))%nat
  /\ match ans with
     | inl e => call.1 = (0, Some e) /\ sameBooks h call.2
     | inr curStatus =>
         call.1 = (idgen deps (drawn h), None)
         /\ exists t, tasks call.2 = tasks h ++ [t]
                      /\ job t = txStatusJob txHash curStatus
     end.
Proof.
  intros Hw Hk Hnever Hans Hne call. subst call.
  unfold SubscribeTransactionStatus. rewrite Hw. simpl.
  rewrite Hnever by lia. simpl.
  rewrite (txNotFoundLoop_first k ticks _ txHash ans Hk); simpl.
  - destruct ans as [e|st]; simpl.
    + split; [lia|]. by split.
    + split; [lia|]. split; [done|]. by eexists.
  - intros i Hi. apply Hnever. lia.
  - rewrite <- Hans. f_equal. lia.
  - done.
Qed.

End SubscribeCoverage.

(** Two thousand sender addresses are refused under a limit of 1024. *)
Lemma pending_txs_address_limit_witness :
  rpcv8.SubscribePendingTxs subscriptions_fixtures.deps1024
    subscriptions_fixtures.handler0 subscriptions_fixtures.onConn1 None
    (repeat 1 2000)
  = ((0, Some rpcv8.ErrTooManyAddressesInFilter),
     subscriptions_fixtures.handler0).
Proof.
  destruct (pending_txs_address_limit positive subscriptions_fixtures.deps1024
              subscriptions_fixtures.handler0 subscriptions_fixtures.onConn1
              1%positive None (repeat 1 2000) eq_refl)
    as (_ & Hover & _).
  apply Hover. rewrite repeat_length. simpl. lia.
Defined.

(** A subscription asked for over HTTP. *)
Lemma subscriptions_need_connection_witness :
  rpcv8.SubscribeNewHeads subscriptions_fixtures.deps1024
    subscriptions_fixtures.handler0 subscriptions_fixtures.noConn None
  = ((0, Some rpcv8.MethodNotFound), subscriptions_fixtures.handler0).
Proof.
  exact (proj1 (subscriptions_need_connection positive
                  subscriptions_fixtures.deps1024
                  subscriptions_fixtures.handler0
                  subscriptions_fixtures.noConn eq_refl) None).
Defined.



(** After the subscription of connection 1 was ended, its id is not valid
    any more. *)
Lemma unsubscribe_twice_witness :
  let h := rpcv8.Done 0 1%positive
             (rpcv8.unsubscribe 1%positive 1
                subscriptions_fixtures.subscribed) in
  rpcv8.Unsubscribe_enter subscriptions_fixtures.deps1024
    (rpcv8.Delete 1 h) subscriptions_fixtures.onConn1 1
  = (rpcv8.Returned false (Some rpcv8.ErrInvalidSubscriptionID),
     rpcv8.Delete 1 h).
Proof.
  intros h.
  exact (proj2 (unsubscribe_twice positive subscriptions_fixtures.deps1024
                  h 1%positive 1 (rpcv8.Returned true None) (rpcv8.Delete 1 h)
                  subscriptions_fixtures.onConn1 1%positive
                  eq_refl eq_refl)).
Defined.

(** A hash that is found at the third lookup, with five ticks before the
    timeout: the subscription is made, with id 1, after three lookups. *)
Lemma tx_status_found_late_witness :
  let call :=
    rpcv8.SubscribeTransactionStatus subscriptions_fixtures.depsFound
      subscriptions_fixtures.handler0 subscriptions_fixtures.onConn1 5 5 in
  rpcv8.asked call.2 = 3%nat /\ call.1 = (1, None).
Proof.
  destruct (tx_status_found_late positive subscriptions_fixtures.depsFound
              subscriptions_fixtures.handler0 subscriptions_fixtures.onConn1
              1%positive 5 5 1 (inr subscriptions_fixtures.received1)
              eq_refl ltac:(lia)) as (Hasked & Hid & _).
  - intros i Hi. simpl in Hi. simpl.
    unfold subscriptions_fixtures.foundAtThird.
    destruct (Nat.ltb_spec i 2); [done|lia].
  - reflexivity.
  - discriminate.
  - split; [exact Hasked|exact Hid].
Defined.

(* ===================================================================== *)
(** * More on the engine: ids and connections                              *)
(* ===================================================================== *)

Section RoutingCoverage.
Import rpcv8.
Variable Conn : Type.
Variable deps : Deps Conn.
Implicit Types (h : Handler Conn) (t : task Conn).

Lemma routed_newHandler chain :
  routed deps (newHandler chain : Handler Conn) [].
Proof.
  split; simpl; intros;
    by repeat match goal with
              | H : _ ∈ [] |- _ => apply elem_of_nil in H
              end.
Qed.

(** An id that was handed out is not the next one. *)
Lemma drawnID_next i h :
  Inj (=) (=) (idgen deps) ->
  drawnID deps i h -> i <> idgen deps (drawn h).
Proof. intros Hinj (n & Hn & ->) Heq%Hinj. lia. Qed.

(** Where the notifications went stays so while the handler loses tasks and
    registry entries and its objects keep their connections. *)
Lemma routed_mono h h' o :
  drawn h' = drawn h ->
  (forall t, t ∈ tasks h' -> t ∈ tasks h) ->
  (forall i l, subscriptions h' !! i = Some l ->
     subscriptions h !! i = Some l) ->
  (forall l sb, heap h' !! l = Some sb ->
     exists sb0, heap h !! l = Some sb0 /\ conn sb0 = conn sb) ->
  routed deps h o -> routed deps h' o.
Proof.
  intros Hd Ht Hs Hh [Hod Htc Hti Hot Hoa Hor]. split.
  - intros c r Hin. destruct (Hod c r Hin) as (n & Hn & Hid).
    exists n. split; [lia|done].
  - intros t sb Hin Hsb. destruct (Hh _ _ Hsb) as (sb0 & Hsb0 & <-).
    by apply Htc; [apply Ht|].
  - intros t1 t2 H1 H2. by apply Hti; apply Ht.
  - intros c r t Hin Htin. by apply Hot; [|apply Ht].
  - done.
  - intros c r l sb Hin Hl Hsb. destruct (Hh _ _ Hsb) as (sb0 & Hsb0 & <-).
    by apply (Hor c r l sb0); [|apply Hs|].
Qed.

(** An object that is changed in place keeps its connection. *)
Lemma conn_alter (f : subscription Conn -> subscription Conn) (l l' : positive)
    (m : gmap positive (subscription Conn)) sb :
  (forall s, conn (f s) = conn s) ->
  alter f l m !! l' = Some sb ->
  exists sb0, m !! l' = Some sb0 /\ conn sb0 = conn sb.
Proof.
  intros Hf Hsb. apply lookup_alter_Some in Hsb.
  destruct Hsb as [(-> & s1 & Hs1 & ->)|[_ Hsb]]; eauto.
Qed.

Lemma routed_stored h o w :
  Inj (=) (=) (idgen deps) ->
  consistent deps h -> routed deps h o ->
  routed deps
    (Store (nextID deps h).1 (newSubscription w (nextID deps h).2).1
       (newSubscription w (nextID deps h).2).2) o.
Proof.
  intros Hinj [Hrd Hra Htd Hta Hrt Hwg] [Hod Htc Hti Hot Hoa Hor].
  set (l := fresh (dom (heap h))).
  assert (Hfresh : heap h !! l = None).
  { apply not_elem_of_dom. apply is_fresh. }
  assert (Hold : forall l0, is_Some (heap h !! l0) -> l <> l0).
  { intros l0 [s0 Hs0] <-. congruence. }
  split; simpl; fold l.
  - intros c r Hin. eapply drawnID_S; [|by eapply Hod]. done.
  - intros t sb Hin.
    rewrite lookup_insert_ne by (apply Hold; by apply Hta).
    by apply Htc.
  - done.
  - done.
  - done.
  - intros c r l0 sb Hin.
    rewrite lookup_insert_ne
      by (intros Heq; by destruct (drawnID_next _ h Hinj (Hod _ _ Hin))).
    intros Hl0.
    rewrite lookup_insert_ne by (apply Hold; by eapply Hra).
    by apply (Hor c r).
Qed.

(** An object that is changed in place is still there, with its
    connection. *)
Lemma alter_conn (f : subscription Conn -> subscription Conn) (l l' : positive)
    (m : gmap positive (subscription Conn)) sb :
  (forall s, conn (f s) = conn s) ->
  m !! l' = Some sb ->
  exists sb', alter f l m !! l' = Some sb' /\ conn sb' = conn sb.
Proof.
  intros Hf Hsb. destruct (decide (l = l')) as [->|Hne].
  - exists (f sb). by rewrite lookup_alter_eq, Hsb.
  - exists sb. by rewrite lookup_alter_ne.
Qed.

Lemma routed_Go h o t :
  (exists sb, heap h !! sub t = Some sb /\ conn sb = subConn t) ->
  (forall t', t' ∈ tasks h -> subID t' <> subID t) ->
  (forall c r, (c, r) ∈ o -> subscription_id r <> subID t) ->
  routed deps h o -> routed deps (Go t h) o.
Proof.
  intros (sb0 & Hsb0 & Hconn) Hfree Hsilent [Hod Htc Hti Hot Hoa Hor].
  split; simpl.
  - done.
  - intros t0 sb Hin Hsb.
    apply conn_alter in Hsb as (sb1 & Hsb1 & <-); [|done].
    apply elem_of_app in Hin as [Hin| ->%list_elem_of_singleton];
      [by apply Htc|congruence].
  - intros t1 t2 [H1| ->%list_elem_of_singleton]%elem_of_app
      [H2| ->%list_elem_of_singleton]%elem_of_app Heq.
    + by apply Hti.
    + by destruct (Hfree t1 H1).
    + symmetry in Heq. by destruct (Hfree t2 H2).
    + done.
  - intros c r t0 Hin [Ht0| ->%list_elem_of_singleton]%elem_of_app Heq;
      [by eapply Hot|by destruct (Hsilent c r Hin)].
  - done.
  - intros c r l sb Hin Hl Hsb.
    apply conn_alter in Hsb as (sb1 & Hsb1 & <-); [|done].
    by apply (Hor c r l).
Qed.

(** A task writes for its id to its connection. *)
Lemma routed_write h o t resp :
  consistent deps h -> routed deps h o ->
  t ∈ tasks h -> subscription_id resp = subID t ->
  routed deps h (o ++ [(subConn t, resp)]).
Proof.
  intros Hc [Hod Htc Hti Hot Hoa Hor] Ht Hid. split.
  - intros c r [Hin|[= -> ->]%list_elem_of_singleton]%elem_of_app.
    + by eapply Hod.
    + rewrite Hid. by apply (tasks_drawn Hc).
  - done.
  - done.
  - intros c r t2 [Hin|[= -> ->]%list_elem_of_singleton]%elem_of_app H2 Heq.
    + by eapply Hot.
    + apply Hti; [done|done|congruence].
  - intros c1 r1 c2 r2
      [H1|[= -> ->]%list_elem_of_singleton]%elem_of_app
      [H2|[= -> ->]%list_elem_of_singleton]%elem_of_app Heq.
    + by eapply Hoa.
    + eapply Hot; [done|done|congruence].
    + symmetry. eapply Hot; [done|done|congruence].
    + done.
  - intros c r l sb [Hin|[= -> ->]%list_elem_of_singleton]%elem_of_app Hl Hsb.
    + by eapply Hor.
    + rewrite Hid in Hl. pose proof (registry_tasks Hc Ht Hl) as <-.
      symmetry. by apply Htc.
Qed.

(** ** The subscribe calls under way *)

Lemma prepared_newHandler chain :
  prepared deps (newHandler chain : Handler Conn) [] [].
Proof.
  split; simpl; try apply NoDup_nil_2; intros;
    by repeat match goal with
              | H : _ ∈ [] |- _ => apply elem_of_nil in H
              end.
Qed.

(** What holds of the calls under way stays so while the handler loses
    tasks and registry entries and its objects keep their connections. *)
Lemma prepared_mono h h' st o :
  drawn h' = drawn h ->
  (forall t, t ∈ tasks h' -> t ∈ tasks h) ->
  (forall i l, subscriptions h' !! i = Some l ->
     subscriptions h !! i = Some l) ->
  (forall l sb, heap h !! l = Some sb ->
     exists sb', heap h' !! l = Some sb' /\ conn sb' = conn sb) ->
  prepared deps h st o -> prepared deps h' st o.
Proof.
  intros Hd Ht Hs Hh [Psd Psc Psr Pst Pso Psi]. split.
  - intros t Hin. destruct (Psd t Hin) as (n & Hn & Hid).
    exists n. split; [lia|done].
  - intros t Hin. destruct (Psc t Hin) as (sb & Hsb & Hconn).
    destruct (Hh _ _ Hsb) as (sb' & Hsb' & Hconn').
    exists sb'. split; [done|congruence].
  - intros t l Hin Hl. by apply Psr; [|apply Hs].
  - intros t t' Hin Hin'. by apply Pst; [|apply Ht].
  - done.
  - done.
Qed.

Lemma prepared_stored h st o w handles job :
  Inj (=) (=) (idgen deps) ->
  consistent deps h -> routed deps h o -> prepared deps h st o ->
  prepared deps
    (Store (nextID deps h).1 (newSubscription w (nextID deps h).2).1
       (newSubscription w (nextID deps h).2).2)
    (st ++ [{| sub := (newSubscription w (nextID deps h).2).1;
               subID := (nextID deps h).1; subConn := w;
               handles := handles; job := job |}]) o.
Proof.
  intros Hinj [Hrd Hra Htd Hta Hrt Hwg] [Hod _ _ _ _ _]
    [Psd Psc Psr Pst Pso Psi].
  set (l := fresh (dom (heap h))).
  assert (Hfresh : heap h !! l = None).
  { apply not_elem_of_dom. apply is_fresh. }
  split; simpl; fold l.
  - intros t [Hin| ->%list_elem_of_singleton]%elem_of_app.
    + eapply drawnID_S; [|by apply Psd]. done.
    + exists (drawn h). simpl. split; [lia|done].
  - intros t [Hin| ->%list_elem_of_singleton]%elem_of_app.
    + destruct (Psc t Hin) as (sb & Hsb & Hconn).
      exists sb. split; [|done].
      rewrite lookup_insert_ne; [done|]. intros Heq. congruence.
    + simpl. eexists. split; [apply lookup_insert_eq|done].
  - intros t l0 [Hin| ->%list_elem_of_singleton]%elem_of_app Hi.
    + rewrite lookup_insert_ne in Hi; [by eapply Psr|].
      intros Heq. by destruct (drawnID_next _ h Hinj (Psd t Hin)).
    + simpl in *. rewrite lookup_insert_eq in Hi. congruence.
  - intros t t' [Hin| ->%list_elem_of_singleton]%elem_of_app Ht'.
    + by eapply Pst.
    + simpl. by apply drawnID_next, Htd.
  - intros t c r [Hin| ->%list_elem_of_singleton]%elem_of_app Hr.
    + by eapply Pso.
    + simpl. by apply drawnID_next, (Hod c r).
  - rewrite fmap_app. simpl. apply NoDup_app.
    split; [done|]. split; [|apply NoDup_singleton].
    intros i Hin ->%list_elem_of_singleton.
    apply list_elem_of_fmap in Hin as (t & Heq & Hin).
    by destruct (drawnID_next _ h Hinj (Psd t Hin)).
Qed.

(** A list without the element at [n]. *)
Lemma delete_middle {A} (l : list A) (n : nat) (x : A) :
  l !! n = Some x -> exists a b, l = a ++ x :: b /\ delete n l = a ++ b.
Proof.
  intros Hn. exists (take n l), (drop (S n) l).
  split; [by rewrite take_drop_middle|apply delete_take_drop].
Qed.

Lemma prepared_Go h st o n t :
  st !! n = Some t ->
  prepared deps h st o -> prepared deps (Go t h) (delete n st) o.
Proof.
  intros Hn [Psd Psc Psr Pst Pso Psi].
  assert (Hsub : forall t0, t0 ∈ delete n st -> t0 ∈ st)
    by (intros t0; apply list_elem_of_delete_inv).
  destruct (delete_middle st n t Hn) as (a & b & Hst & Hdel).
  rewrite Hst, fmap_app, fmap_cons in Psi.
  apply NoDup_app in Psi as (Ha & Hab & Hb).
  apply NoDup_cons in Hb as [Htb Hb].
  assert (Hother : forall t0, t0 ∈ delete n st -> subID t0 <> subID t).
  { intros t0. rewrite Hdel. intros [Hin|Hin]%elem_of_app Heq.
    - apply (Hab (subID t0)); [by apply list_elem_of_fmap_2|].
      rewrite Heq. left.
    - apply Htb. rewrite <- Heq. by apply list_elem_of_fmap_2. }
  split; simpl.
  - intros t0 Hin. by apply Psd, Hsub.
  - intros t0 Hin. destruct (Psc t0 (Hsub _ Hin)) as (sb & Hsb & Hconn).
    destruct (alter_conn
                (fun s => {| cancelled := cancelled s; conn := conn s;
                             wg := S (wg s) |}) (sub t) (sub t0) (heap h) sb)
      as (sb' & Hsb' & Hconn'); [done|done|].
    exists sb'. split; [done|congruence].
  - intros t0 l Hin Hl. by eapply Psr; [apply Hsub|].
  - intros t0 t' Hin [Ht'| ->%list_elem_of_singleton]%elem_of_app.
    + by apply Pst; [apply Hsub|].
    + intros Heq. by destruct (Hother t0 Hin).
  - intros t0 c r Hin. by apply Pso, Hsub.
  - rewrite Hdel, fmap_app. apply NoDup_app. split; [done|].
    split; [|done]. intros i Hi Hi'. apply (Hab i Hi). by right.
Qed.

Lemma prepared_write h st o t resp :
  t ∈ tasks h -> subscription_id resp = subID t ->
  prepared deps h st o -> prepared deps h st (o ++ [(subConn t, resp)]).
Proof.
  intros Ht Hid [Psd Psc Psr Pst Pso Psi]. split; try done.
  intros t0 c r Hin [Hr|[= -> ->]%list_elem_of_singleton]%elem_of_app;
    [by eapply Pso|].
  rewrite Hid. by apply Pst.
Qed.

(** ** The books are kept by every step *)

(** The three records together. *)
Lemma kept_change s s' :
  Inj (=) (=) (idgen deps) ->
  change deps s s' ->
  consistent deps (handler s) /\ routed deps (handler s) (out s)
  /\ prepared deps (handler s) (starting s) (out s) ->
  consistent deps (handler s') /\ routed deps (handler s') (out s')
  /\ prepared deps (handler s') (starting s') (out s').
Proof.
  intros Hinj Hch (Hc & Hr & Hp).
  destruct Hch as [n|w handles job|n t Hn|l|i|n t Hn|n t resp Hn Hid|b c];
    simpl.
  - split_and!.
    + by apply consistent_asked.
    + by apply (routed_mono (handler s)); simpl; eauto.
    + by apply (prepared_mono (handler s)); simpl; eauto.
  - split_and!.
    + by apply consistent_stored.
    + by apply routed_stored.
    + by apply prepared_stored.
  - assert (Hin : t ∈ starting s) by by eapply list_elem_of_lookup_2.
    pose proof Hp as [Psd Psc Psr Pst Pso Psi].
    split_and!.
    + apply consistent_Go; [by apply Psd| |by intros l; apply Psr|done].
      destruct (Psc t Hin) as (sb & Hsb & _). by exists sb.
    + apply routed_Go; [by apply Psc| | |done].
      * intros t' Ht'. by apply Pst.
      * intros c r Hr'. by eapply Pso.
    + by apply prepared_Go.
  - split_and!.
    + by apply consistent_cancel.
    + apply (routed_mono (handler s)); simpl; eauto.
      intros l0 sb. by apply conn_alter.
    + apply (prepared_mono (handler s)); simpl; eauto.
      intros l0 sb. by apply alter_conn.
  - split_and!.
    + by apply consistent_Delete.
    + apply (routed_mono (handler s)); simpl; eauto.
      intros i0 l0 [_ ?]%lookup_delete_Some. done.
    + apply (prepared_mono (handler s)); simpl; eauto.
      intros i0 l0 [_ ?]%lookup_delete_Some. done.
  - split_and!.
    + by apply consistent_Done.
    + apply (routed_mono (handler s)); simpl; eauto.
      * intros t0 ?%list_elem_of_delete_inv. done.
      * intros l0 sb. by apply conn_alter.
    + apply (prepared_mono (handler s)); simpl; eauto.
      * intros t0 ?%list_elem_of_delete_inv. done.
      * intros l0 sb. by apply alter_conn.
  - assert (Hin : t ∈ tasks (handler s)) by by eapply list_elem_of_lookup_2.
    split_and!.
    + done.
    + by apply routed_write.
    + by apply prepared_write.
  - done.
Qed.

Lemma kept_changes s s' :
  Inj (=) (=) (idgen deps) ->
  rtc (change deps) s s' ->
  consistent deps (handler s) /\ routed deps (handler s) (out s)
  /\ prepared deps (handler s) (starting s) (out s) ->
  consistent deps (handler s') /\ routed deps (handler s') (out s')
  /\ prepared deps (handler s') (starting s') (out s').
Proof.
  intros Hinj Hrtc. induction Hrtc as [|s s1 s2 Hch _ IH]; [done|].
  intros Hkept. apply IH. by eapply kept_change.
Qed.

(** ** Every step changes the engine in the ways listed *)

Lemma same_changes (s : World Conn) :
  rtc (change deps) s (withHandler (handler s) s).
Proof.
  apply rtc_once. apply (change_rest (b := broken s) (c := calls s)).
Qed.

Lemma SubscribeNewHeads_changes (s : World Conn) ctx blockID :
  rtc (change deps) s
    (withStored (SubscribeNewHeads_store deps (handler s) ctx blockID) s).
Proof.
  unfold SubscribeNewHeads_store.
  destruct (ConnFromContext ctx) as [w|]; [|apply same_changes].
  destruct (resolveBlockRange _ _ _) as [e|[start latest]];
    [apply same_changes|].
  apply rtc_once. simpl. apply change_stored.
Qed.

Lemma SubscribeEvents_changes (s : World Conn) ctx fromAddr keys blockID :
  rtc (change deps) s
    (withStored
       (SubscribeEvents_store deps (handler s) ctx fromAddr keys blockID) s).
Proof.
  unfold SubscribeEvents_store.
  destruct (ConnFromContext ctx) as [w|]; [|apply same_changes].
  destruct (_ <? _); [apply same_changes|].
  destruct (resolveBlockRange _ _ _) as [e|[start latest]];
    [apply same_changes|].
  apply rtc_once. simpl. apply change_stored.
Qed.

Lemma SubscribePendingTxs_changes (s : World Conn) ctx getDetails senderAddr :
  rtc (change deps) s
    (withStored
       (SubscribePendingTxs_store deps (handler s) ctx getDetails senderAddr)
       s).
Proof.
  unfold SubscribePendingTxs_store.
  destruct (ConnFromContext ctx) as [w|]; [|apply same_changes].
  destruct (_ <? _); [apply same_changes|].
  apply rtc_once. simpl. apply change_stored.
Qed.

Lemma txNotFoundLoop_changes ticks (s : World Conn) txHash e :
  rtc (change deps) s
    (withHandler (txNotFoundLoop deps ticks (handler s) txHash e).2 s).
Proof.
  revert s e. induction ticks as [|ticks IH]; intros s e; simpl;
    [apply same_changes|].
  destruct (transactionStatus deps (asked (handler s)) txHash) as [e'|st];
    simpl.
  - case_bool_decide.
    + apply rtc_once, change_asked.
    + eapply rtc_l; [apply (change_asked (n := S (asked (handler s))))|].
      apply (IH (withHandler _ s) e').
  - apply rtc_once, change_asked.
Qed.

Lemma SubscribeTransactionStatus_changes (s : World Conn) ctx txHash ticks :
  rtc (change deps) s
    (withStored
       (SubscribeTransactionStatus_store deps (handler s) ctx txHash ticks) s).
Proof.
  unfold SubscribeTransactionStatus_store.
  destruct (ConnFromContext ctx) as [w|]; [|apply same_changes]. simpl.
  set (h1 := {| bcReader := bcReader (handler s);
                subscriptions := subscriptions (handler s);
                heap := heap (handler s); drawn := drawn (handler s);
                asked := S (asked (handler s));
                tasks := tasks (handler s) |}).
  assert (H1 : rtc (change deps) s (withHandler h1 s))
    by apply rtc_once, change_asked.
  assert (Hsub : forall h2 (st : TransactionStatus),
            rtc (change deps) s (withHandler h2 s) ->
            rtc (change deps) s
              (withStored
                 (let '(id, h) := nextID deps h2 in
                  let '(sub, h) := newSubscription w h in
                  let h := Store id sub h in
                  (@inr Error _
                     {| sub := sub; subID := id; subConn := w;
                        handles := [(pendingBlock, false); (l1Heads, false);
                                    (reorgs, false)];
                        job := txStatusJob txHash st |}, h)) s)).
  { intros h2 st H2. eapply rtc_r; [exact H2|]. simpl.
    apply (change_stored (s := withHandler h2 s)). }
  destruct (transactionStatus deps (asked (handler s)) txHash) as [e|st];
    simpl.
  - case_bool_decide; [exact H1|].
    pose proof (txNotFoundLoop_changes ticks (withHandler h1 s) txHash e)
      as Hloop.
    simpl in Hloop.
    destruct (txNotFoundLoop _ _ _ _ _) as [[e'|st] h2]; simpl in Hloop.
    + simpl. by etrans.
    + apply (Hsub h2 st). by etrans.
  - exact (Hsub h1 st H1).
Qed.

Lemma Unsubscribe_enter_changes (s : World Conn) tid ctx i :
  rtc (change deps) s
    {| handler := (Unsubscribe_enter deps (handler s) ctx i).2;
       starting := starting s; broken := broken s;
       calls := <[tid := (Unsubscribe_enter deps (handler s) ctx i).1]>
                  (calls s);
       out := out s |}.
Proof.
  unfold Unsubscribe_enter.
  destruct (ConnFromContext ctx) as [w|];
    [|apply rtc_once, change_rest].
  destruct (subscriptions (handler s) !! i) as [l|];
    [|apply rtc_once, change_rest].
  destruct (heap (handler s) !! l) as [sb|];
    [|apply rtc_once, change_rest].
  destruct (negb _); [apply rtc_once, change_rest|].
  eapply rtc_l; [apply (change_cancel (l := l))|].
  apply rtc_once. simpl.
  apply (change_rest (s := withHandler (cancel l (handler s)) s)).
Qed.

Lemma step_changes s s' : step deps s s' -> rtc (change deps) s s'.
Proof.
  intros [ctx blockID|ctx fromAddr keys blockID|ctx getDetails senderAddr
         |ctx txHash ticks|n t Hn|tid ctx i Ht|tid ctx i Ht
         |tid l i c h' Ht Hleave|n t resp Hn Hid|l|n t Hn Hend].
  - apply SubscribeNewHeads_changes.
  - apply SubscribeEvents_changes.
  - apply SubscribePendingTxs_changes.
  - apply SubscribeTransactionStatus_changes.
  - by apply rtc_once, change_go.
  - apply rtc_once, change_rest.
  - apply Unsubscribe_enter_changes.
  - apply Unsubscribe_leave_changes in Hleave as (_ & -> & _).
    eapply rtc_l; [apply (change_delete (i := i))|].
    apply rtc_once.
    apply (change_rest (s := withHandler (Delete i (handler s)) s)).
  - by eapply rtc_once, change_written.
  - apply rtc_once, change_rest.
  - unfold unsubscribe.
    eapply rtc_l; [apply (change_cancel (l := sub t))|].
    eapply rtc_l; [apply (change_delete (i := subID t))|].
    apply rtc_once.
    by apply (change_done
                (s := withHandler
                        (Delete (subID t) (cancel (sub t) (handler s))) s)
                (i := n) (t := t)).
Qed.

Lemma steps_changes s s' : steps deps s s' -> rtc (change deps) s s'.
Proof.
  intros Hsteps. induction Hsteps as [|s s1 s2 Hstep _ IH]; [done|].
  etrans; [by apply step_changes|done].
Qed.

(** From a handler that was just made, the books are kept for ever. *)
Lemma kept_steps chain s :
  Inj (=) (=) (idgen deps) ->
  steps deps (newWorld chain) s ->
  consistent deps (handler s) /\ routed deps (handler s) (out s)
  /\ prepared deps (handler s) (starting s) (out s).
Proof.
  intros Hinj Hsteps%steps_changes.
  eapply kept_changes; [done|done|]. simpl. split_and!.
  - apply consistent_newHandler.
  - apply routed_newHandler.
  - apply prepared_newHandler.
Qed.

Lemma consistent_steps chain s :
  Inj (=) (=) (idgen deps) ->
  steps deps (newWorld chain) s -> consistent deps (handler s).
Proof. intros Hinj Hreach. by destruct (kept_steps chain s Hinj Hreach). Qed.

(** From a handler that was just made, the notifications are always
    routed. *)
Lemma routed_steps chain s :
  Inj (=) (=) (idgen deps) ->
  steps deps (newWorld chain) s -> routed deps (handler s) (out s).
Proof.
  intros Hinj Hreach.
  by destruct (kept_steps chain s Hinj Hreach) as (_ & ? & _).
Qed.

(** X14 — A subscription is never made under an id that is in use: in an
    engine that started from a new handler and whose generator hands each
    id out once, the id the next subscription will get is not in the
    registry, no running task holds it, and nothing was written for it. *)
Theorem new_id_is_unused chain (s : World Conn) :
  Inj (=) (=) (idgen deps) ->
  steps deps (newWorld chain) s ->
  let i := idgen deps (drawn (handler s)) in
  subscriptions (handler s) !! i = None
  /\ Forall (fun t => subID t <> i) (tasks (handler s))
  /\ notificationsFor i (out s) = [].
Proof.
  intros Hinj Hreach i.
  destruct (consistent_steps chain s Hinj Hreach) as [Hrd _ Htd _ _ _].
  destruct (routed_steps chain s Hinj Hreach) as [Hod _ _ _ _ _].
  split_and!.
  - apply eq_None_not_Some. intros [l Hl].
    by destruct (drawnID_next _ _ Hinj (Hrd _ _ Hl)).
  - apply Forall_forall. intros t Ht.
    by apply drawnID_next, Htd.
  - unfold notificationsFor.
    destruct (filter _ (out s)) as [|[c r] rest] eqn:Hf; [done|].
    assert (Hin : (c, r) ∈ filter (fun x => subscription_id x.2 = i) (out s))
      by (rewrite Hf; left).
    apply list_elem_of_filter in Hin as [Heq Hin]. simpl in Heq.
    by destruct (drawnID_next _ _ Hinj (Hod _ _ Hin)).
Qed.

(** X15 — Notifications go to the connection that subscribed: in an engine
    that started from a new handler and whose generator hands each id out
    once, everything that was ever written for one subscription id was
    written to one and the same connection; and while the id is
    registered, that is the connection of the registered subscription, the
    one [Unsubscribe] accepts the id from. *)
Theorem notifications_reach_one_connection chain (s : World Conn) :
  Inj (=) (=) (idgen deps) ->
  steps deps (newWorld chain) s ->
  (forall c1 r1 c2 r2,
     (c1, r1) ∈ out s -> (c2, r2) ∈ out s ->
     subscription_id r1 = subscription_id r2 -> c1 = c2)
  /\ (forall c r l sb,
        (c, r) ∈ out s ->
        subscriptions (handler s) !! subscription_id r = Some l ->
        heap (handler s) !! l = Some sb ->
        c = conn sb).
Proof.
  intros Hinj Hreach.
  destruct (routed_steps chain s Hinj Hreach) as [_ _ _ _ Hoa Hor].
  by split.
Qed.

(** ** What holds of the tasks of an id that was handed out *)

(** No subscription is stored under the id [i] once [i] was handed out: what
    holds of every task about to start, and so of every task there is, and
    of any task with another id, goes on to hold. *)
Lemma held_change (P Q : task Conn -> Prop) i s s' :
  Inj (=) (=) (idgen deps) ->
  (forall t, subID t <> i -> P t) ->
  (forall t, P t -> Q t) ->
  change deps s s' ->
  drawnID deps i (handler s) /\ Forall Q (tasks (handler s))
  /\ Forall P (starting s) ->
  drawnID deps i (handler s') /\ Forall Q (tasks (handler s'))
  /\ Forall P (starting s').
Proof.
  intros Hinj Hother HPQ Hch (Hi & Ht & Hs).
  destruct Hch as [n|w handles job|n t Hn|l|i'|n t Hn|n t resp Hn Hid|b c];
    simpl; try (by split_and!).
  - split_and!; [by eapply drawnID_S|done|].
    apply Forall_app. split; [done|]. apply Forall_singleton, Hother. simpl.
    by apply not_eq_sym, drawnID_next.
  - split_and!; [done| |by apply Forall_delete].
    apply Forall_app. split; [done|]. apply Forall_singleton, HPQ.
    rewrite Forall_lookup in Hs. by eapply Hs.
  - split_and!; [done|by apply Forall_delete|done].
Qed.

Lemma held_changes (P Q : task Conn -> Prop) i s s' :
  Inj (=) (=) (idgen deps) ->
  (forall t, subID t <> i -> P t) ->
  (forall t, P t -> Q t) ->
  rtc (change deps) s s' ->
  drawnID deps i (handler s) /\ Forall Q (tasks (handler s))
  /\ Forall P (starting s) ->
  drawnID deps i (handler s') /\ Forall Q (tasks (handler s'))
  /\ Forall P (starting s').
Proof.
  intros Hinj Hother HPQ Hrtc.
  induction Hrtc as [|s s1 s2 Hch _ IH]; [done|].
  intros Hheld. apply IH. by eapply held_change.
Qed.

(** A step writes nothing for an id that no task holds. *)
Lemma step_out i s s' :
  Forall (fun t => subID t <> i) (tasks (handler s)) ->
  step deps s s' ->
  notificationsFor i (out s') = notificationsFor i (out s).
Proof.
  intros Hsilent [| | | | | | | |n t resp Hn Hid| |]; try done. simpl.
  unfold notificationsFor. rewrite filter_app, filter_cons, filter_nil.
  simpl. rewrite decide_False, app_nil_r; [done|].
  rewrite Hid. rewrite Forall_lookup in Hsilent. by eapply Hsilent.
Qed.

(** Once an id was handed out and neither a task nor a subscribe call under
    way holds it, nothing is written for it any more. *)
Lemma silent_steps i s s' :
  Inj (=) (=) (idgen deps) ->
  drawnID deps i (handler s) ->
  Forall (fun t => subID t <> i) (tasks (handler s)) ->
  Forall (fun t => subID t <> i) (starting s) ->
  steps deps s s' ->
  notificationsFor i (out s') = notificationsFor i (out s).
Proof.
  intros Hinj Hi Hsilent Hstarting Hsteps.
  induction Hsteps as [|s s1 s2 Hstep _ IH]; [done|].
  rewrite <- (step_out i s s1 Hsilent Hstep).
  destruct (held_changes (fun t => subID t <> i) (fun t => subID t <> i)
              i s s1) as (Hi1 & Hsilent1 & Hstarting1);
    [done|done|done|by apply step_changes|done|].
  by apply IH.
Qed.

(** A context that was cancelled stays so. *)
Lemma cancelled_change l s s' :
  change deps s s' ->
  (@cancelled Conn <$> heap (handler s) !! l) = Some true ->
  (@cancelled Conn <$> heap (handler s') !! l) = Some true.
Proof.
  intros [n|w handles job|n t Hn|l'|i'|n t Hn|n t resp Hn Hid|b c] Hl;
    simpl; try done.
  - rewrite lookup_insert_ne; [done|]. intros Heq.
    assert (Hfresh : heap (handler s) !! l = None).
    { rewrite <- Heq. apply not_elem_of_dom. apply is_fresh. }
    by rewrite Hfresh in Hl.
  - destruct (decide (sub t = l)) as [->|Hne].
    + rewrite lookup_alter_eq. by destruct (heap (handler s) !! l).
    + by rewrite lookup_alter_ne.
  - destruct (decide (l' = l)) as [->|Hne].
    + rewrite lookup_alter_eq. by destruct (heap (handler s) !! l).
    + by rewrite lookup_alter_ne.
  - destruct (decide (sub t = l)) as [->|Hne].
    + rewrite lookup_alter_eq. by destruct (heap (handler s) !! l).
    + by rewrite lookup_alter_ne.
Qed.

Lemma cancelled_steps l s s' :
  steps deps s s' ->
  (@cancelled Conn <$> heap (handler s) !! l) = Some true ->
  (@cancelled Conn <$> heap (handler s') !! l) = Some true.
Proof.
  intros Hrtc%steps_changes.
  induction Hrtc as [|s s1 s2 Hch _ IH]; [done|].
  intros Hl. apply IH. by eapply cancelled_change.
Qed.

(** The tasks of a subscription whose context is cancelled can end one
    after the other, for that reason: no connection is closed on the way,
    nothing is written, and no call moves. *)
Lemma drain l n s sb :
  consistent deps (handler s) ->
  heap (handler s) !! l = Some sb -> cancelled sb = true -> wg sb = n ->
  exists s',
    steps deps s s' /\ starting s' = starting s /\ broken s' = broken s
    /\ calls s' = calls s /\ out s' = out s
    /\ exists sb', heap (handler s') !! l = Some sb' /\ wg sb' = 0%nat.
Proof.
  revert s sb.
  induction n as [|n IH]; intros s sb Hc Hsb Hcancelled Hwg.
  { exists s. split; [apply rtc_refl|]. split_and!; try done. by exists sb. }
  pose proof Hc as [_ _ _ _ _ Hcounts].
  pose proof (Hcounts l sb Hsb) as Hcount. rewrite Hwg in Hcount.
  destruct (tasksOf l (handler s)) as [|t ts] eqn:Hts; [done|].
  assert (Ht : t ∈ tasksOf l (handler s)) by (rewrite Hts; left).
  apply list_elem_of_filter in Ht as [Hsub Ht].
  apply list_elem_of_lookup_1 in Ht as [m Hm].
  set (s1 := withHandler
               (Done m (sub t) (unsubscribe (sub t) (subID t) (handler s))) s).
  assert (Hstep : step deps s s1).
  { apply step_exit; [done|]. left. by rewrite Hsub, Hsb, <- Hcancelled. }
  destruct (IH s1 {| cancelled := true; conn := conn sb; wg := n |})
    as (s' & Hsteps & Hstarting & Hbroken & Hcalls & Hout & Hdone).
  - apply consistent_Done; [done|].
    by apply consistent_Delete, consistent_cancel.
  - simpl. rewrite Hsub, !lookup_alter_eq, Hsb. simpl. by rewrite Hwg.
  - done.
  - done.
  - exists s'. split; [by eapply rtc_l|]. by split_and!.
Qed.

(** X28 — What [Unsubscribe] does for a subscription whose subscribe call
    is over.  In an engine that started from a new handler and whose ids are
    handed out once each: for a registered subscription id [i] owned by the
    calling connection, and with no subscribe call for [i] between its
    [Store] and its [sub.wg.Go], [Unsubscribe] cancels the context of the
    subscription and waits.  From then on, whatever else happens, the
    context stays cancelled; the call gets through the wait exactly when no
    task of the subscription runs, and then it deletes [i] from the registry
    and returns [true]; there is always a way for the call to return
    [true], on which no connection is closed; and once it has returned, no
    task and no subscribe call under way holds [i], and nothing is written
    for [i] ever again. *)
Theorem unsubscribe_ends_started_subscription chain (s : World Conn)
    (tid : nat) (ctx : RequestContext Conn) (c : Conn) (i : Z) (l : positive)
    (sb : subscription Conn) :
  Inj (=) (=) (idgen deps) ->
  steps deps (newWorld chain) s ->
  calls s !! tid = Some (Called ctx i) ->
  ConnFromContext ctx = Some c ->
  subscriptions (handler s) !! i = Some l ->
  heap (handler s) !! l = Some sb ->
  Equal deps (conn sb) c = true ->
  Forall (fun t => subID t <> i) (starting s) ->
  let s1 := {| handler := cancel l (handler s); starting := starting s;
               broken := broken s;
               calls := <[tid := Waiting l i]> (calls s); out := out s |} in
  Unsubscribe_enter deps (handler s) ctx i = (Waiting l i, cancel l (handler s))
  /\ step deps s s1
  /\ (forall s2,
        steps deps s1 s2 ->
        calls s2 !! tid = Some (Waiting l i) ->
        let s3 := {| handler := Delete i (handler s2);
                     starting := starting s2; broken := broken s2;
                     calls := <[tid := Returned true None]> (calls s2);
                     out := out s2 |} in
        (@cancelled Conn <$> heap (handler s2) !! l) = Some true
        /\ Unsubscribe_leave (handler s2) l i
           = match tasksOf l (handler s2) with
             | [] => Some (Returned true None, Delete i (handler s2))
             | _ :: _ => None
             end
        /\ (exists s', steps deps s2 s' /\ broken s' = broken s2
                       /\ calls s' !! tid = Some (Returned true None))
        /\ (tasksOf l (handler s2) = [] ->
            step deps s2 s3
            /\ subscriptions (handler s3) !! i = None
            /\ Forall (fun t => subID t <> i) (tasks (handler s3))
            /\ Forall (fun t => subID t <> i) (starting s3)
            /\ forall s4, steps deps s3 s4 ->
                 notificationsFor i (out s4) = notificationsFor i (out s2))).
Proof.
  intros Hinj Hreach Htid Hctx Hi Hl Hequal Hstarted s1.
  assert (Henter : Unsubscribe_enter deps (handler s) ctx i
            = (Waiting l i, cancel l (handler s))).
  { unfold Unsubscribe_enter. by rewrite Hctx, Hi, Hl, Hequal. }
  assert (Hstep : step deps s s1).
  { pose proof (step_enter (deps := deps) tid Htid) as Hstep.
    by rewrite Henter in Hstep. }
  destruct (kept_steps chain s Hinj Hreach) as (Hc & _ & Hp).
  split_and!; [done|done|].
  intros s2 Hsteps Ht2 s3.
  assert (Hreach2 : steps deps (newWorld chain) s2).
  { etrans; [exact Hreach|]. by eapply rtc_l. }
  pose proof (consistent_steps chain s2 Hinj Hreach2) as Hc2.
  assert (Hcancelled : (@cancelled Conn <$> heap (handler s2) !! l)
                       = Some true).
  { apply (cancelled_steps l s1 s2 Hsteps). simpl.
    by rewrite lookup_alter_eq, Hl. }
  destruct (heap (handler s2) !! l) as [sb2|] eqn:Hl2; [|done].
  simpl in Hcancelled. injection Hcancelled as Hcancelled.
  pose proof Hc2 as [_ _ _ _ _ Hcounts2].
  pose proof (Hcounts2 l sb2 Hl2) as Hwg2.
  assert (Hleave : Unsubscribe_leave (handler s2) l i
            = match tasksOf l (handler s2) with
              | [] => Some (Returned true None, Delete i (handler s2))
              | _ :: _ => None
              end).
  { unfold Unsubscribe_leave. rewrite Hl2, Hwg2.
    by destruct (tasksOf l (handler s2)). }
  assert (Hchanges : rtc (change deps) s s2).
  { etrans; [by apply step_changes|by apply steps_changes]. }
  pose proof Hc as [Hrd _ _ _ Hrt _].
  destruct (held_changes (fun t => subID t <> i)
              (fun t => subID t = i -> sub t = l) i s s2)
    as (Hi2 & Hbound & Hstarted2); [done|done|done|done| |].
  { split_and!; [by eapply Hrd| |done].
    apply Forall_forall. intros t Ht Hid. subst i. by apply Hrt. }
  split_and!; [by simpl; f_equal|done| |].
  - destruct (drain l (wg sb2) s2 sb2)
      as (s' & Hsteps' & _ & Hbroken & Hcalls & _ & sb' & Hl' & Hwg');
      [done|done|done|done|].
    exists {| handler := Delete i (handler s'); starting := starting s';
              broken := broken s';
              calls := <[tid := Returned true None]> (calls s');
              out := out s' |}.
    split_and!; [|done|apply lookup_insert_eq].
    eapply rtc_r; [exact Hsteps'|].
    apply (step_leave (deps := deps) (s := s') tid (subs := l) (id := i)).
    + by rewrite Hcalls.
    + unfold Unsubscribe_leave. rewrite Hl'.
      by rewrite bool_decide_eq_true_2.
  - intros Hnone. rewrite Hnone in Hleave.
    assert (Hsilent : Forall (fun t => subID t <> i) (tasks (handler s2))).
    { apply Forall_forall. intros t Ht Hid.
      rewrite Forall_forall in Hbound.
      eapply (filter_nil_not_elem_of _ _ t Hnone); [|done].
      by apply Hbound. }
    split_and!; [|apply lookup_delete_eq|done|done|].
    + by eapply step_leave.
    + intros s4 Hsteps4. by apply (silent_steps i s3 s4 Hinj).
Qed.

End RoutingCoverage.


(** The ids of the fixtures are handed out once each. *)
Lemma counter_inj : Inj (=) (=) subscriptions_fixtures.counter.
Proof. intros a b Hab. unfold subscriptions_fixtures.counter in Hab. lia. Qed.

(** The engine of the fixtures is reached by a subscription, in its two
    halves, and one write of its task. *)
Lemma subscribed_reachable :
  rpcv8.steps subscriptions_fixtures.deps1024
    (rpcv8.newWorld subscriptions_fixtures.chain2048)
    {| rpcv8.handler := subscriptions_fixtures.subscribed;
       rpcv8.starting := []; rpcv8.broken := ∅; rpcv8.calls := ∅;
       rpcv8.out := [] |}.
Proof.
  eapply rtc_l.
  { apply rpcv8.step_newHeads
      with (ctx := subscriptions_fixtures.onConn1) (blockID := None). }
  eapply rtc_l; [|apply rtc_refl].
  exact (rpcv8.step_go (deps := subscriptions_fixtures.deps1024)
           (s := rpcv8.withStored
                   (rpcv8.SubscribeNewHeads_store
                      subscriptions_fixtures.deps1024
                      subscriptions_fixtures.handler0
                      subscriptions_fixtures.onConn1 None)
                   (rpcv8.newWorld subscriptions_fixtures.chain2048))
           (t := subscriptions_fixtures.headsTask1) 0 eq_refl).
Qed.

Lemma notified_reachable :
  rpcv8.steps subscriptions_fixtures.deps1024
    (rpcv8.newWorld subscriptions_fixtures.chain2048)
    subscriptions_fixtures.notified.
Proof.
  eapply rtc_r; [apply subscribed_reachable|].
  exact (rpcv8.step_write (deps := subscriptions_fixtures.deps1024)
           (s := {| rpcv8.handler := subscriptions_fixtures.subscribed;
                    rpcv8.starting := []; rpcv8.broken := ∅;
                    rpcv8.calls := ∅; rpcv8.out := [] |})
           (t := subscriptions_fixtures.headsTask1)
           0 (rpcv8.headerNotification 1 subscriptions_fixtures.head2048)
           eq_refl eq_refl).
Qed.

Lemma unsubscribing_reachable :
  rpcv8.steps subscriptions_fixtures.deps1024
    (rpcv8.newWorld subscriptions_fixtures.chain2048)
    subscriptions_fixtures.unsubscribing.
Proof.
  eapply rtc_r; [apply subscribed_reachable|].
  exact (rpcv8.step_call (deps := subscriptions_fixtures.deps1024)
           (s := {| rpcv8.handler := subscriptions_fixtures.subscribed;
                    rpcv8.starting := []; rpcv8.broken := ∅;
                    rpcv8.calls := ∅; rpcv8.out := [] |})
           0 subscriptions_fixtures.onConn1 1 eq_refl).
Qed.

(** Connection 1 ends its subscription: the call cancels it and waits, and
    there is a way on which it returns [true]. *)
Lemma unsubscribe_ends_started_subscription_witness :
  rpcv8.Unsubscribe_enter subscriptions_fixtures.deps1024
    (rpcv8.handler subscriptions_fixtures.unsubscribing)
    subscriptions_fixtures.onConn1 1
  = (rpcv8.Waiting 1%positive 1,
     rpcv8.cancel 1%positive
       (rpcv8.handler subscriptions_fixtures.unsubscribing))
  /\ exists s',
       rpcv8.steps subscriptions_fixtures.deps1024
         {| rpcv8.handler :=
              rpcv8.cancel 1%positive
                (rpcv8.handler subscriptions_fixtures.unsubscribing);
            rpcv8.starting := []; rpcv8.broken := ∅;
            rpcv8.calls :=
              <[0%nat := rpcv8.Waiting 1%positive 1]>
                (rpcv8.calls subscriptions_fixtures.unsubscribing);
            rpcv8.out := [] |}
         s'
       /\ rpcv8.broken s' = ∅
       /\ rpcv8.calls s' !! 0%nat = Some (rpcv8.Returned true None).
Proof.
  destruct (unsubscribe_ends_started_subscription positive
              subscriptions_fixtures.deps1024
              subscriptions_fixtures.chain2048
              subscriptions_fixtures.unsubscribing 0%nat
              subscriptions_fixtures.onConn1 1%positive 1 1%positive
              subscriptions_fixtures.subscription1
              counter_inj unsubscribing_reachable
              eq_refl eq_refl eq_refl eq_refl eq_refl (Forall_nil_2 _))
    as (Henter & _ & Hwait).
  split; [exact Henter|].
  exact (proj1 (proj2 (proj2 (Hwait _ (rtc_refl _ _) eq_refl)))).
Defined.

(** C4 — A call of [Unsubscribe] that comes between the [Store] and the
    [sub.wg.Go] of a subscribe call returns [true] before the task of the
    subscription has started, and the task writes afterwards.  Connection 1
    subscribes to the status of a transaction and, side by side, calls
    [Unsubscribe] for the id the subscription gets.  The call finds the
    subscription stored and owned by its connection, while no task is in
    the wait group yet: the wait is over at once, and the call deletes the
    entry and returns [true], with nothing written.  Then the subscribe
    call goes on and starts the task, which writes the status it starts
    with to the connection: a notification for the id after [Unsubscribe]
    returned [true], where the wait in [Unsubscribe] is there to let the
    subscription finish before responding. *)
Theorem unsubscribe_before_task_starts :
  rpcv8.steps subscriptions_fixtures.depsReceived
    (rpcv8.newWorld subscriptions_fixtures.chain2048)
    subscriptions_fixtures.racing
  /\ rpcv8.Unsubscribe_enter subscriptions_fixtures.depsReceived
       (rpcv8.handler subscriptions_fixtures.racing)
       subscriptions_fixtures.onConn1 1
     = (rpcv8.Waiting 1%positive 1,
        rpcv8.cancel 1%positive
          (rpcv8.handler subscriptions_fixtures.racing))
  /\ rpcv8.tasksOf 1%positive
       (rpcv8.handler subscriptions_fixtures.racing) = []
  /\ rpcv8.steps subscriptions_fixtures.depsReceived
       subscriptions_fixtures.racing subscriptions_fixtures.returnedEarly
  /\ rpcv8.calls subscriptions_fixtures.returnedEarly !! 0%nat
     = Some (rpcv8.Returned true None)
  /\ rpcv8.notificationsFor 1
       (rpcv8.out subscriptions_fixtures.returnedEarly) = []
  /\ rpcv8.steps subscriptions_fixtures.depsReceived
       subscriptions_fixtures.returnedEarly subscriptions_fixtures.writtenLate
  /\ rpcv8.notificationsFor 1
       (rpcv8.out subscriptions_fixtures.writtenLate)
     = [(1%positive,
         rpcv8.statusNotification 1 9 subscriptions_fixtures.received1)].
Proof.
  split_and!; try reflexivity.
  - eapply rtc_l.
    { apply rpcv8.step_txStatus
        with (ctx := subscriptions_fixtures.onConn1) (txHash := 9)
             (ticks := 0%nat). }
    eapply rtc_l; [|apply rtc_refl].
    exact (rpcv8.step_call (deps := subscriptions_fixtures.depsReceived)
             (s := rpcv8.withStored
                     (rpcv8.SubscribeTransactionStatus_store
                        subscriptions_fixtures.depsReceived
                        subscriptions_fixtures.handler0
                        subscriptions_fixtures.onConn1 9 0)
                     (rpcv8.newWorld subscriptions_fixtures.chain2048))
             0 subscriptions_fixtures.onConn1 1 eq_refl).
  - eapply rtc_l.
    { exact (rpcv8.step_enter (deps := subscriptions_fixtures.depsReceived)
               (s := subscriptions_fixtures.racing) 0
               (ctx := subscriptions_fixtures.onConn1) (id := 1) eq_refl). }
    eapply rtc_l; [|apply rtc_refl].
    exact (rpcv8.step_leave (deps := subscriptions_fixtures.depsReceived)
             (s := {| rpcv8.handler :=
                        rpcv8.cancel 1%positive
                          (rpcv8.handler subscriptions_fixtures.racing);
                      rpcv8.starting := [subscriptions_fixtures.statusTask1];
                      rpcv8.broken := ∅;
                      rpcv8.calls := {[ 0%nat := rpcv8.Waiting 1%positive 1 ]};
                      rpcv8.out := [] |})
             0 (subs := 1%positive) (id := 1) eq_refl eq_refl).
  - eapply rtc_l.
    { exact (rpcv8.step_go (deps := subscriptions_fixtures.depsReceived)
               (s := subscriptions_fixtures.returnedEarly)
               (t := subscriptions_fixtures.statusTask1) 0 eq_refl). }
    eapply rtc_l; [|apply rtc_refl].
    exact (rpcv8.step_write (deps := subscriptions_fixtures.depsReceived)
             (s := {| rpcv8.handler :=
                        rpcv8.handler subscriptions_fixtures.writtenLate;
                      rpcv8.starting := []; rpcv8.broken := ∅;
                      rpcv8.calls := {[ 0%nat := rpcv8.Returned true None ]};
                      rpcv8.out := [] |})
             (t := subscriptions_fixtures.statusTask1)
             0 (rpcv8.statusNotification 1 9
                  subscriptions_fixtures.received1)
             eq_refl eq_refl).
Qed.

(** After the first subscription, the next id is 2: it is not registered,
    and nothing was written for it. *)
Lemma new_id_is_unused_witness :
  rpcv8.subscriptions (rpcv8.handler subscriptions_fixtures.notified) !! 2
  = None
  /\ rpcv8.notificationsFor 2 (rpcv8.out subscriptions_fixtures.notified)
     = [].
Proof.
  destruct (new_id_is_unused positive subscriptions_fixtures.deps1024
              subscriptions_fixtures.chain2048 subscriptions_fixtures.notified
              counter_inj notified_reachable) as (Hreg & _ & Hout).
  split; [exact Hreg|exact Hout].
Defined.

(** What was written for id 1 went to connection 1, the connection of the
    subscription that is registered under it. *)
Lemma notifications_reach_one_connection_witness :
  (1%positive,
   rpcv8.headerNotification 1 subscriptions_fixtures.head2048)
    ∈ rpcv8.out subscriptions_fixtures.notified
  /\ 1%positive = rpcv8.conn subscriptions_fixtures.subscription1.
Proof.
  assert (Hin : (1%positive,
                 rpcv8.headerNotification 1 subscriptions_fixtures.head2048)
                  ∈ rpcv8.out subscriptions_fixtures.notified)
    by apply list_elem_of_here.
  split; [exact Hin|].
  exact (proj2 (notifications_reach_one_connection positive
                  subscriptions_fixtures.deps1024
                  subscriptions_fixtures.chain2048
                  subscriptions_fixtures.notified
                  counter_inj notified_reachable)
           1%positive _ 1%positive subscriptions_fixtures.subscription1
           Hin eq_refl eq_refl).
Defined.

(* ===================================================================== *)
(** * More on sending events                                               *)
(* ===================================================================== *)

Section EventsCoverage.
Import rpcv8.

(** A write either fails and leaves the connection as it is, or adds the
    response to what was written. *)
Lemma Write_cases (resp : SubscriptionResponse) (w : Wire) :
  (exists err, Write resp w = (Some err, w) /\ writesLeft w = Some 0%nat)
  \/ (exists w', Write resp w = (None, w')
               /\ written w' = written w ++ [resp]
               /\ writesLeft w' = pred <$> writesLeft w
               /\ writesLeft w <> Some 0%nat).
Proof.
  unfold Write. destruct (writesLeft w) as [[|n]|] eqn:Hw.
  - left. by eexists.
  - right. by eexists.
  - right. by eexists.
Qed.

(** ** The map of events sent only grows *)

Lemma sendEvents_map (ctx : Ctx) (w : Wire)
    (events : list blockchain.FilteredEvent) (sent : gset SentEvent)
    (id : Z) :
  exists sent',
    (sendEvents ctx w events (Some sent) id).2.2 = Some sent'
    /\ sent ⊆ sent'
    /\ (forall k, k ∈ sent' -> k ∉ sent ->
          exists event, event ∈ events /\ keyOf event = k
                        /\ blockchain.BlockHash event = None).
Proof.
  revert ctx w sent. induction events as [|event events IH];
    intros ctx w sent; simpl.
  { exists sent. split_and!; [done|done|by intros k ? ?]. }
  destruct (poll ctx) as [ctx'|]; simpl.
  2: { exists sent. split_and!; [done|done|by intros k ? ?]. }
  fold (keyOf event). case_bool_decide as Hin.
  { destruct (IH ctx' w sent) as (sent' & Hrun & Hsub & Hnew).
    exists sent'. split_and!; [done|done|].
    intros k Hk Hnk. destruct (Hnew k Hk Hnk) as (e & He & ?).
    exists e. split; [by right|done]. }
  set (sent1 := match blockchain.BlockHash event with
                | None => {[keyOf event]} ∪ sent
                | Some _ => sent ∖ {[keyOf event]}
                end).
  assert (Hsub1 : sent ⊆ sent1).
  { unfold sent1. intros x Hx. destruct (blockchain.BlockHash event).
    - apply elem_of_difference. split; [done|].
      rewrite elem_of_singleton. by intros ->.
    - apply elem_of_union. by right. }
  assert (Hnew1 : forall k, k ∈ sent1 -> k ∉ sent ->
            keyOf event = k /\ blockchain.BlockHash event = None).
  { unfold sent1. intros k Hk Hnk. destruct (blockchain.BlockHash event).
    - by apply elem_of_difference in Hk as [? _].
    - apply elem_of_union in Hk as [Hk|Hk]; [|done].
      by apply elem_of_singleton in Hk. }
  destruct (sendResponse _ w id (emit event)) as [[err|] w1]; simpl.
  { exists sent1. split_and!; [done|done|].
    intros k Hk Hnk. exists event. split; [by left|by apply Hnew1]. }
  destruct (IH ctx' w1 sent1) as (sent' & Hrun & Hsub & Hnew).
  exists sent'. split_and!; [done|by etrans|].
  intros k Hk Hnk. destruct (decide (k ∈ sent1)) as [Hk1|Hk1].
  - exists event. split; [by left|by apply Hnew1].
  - destruct (Hnew k Hk Hk1) as (e & He & ?).
    exists e. split; [by right|done].
Qed.

Lemma processPages_map (ctx : Ctx) (w : Wire) (id : Z) (pages : Pages)
    (sent : gset SentEvent) :
  exists sent',
    (processPages ctx w id pages (Some sent)).2 = Some sent'
    /\ sent ⊆ sent'.
Proof.
  revert ctx w sent.
  induction pages as [|events more IH|events]; intros ctx w sent; simpl.
  - by exists sent.
  - destruct (sendEvents_map ctx w events sent id)
      as (sent1 & Hrun & Hsub & _).
    destruct (sendEvents ctx w events (Some sent) id)
      as [[err|] [[ctx1 w1] m1]]; simpl in *; subst m1.
    + by exists sent1.
    + destruct (IH ctx1 w1 sent1) as (sent' & Hmore & Hsub').
      exists sent'. split; [done|by etrans].
  - destruct (sendEvents_map ctx w events sent id)
      as (sent1 & Hrun & Hsub & _).
    destruct (sendEvents ctx w events (Some sent) id)
      as [err [[ctx1 w1] m1]]; simpl in *; subst m1.
    by exists sent1.
Qed.

(** X16 — The map [eventsPreviouslySent] only grows.  [sendEvents] never
    takes a pair out of the map: the removal for an event with a block hash
    comes only after the pair was found not to be in the map.  What it adds
    are the pairs of events without a block hash (pending ones) among the
    events it is given; and so the map of the loop of an events
    subscription holds every pair it ever held, whatever the context and
    the connection do. *)
Theorem sent_events_only_grow :
  (forall (ctx : Ctx) (w : Wire) (events : list blockchain.FilteredEvent)
     (sent : gset SentEvent) (id : Z),
     exists sent',
       (sendEvents ctx w events (Some sent) id).2.2 = Some sent'
       /\ sent ⊆ sent'
       /\ (forall k, k ∈ sent' -> k ∉ sent ->
             exists event, event ∈ events /\ keyOf event = k
                           /\ blockchain.BlockHash event = None))
  /\ (forall (received : list Received) (ctx : Ctx) (w : Wire)
       (id nextBlock : Z) (sent : gset SentEvent),
        sent ⊆ (eventsLoop received ctx w id nextBlock sent).2).
Proof.
  split; [apply sendEvents_map|].
  induction received as [|[reorg|head pages|pages] received IH];
    intros ctx w id nextBlock sent; simpl.
  - done.
  - destruct (sendReorg w reorg id) as [[err|] w1]; [done|]. apply IH.
  - destruct (processPages_map ctx w id pages sent) as (sent1 & Hrun & Hsub).
    destruct (processPages ctx w id pages (Some sent)) as [[ctx1 w1] m1].
    simpl in Hrun. subst m1. simpl. etrans; [exact Hsub|apply IH].
  - destruct (processPages_map ctx w id pages sent) as (sent1 & Hrun & Hsub).
    destruct (processPages ctx w id pages (Some sent)) as [[ctx1 w1] m1].
    simpl in Hrun. subst m1. simpl. etrans; [exact Hsub|apply IH].
Qed.

(** ** What is written is for the subscription *)

Lemma extends_refl id methods (w : Wire) : extends id methods w w.
Proof. exists []. by rewrite app_nil_r. Qed.

Lemma extends_trans id methods (w1 w2 w3 : Wire) :
  extends id methods w1 w2 -> extends id methods w2 w3 ->
  extends id methods w1 w3.
Proof.
  intros (n1 & H1 & F1) (n2 & H2 & F2). exists (n1 ++ n2).
  split; [by rewrite H2, H1, app_assoc|by apply Forall_app].
Qed.

Lemma sendResponse_extends method (w : Wire) id result methods :
  method ∈ methods ->
  extends id methods w (sendResponse method w id result).2.
Proof.
  intros Hm. unfold sendResponse.
  destruct (Write_cases {| Version := "2.0"; Method := method;
                           subscription_id := id; result := result |} w)
    as [(err & -> & _)|(w' & -> & Hw' & _)]; simpl.
  - apply extends_refl.
  - eexists. split; [done|]. by apply Forall_singleton.
Qed.

Lemma sendEvents_extends methods ctx (w : Wire) events m id :
  "starknet_subscriptionEvents"%string ∈ methods ->
  extends id methods w (sendEvents ctx w events m id).2.1.2.
Proof.
  intros Hm. revert ctx w m.
  induction events as [|event events IH]; intros ctx w m; simpl.
  { apply extends_refl. }
  destruct (poll ctx) as [ctx'|]; simpl; [|apply extends_refl].
  pose proof (sendResponse_extends "starknet_subscriptionEvents" w id
                (emit event) methods Hm) as Hone.
  destruct m as [sent|].
  - case_bool_decide; [apply IH|].
    destruct (sendResponse _ w id (emit event)) as [[err|] w1]; simpl in *;
      [done|]. eapply extends_trans; [exact Hone|apply IH].
  - destruct (sendResponse _ w id (emit event)) as [[err|] w1]; simpl in *;
      [done|]. eapply extends_trans; [exact Hone|apply IH].
Qed.

Lemma processPages_extends methods ctx (w : Wire) id pages m :
  "starknet_subscriptionEvents"%string ∈ methods ->
  extends id methods w (processPages ctx w id pages m).1.2.
Proof.
  intros Hm. revert ctx w m.
  induction pages as [|events more IH|events]; intros ctx w m; simpl.
  - apply extends_refl.
  - pose proof (sendEvents_extends methods ctx w events m id Hm) as Hone.
    destruct (sendEvents ctx w events m id)
      as [[err|] [[ctx1 w1] m1]]; simpl in *; [done|].
    eapply extends_trans; [exact Hone|apply IH].
  - apply (sendEvents_extends methods ctx w events m id Hm).
Qed.

(** X17 — Whatever it is given, whatever its context and its connection do,
    the task of an events subscription only adds to what was written on
    its connection, and everything it adds is a notification of version 2.0
    for its own subscription id, under the method of events or the method
    of reorgs. *)
Theorem events_task_writes_own_id ctx (w : Wire) (id headNumber : Z)
    (first : Pages) (received : list Received) :
  extends id
    ["starknet_subscriptionEvents"%string;
     "starknet_subscriptionReorg"%string]
    w (eventsTask ctx w id headNumber first received).1.1.
Proof.
  set (methods := ["starknet_subscriptionEvents"%string;
                   "starknet_subscriptionReorg"%string]).
  assert (He : "starknet_subscriptionEvents"%string ∈ methods) by by left.
  assert (Hr : "starknet_subscriptionReorg"%string ∈ methods)
    by (right; by left).
  assert (Hloop : forall received ctx (w : Wire) nextBlock sent,
            extends id methods w
              (eventsLoop received ctx w id nextBlock sent).1.1).
  { clear ctx w received.
    induction received as [|[reorg|head pages|pages] received IH];
      intros ctx w nextBlock sent; simpl.
    - apply extends_refl.
    - pose proof (sendResponse_extends "starknet_subscriptionReorg" w id
                    (RReorg {| StartBlockHash := sync.StartBlockHash reorg;
                               StartBlockNum := sync.StartBlockNum reorg;
                               EndBlockHash := sync.EndBlockHash reorg;
                               EndBlockNum := sync.EndBlockNum reorg |})
                    methods Hr) as Hone.
      unfold sendReorg.
      destruct (sendResponse _ w id _) as [[err|] w1]; simpl in *; [done|].
      eapply extends_trans; [exact Hone|apply IH].
    - pose proof (processPages_extends methods ctx w id pages (Some sent) He)
        as Hone.
      destruct (processPages ctx w id pages (Some sent)) as [[ctx1 w1] m1].
      eapply extends_trans; [exact Hone|apply IH].
    - pose proof (processPages_extends methods ctx w id pages (Some sent) He)
        as Hone.
      destruct (processPages ctx w id pages (Some sent)) as [[ctx1 w1] m1].
      eapply extends_trans; [exact Hone|apply IH]. }
  unfold eventsTask.
  pose proof (processPages_extends methods ctx w id first None He) as Hone.
  destruct (processPages ctx w id first None) as [[ctx1 w1] m1].
  eapply extends_trans; [exact Hone|apply Hloop].
Qed.

(** ** Sending without a map, and under a context that ends *)

(** What [sendEvents] without a map does under a context that is not
    cancelled. *)
Lemma sendEvents_nil_run (events : list blockchain.FilteredEvent) (w : Wire)
    (id : Z) :
  exists err w',
    sendEvents None w events None id = (err, (None, w', None))
    /\ written w'
       = written w
         ++ (notificationOf id <$> take (through w (length events)) events)
    /\ (err = None <-> through w (length events) = length events)
    /\ writesLeft w'
       = (fun k => (k - through w (length events))%nat) <$> writesLeft w.
Proof.
  revert w. induction events as [|event events IH]; intros w; simpl.
  { exists None, w. rewrite take_nil, app_nil_r. unfold through.
    destruct (writesLeft w) as [k|]; simpl; split_and!; try done.
    f_equal. lia. }
  unfold sendResponse. fold (notificationOf id event).
  destruct (Write_cases (notificationOf id event) w)
    as [(err & -> & Hw)|(w1 & -> & Hw1 & Hleft & Hw)]; simpl.
  - exists (Some err), w. unfold through. rewrite Hw. simpl.
    rewrite app_nil_r. split_and!; [done|done|split; [done|lia]|done].
  - destruct (IH w1) as (err & w' & -> & Hwritten & Hok & Hleft').
    exists err, w'.
    assert (Hthrough : through w (S (length events))
                       = S (through w1 (length events))).
    { unfold through. rewrite Hleft.
      by destruct (writesLeft w) as [[|k]|]. }
    rewrite Hthrough. simpl. split_and!; [done| | |].
    + by rewrite Hwritten, Hw1, <- app_assoc.
    + rewrite Hok. split; [by intros ->|by intros [= ->]].
    + rewrite Hleft', Hleft. by destruct (writesLeft w) as [[|k]|].
Qed.

(** X18 — Without a map (the range up to the head, which is sent first) and
    under a context that is not cancelled, [sendEvents] writes one
    notification for each event, in the order of the events and repeats
    included, for as long as the connection takes writes: of [n] events, on
    a connection that takes [k] more writes, the first [min n k] are
    written; and it returns no error exactly when all were written. *)
Theorem send_events_without_map (events : list blockchain.FilteredEvent)
    (w : Wire) (id : Z) :
  let r := sendEvents None w events None id in
  written r.2.1.2
  = written w
    ++ (notificationOf id <$> take (through w (length events)) events)
  /\ (r.1 = None <-> through w (length events) = length events).
Proof.
  intros r. subst r.
  destruct (sendEvents_nil_run events w id)
    as (err & w' & -> & Hwritten & Hok & _).
  by split.
Qed.

(** X19 — The context is looked at before each event.  Under a context that
    is cancelled after [n] more looks, [sendEvents] writes at most [n]
    notifications, and with more than [n] events it returns an error; under
    a context that is cancelled already, it writes nothing, changes nothing
    and returns the error of the context, unless there is no event at all:
    then it returns no error. *)
Theorem send_events_cancelled (n : nat)
    (events : list blockchain.FilteredEvent) (w : Wire)
    (m : option (gset SentEvent)) (id : Z) :
  let r := sendEvents (Some n) w events m id in
  (length (written r.2.1.2) <= length (written w) + n)%nat
  /\ ((n < length events)%nat -> is_Some r.1)
  /\ (n = 0%nat -> events <> [] ->
      r = (Some "context canceled"%string, (Some 0%nat, w, m)))
  /\ (events = [] -> r = (None, (Some n, w, m))).
Proof.
  revert n w m. induction events as [|event events IH]; intros n w m; simpl.
  { split_and!; [lia|lia|done|done]. }
  destruct n as [|n]; simpl.
  { split_and!; [lia|by eexists|done|done]. }
  assert (Hsent : forall w1 m1,
            (length (written w1) <= length (written w) + 1)%nat ->
            let r := sendEvents (Some n) w1 events m1 id in
            (length (written r.2.1.2) <= length (written w) + S n)%nat
            /\ ((S n < S (length events))%nat -> is_Some r.1)
            /\ (S n = 0%nat -> event :: events <> [] ->
                r = (Some "context canceled"%string, (Some 0%nat, w, m)))
            /\ (event :: events = [] -> r = (None, (Some (S n), w, m)))).
  { intros w1 m1 Hlen. destruct (IH n w1 m1) as (Hl & He & _).
    split_and!; [simpl in *; lia|intros ?; apply He; lia|done|done]. }
  assert (Hwrite : forall m1,
            let r :=
              match sendResponse "starknet_subscriptionEvents" w id
                      (emit event) with
              | (Some err, w) => (Some err, (Some n, w, m1))
              | (None, w) => sendEvents (Some n) w events m1 id
              end in
            (length (written r.2.1.2) <= length (written w) + S n)%nat
            /\ ((S n < S (length events))%nat -> is_Some r.1)
            /\ (S n = 0%nat -> event :: events <> [] ->
                r = (Some "context canceled"%string, (Some 0%nat, w, m)))
            /\ (event :: events = [] -> r = (None, (Some (S n), w, m)))).
  { intros m1. unfold sendResponse.
    destruct (Write_cases (notificationOf id event) w)
      as [(err & Hrun & _)|(w' & Hrun & Hw' & _)];
      unfold notificationOf in Hrun; rewrite Hrun.
    - simpl. split_and!; [lia|by eexists|done|done].
    - apply Hsent. rewrite Hw', length_app. simpl. lia. }
  destruct m as [sent|]; [|apply Hwrite].
  case_bool_decide; [apply Hsent; lia|apply Hwrite].
Qed.

(** ** Events of blocks that are confirmed *)

(** X20 — Only what came first from a pending block is remembered: for an
    event that is not in the map and that comes with a block hash every
    time it comes, [sendEvents] with a map (on a connection whose peer
    stays, under a context that is not cancelled) writes a notification
    each time, and the event is not in the map afterwards. *)
Theorem confirmed_events_are_sent_again (k : SentEvent) (id : Z)
    (events : list blockchain.FilteredEvent) (sent : gset SentEvent)
    (w : Wire) :
  writesLeft w = None ->
  k ∉ sent ->
  (forall event, event ∈ events -> keyOf event = k ->
     is_Some (blockchain.BlockHash event)) ->
  exists sent' w',
    sendEvents None w events (Some sent) id = (None, (None, w', Some sent'))
    /\ (k ∉ sent')
    /\ notificationsOf k (written w')
       = notificationsOf k (written w)
         ++ (notificationOf id
               <$> filter (fun event => keyOf event = k) events).
Proof.
  revert sent w. induction events as [|event events IH];
    intros sent w Hw Hk Hconfirmed.
  { exists sent, w. by rewrite filter_nil, app_nil_r. }
  assert (Hrest : forall e, e ∈ events -> keyOf e = k ->
            is_Some (blockchain.BlockHash e)).
  { intros e He. apply Hconfirmed. by right. }
  simpl. fold (keyOf event). rewrite filter_cons.
  case_bool_decide as Hin.
  { rewrite decide_False by (intros <-; done). by apply IH. }
  unfold sendResponse, Write. rewrite Hw. fold (notificationOf id event).
  set (sent1 := match blockchain.BlockHash event with
                | None => _ | Some _ => _ end).
  set (w1 := {| written := _; writesLeft := None |}).
  assert (Hk1 : k ∉ sent1).
  { unfold sent1. destruct (decide (keyOf event = k)) as [Heq|Hne].
    - destruct (Hconfirmed event ltac:(by left) Heq) as [hash ->].
      by intros [? _]%elem_of_difference.
    - destruct (blockchain.BlockHash event).
      + by intros [? _]%elem_of_difference.
      + intros [?%elem_of_singleton|?]%elem_of_union; congruence. }
  destruct (IH sent1 w1 eq_refl Hk1 Hrest) as (sent' & w' & -> & Hk' & Hout).
  exists sent', w'. split_and!; [done|done|].
  rewrite Hout. unfold w1; simpl.
  rewrite notificationsOf_snoc, isFrom_notificationOf.
  case_decide as Heq.
  - rewrite bool_decide_eq_true_2 by done. by rewrite <- app_assoc.
  - by rewrite bool_decide_eq_false_2 by done.
Qed.

(** X27 — The range that is sent first: without a map and under a context
    that is not cancelled, [processEvents] writes one notification for each
    event the filter gives, page after page, in the order of the filter and
    repeats included, up to the first page that cannot be had and for as
    long as the connection takes writes: of [n] events in all, on a
    connection that takes [k] more writes, the first [min n k]. *)
Theorem historical_events_in_order (pages : Pages) (w : Wire) (id : Z) :
  let events := eventsOfPages pages in
  written (processPages None w id pages None).1.2
  = written w
    ++ (notificationOf id <$> take (through w (length events)) events).
Proof.
  revert w. induction pages as [|events more IH|events]; intros w; simpl.
  - by rewrite take_nil, app_nil_r.
  - destruct (sendEvents_nil_run events w id)
      as (err & w1 & -> & Hwritten & Hok & Hleft).
    rewrite length_app.
    destruct err as [err|]; simpl.
    + rewrite Hwritten. do 2 f_equal.
      assert (Hlt : (through w (length events) < length events)%nat).
      { assert (through w (length events) <= length events)%nat
          by (unfold through; destruct (writesLeft w); lia).
        destruct (decide (through w (length events) = length events))
          as [Heq|Hne]; [|lia].
        apply Hok in Heq. done. }
      assert (Hsame : through w (length events + length (eventsOfPages more))
                      = through w (length events)).
      { revert Hlt. unfold through. destruct (writesLeft w); lia. }
      rewrite Hsame. by rewrite take_app_le by lia.
    + rewrite IH, Hwritten. rewrite <- app_assoc, <- fmap_app. do 2 f_equal.
      assert (Hall : through w (length events) = length events)
        by by apply Hok.
      rewrite Hall, firstn_all.
      assert (Hrest : through w
                        (length events + length (eventsOfPages more))
                      = (length events
                         + through w1 (length (eventsOfPages more)))%nat).
      { rewrite Hall in Hleft. revert Hall. unfold through. rewrite Hleft.
        destruct (writesLeft w); simpl; lia. }
      by rewrite Hrest, take_app_add.
  - destruct (sendEvents_nil_run events w id)
      as (err & w1 & -> & Hwritten & _). done.
Qed.

End EventsCoverage.

(** The event of block 11 comes twice, and is written twice. *)
Lemma confirmed_events_are_sent_again_witness :
  exists sent' w',
    rpcv8.sendEvents None subscriptions_fixtures.freshWire
      [subscriptions_fixtures.confirmedEvent;
       subscriptions_fixtures.confirmedEvent] (Some ∅) 1
    = (None, (None, w', Some sent'))
    /\ ((7, 0) ∉ sent')
    /\ rpcv8.notificationsOf (7, 0) (rpcv8.written w')
       = [rpcv8.notificationOf 1 subscriptions_fixtures.confirmedEvent;
          rpcv8.notificationOf 1 subscriptions_fixtures.confirmedEvent].
Proof.
  apply (confirmed_events_are_sent_again (7, 0) 1
           [subscriptions_fixtures.confirmedEvent;
            subscriptions_fixtures.confirmedEvent] ∅
           subscriptions_fixtures.freshWire eq_refl).
  - apply not_elem_of_empty.
  - intros event Hin _.
    apply elem_of_cons in Hin as [->|Hin]; [by eexists|].
    apply list_elem_of_singleton in Hin as ->. by eexists.
Defined.

(* ===================================================================== *)
(** * New heads, reorgs and pending transactions                           *)
(* ===================================================================== *)

Section HeadsCoverage.
Import rpcv8.

(** X21 — [sendHistoricalHeaders] from a start header at or below the
    latest one: when the chain has the header of each number between the
    two, the peer of the connection stays and the context is not cancelled,
    the loop returns, without error, after it has written the start header
    and then the header of every number up to that of the latest header,
    each once, in rising order: one more than the two numbers are apart.
    The header of the start is the one it was given; the others are
    those of the chain. *)
Theorem historical_headers_in_order
    (BlockHeaderByNumber : Z -> jsonrpc.goerror + core.Header)
    (headers : Z -> core.Header) (start latest : core.Header) (w : Wire)
    (id : Z) (fuel : nat) :
  writesLeft w = None ->
  0 <= core.Number start <= core.Number latest ->
  core.Number latest < 2 ^ 64 ->
  (forall n, core.Number start < n <= core.Number latest ->
     BlockHeaderByNumber n = inr (headers n)
     /\ core.Number (headers n) = n) ->
  (Z.to_nat (core.Number latest - core.Number start) < fuel)%nat ->
  exists w',
    sendHistoricalHeaders fuel BlockHeaderByNumber None start latest w id
    = Some (None, (None, w'))
    /\ writesLeft w' = None
    /\ written w'
       = written w
         ++ (headerNotification id
               <$> start
                   :: (headers
                         <$> seqZ (core.Number start + 1)
                               (core.Number latest - core.Number start))).
Proof.
  revert start w. induction fuel as [|fuel IH];
    intros start w Hw Hrange Hmax Hchain Hfuel; [lia|].
  simpl. unfold sendHeader, sendResponse, Write. rewrite Hw.
  fold (headerNotification id start).
  set (w1 := {| written := _; writesLeft := None |}).
  destruct (Z.eqb_spec (core.Number start) (core.Number latest)) as [Heq|Hne].
  { exists w1. split_and!; [done|done|].
    by rewrite Heq, Z.sub_diag. }
  rewrite Z.mod_small by lia.
  destruct (Hchain (core.Number start + 1) ltac:(lia)) as [-> Hnext].
  destruct (IH (headers (core.Number start + 1)) w1 eq_refl)
    as (w' & -> & Hw' & Hwritten).
  - lia.
  - done.
  - intros n Hn. apply Hchain. lia.
  - lia.
  - exists w'. split_and!; [done|done|].
    rewrite Hwritten, Hnext. unfold w1; simpl.
    rewrite <- app_assoc. simpl. do 2 f_equal.
    rewrite (seqZ_cons (core.Number start + 1)) by lia.
    simpl. do 3 f_equal. f_equal; lia.
Qed.

Lemma processNewHeaders_written (received : list core.Header) (w : Wire)
    (id : Z) :
  written (processNewHeaders received w id)
  = written w
    ++ (headerNotification id <$> take (through w (length received)) received).
Proof.
  revert w. induction received as [|head received IH]; intros w; simpl.
  { by rewrite take_nil, app_nil_r. }
  unfold sendHeader, sendResponse. fold (headerNotification id head).
  destruct (Write_cases (headerNotification id head) w)
    as [(err & -> & Hw)|(w' & -> & Hw' & Hleft & Hw)]; simpl.
  - unfold through. rewrite Hw. simpl. by rewrite app_nil_r.
  - rewrite IH, Hw'. unfold through. rewrite Hleft.
    destruct (writesLeft w) as [[|k]|]; simpl; [done| |];
      by rewrite <- app_assoc.
Qed.

Lemma processReorgs_written (received : list sync.ReorgBlockRange)
    (w : Wire) (id : Z) :
  written (processReorgs received w id)
  = written w
    ++ (reorgNotification id <$> take (through w (length received)) received).
Proof.
  revert w. induction received as [|reorg received IH]; intros w; simpl.
  { by rewrite take_nil, app_nil_r. }
  unfold sendReorg, sendResponse. fold (reorgNotification id reorg).
  destruct (Write_cases (reorgNotification id reorg) w)
    as [(err & -> & Hw)|(w' & -> & Hw' & Hleft & Hw)]; simpl.
  - unfold through. rewrite Hw. simpl. by rewrite app_nil_r.
  - rewrite IH, Hw'. unfold through. rewrite Hleft.
    destruct (writesLeft w) as [[|k]|]; simpl; [done| |];
      by rewrite <- app_assoc.
Qed.

(** X22 — [processNewHeaders] and [processReorgs] pass on what they
    receive, one notification for each header and for each reorg, in the
    order received and with the fields of the reorg as they came, until a
    write fails: of [n] received on a connection that takes [k] more
    writes, the first [min n k] are written, and nothing after the write
    that failed. *)
Theorem feeds_forwarded_in_order (w : Wire) (id : Z) :
  (forall received : list core.Header,
     written (processNewHeaders received w id)
     = written w
       ++ (headerNotification id
             <$> take (through w (length received)) received))
  /\ (forall received : list sync.ReorgBlockRange,
        written (processReorgs received w id)
        = written w
          ++ (reorgNotification id
                <$> take (through w (length received)) received)).
Proof.
  split; intros received;
    [apply processNewHeaders_written|apply processReorgs_written].
Qed.

End HeadsCoverage.

(** From block 5 to the head at block 8: four headers, in order. *)
Lemma historical_headers_in_order_witness :
  exists w',
    rpcv8.sendHistoricalHeaders 4 subscriptions_fixtures.everyBlock None
      (subscriptions_fixtures.headerOf 5) (subscriptions_fixtures.headerOf 8)
      subscriptions_fixtures.freshWire 1
    = Some (None, (None, w'))
    /\ rpcv8.writesLeft w' = None
    /\ rpcv8.written w'
       = rpcv8.headerNotification 1 <$>
           [subscriptions_fixtures.headerOf 5;
            subscriptions_fixtures.headerOf 6;
            subscriptions_fixtures.headerOf 7;
            subscriptions_fixtures.headerOf 8].
Proof.
  apply (historical_headers_in_order subscriptions_fixtures.everyBlock
           subscriptions_fixtures.headerOf
           (subscriptions_fixtures.headerOf 5)
           (subscriptions_fixtures.headerOf 8)
           subscriptions_fixtures.freshWire 1 4 eq_refl).
  - simpl. lia.
  - simpl. lia.
  - intros n _. split; reflexivity.
  - simpl. lia.
Defined.

Section PendingTxsCoverage.
Import rpcv8.
Context {Transaction : Type}.
Variable AdaptTransaction : coretx.Transaction -> Transaction.

Lemma filterTxBySender_sentBy (txn : coretx.Transaction)
    (senderAddr : list Felt) :
  filterTxBySender txn senderAddr = true
  <-> senderAddr = [] \/ sentBy senderAddr txn.
Proof.
  unfold filterTxBySender, sentBy. destruct senderAddr as [|addr addrs].
  { split; [by left|done]. }
  remember (addr :: addrs) as senderAddr eqn:Hs. simpl.
  rewrite Hs at 1. simpl.
  assert (Hin : forall sender : Felt,
            existsb (fun addr => sender =? addr) senderAddr = true
            <-> sender ∈ senderAddr).
  { intros sender. rewrite existsb_exists. split.
    - intros (a & Ha%list_elem_of_In & ->%Z.eqb_eq). done.
    - intros Hin. exists sender.
      split; [by apply list_elem_of_In|apply Z.eqb_refl]. }
  destruct txn as [hash sender|hash sender|hash]; rewrite ?Hin;
    split; try (intros [?|?]; [by subst|done]); auto; done.
Qed.

(** A loop that appends what passes a test is a filter. *)
Lemma fold_left_filter {A B : Type} (p : A -> bool) (f : A -> B)
    (l : list A) (acc : list B) :
  fold_left (fun acc x => if p x then acc ++ [f x] else acc) l acc
  = acc ++ (f <$> filter (fun x => p x = true) l).
Proof.
  revert acc. induction l as [|x l IH]; intros acc; simpl.
  { by rewrite app_nil_r. }
  rewrite IH, filter_cons. destruct (p x); simpl; [|done].
  by rewrite <- app_assoc.
Qed.

(** X23 — The filter of pending transactions.  [filterTxBySender] lets a
    transaction through exactly when the sender list is empty, or it is an
    invoke or a declare transaction whose sender is in the list: with a list
    that is not empty, a transaction of any other type is dropped.
    [filterTxs] gives, in the order of the block and without repeats being
    taken out, the details of the transactions let through or, when details
    are not asked for, their hashes; so both ways answer for the same
    transactions, and with an empty sender list for all of them. *)
Theorem pending_txs_filter (pendingTxs : list coretx.Transaction)
    (senderAddr : list Felt) :
  let selected :=
    filter (fun txn => filterTxBySender txn senderAddr = true) pendingTxs in
  (forall txn,
     filterTxBySender txn senderAddr = true
     <-> senderAddr = [] \/ sentBy senderAddr txn)
  /\ filterTxs AdaptTransaction pendingTxs true senderAddr
     = (fun txn => inl (AdaptTransaction txn)) <$> selected
  /\ filterTxs AdaptTransaction pendingTxs false senderAddr
     = (fun txn => inr (coretx.Hash txn)) <$> selected
  /\ (senderAddr = [] -> selected = pendingTxs)
  /\ (senderAddr <> [] ->
      forall hash, coretx.OtherTransaction hash ∉ selected).
Proof.
  intros selected. subst selected. split_and!.
  - intros txn. apply filterTxBySender_sentBy.
  - unfold filterTxs, filterTxDetails.
    rewrite fold_left_filter. simpl. by rewrite <- list_fmap_compose.
  - unfold filterTxs, filterTxHashes.
    rewrite fold_left_filter. simpl. by rewrite <- list_fmap_compose.
  - intros ->. induction pendingTxs as [|txn txs IH]; [done|].
    rewrite filter_cons, decide_True by done. by rewrite IH.
  - intros Hne hash [Hpass _]%list_elem_of_filter.
    apply filterTxBySender_sentBy in Hpass as [?|[]]. done.
Qed.

End PendingTxsCoverage.

(* ===================================================================== *)
(** * The task of a transaction status subscription                       *)
(* ===================================================================== *)

Section TxStatusCoverage.
Import rpcv8.
Variable TxnStatusRejected : Z.
Variable TxnStatusAcceptedOnL2 : Z.
Variable TxnStatusAcceptedOnL1 : Z.
Variable TxnAcceptedOnL1 : Z.

Lemma finalitiesFor_app (id : Z) (l1 l2 : list SubscriptionResponse) :
  finalitiesFor id (l1 ++ l2) = finalitiesFor id l1 ++ finalitiesFor id l2.
Proof. apply omap_app. Qed.

Lemma finalitiesFor_status (id : Z) (txHash : Felt)
    (status : TransactionStatus) :
  finalitiesFor id [statusNotification id txHash status] = [Finality status].
Proof. unfold finalitiesFor. simpl. by rewrite Z.eqb_refl. Qed.

Lemma sorted_snoc (l : list Z) (x : Z) :
  StronglySorted Z.lt l -> Forall (fun y => y < x) l ->
  StronglySorted Z.lt (l ++ [x]).
Proof.
  induction 1 as [|y l Hl IH Hy]; intros Hx; simpl.
  - repeat constructor.
  - apply Forall_cons in Hx as [Hyx Hx]. constructor; [by apply IH|].
    apply Forall_app. split; [done|]. by apply Forall_singleton.
Qed.

Lemma rising_mono (f f' : Z) (received : list StatusReceived) :
  f <= f' -> rising TxnAcceptedOnL1 f' received ->
  rising TxnAcceptedOnL1 f received.
Proof.
  revert f f'. induction received as [|[[e|st]|[e|r]|reorg] received IH];
    intros f f' Hle; simpl; try done; try by apply IH.
  - intros [? ?]. split; [lia|done].
  - intros [Hl1 ?]. split; [|by eapply IH].
    intros Heq. specialize (Hl1 Heq). lia.
Qed.

(** The loops only add to what was written. *)
Lemma statusLoops_extends received running (w : Wire) id txHash cur :
  exists rest,
    written (statusLoops TxnStatusRejected TxnStatusAcceptedOnL2
               TxnStatusAcceptedOnL1 TxnAcceptedOnL1 received running w id
               txHash cur)
    = written w ++ rest.
Proof.
  revert running w cur.
  assert (Hmore : forall (w w1 w2 : Wire) l,
            written w1 = written w ++ l ->
            (exists rest, written w2 = written w1 ++ rest) ->
            exists rest, written w2 = written w ++ rest).
  { intros w w1 w2 l H1 [rest H2]. exists (l ++ rest).
    by rewrite H2, H1, app_assoc. }
  induction received as [|[[e|st]|[e|r]|reorg] received IH];
    intros [a b] w cur; simpl.
  - exists []. by rewrite app_nil_r.
  - destruct a; simpl; [|apply IH]. destruct (_ <? _); apply IH.
  - destruct a; simpl; [|apply IH].
    destruct (_ <? _); [|apply IH]. destruct (_ <? _); [|apply IH].
    unfold sendTxnStatus, sendResponse.
    destruct (Write_cases (statusNotification id txHash st) w)
      as [(err & Hrun & _)|(w' & Hrun & Hw' & _)];
      unfold statusNotification in Hrun; rewrite Hrun; [apply IH|].
    destruct (isFinal _ _ _); eapply Hmore; try exact Hw'; apply IH.
  - destruct a; simpl; apply IH.
  - destruct a; simpl; [|apply IH]. destruct (_ =? _); [|apply IH].
    unfold sendTxnStatus, sendResponse.
    set (n := {| Version := _; Method := _; subscription_id := _;
                 result := _ |}).
    destruct (Write_cases n w)
      as [(err & -> & _)|(w' & -> & Hw' & _)]; [apply IH|].
    eapply Hmore; [exact Hw'|apply IH].
  - destruct b; simpl; [|apply IH].
    unfold sendReorg, sendResponse.
    destruct (Write_cases (reorgNotification id reorg) w)
      as [(err & Hrun & _)|(w' & Hrun & Hw' & _)];
      unfold reorgNotification in Hrun; rewrite Hrun; [apply IH|].
    eapply Hmore; [exact Hw'|apply IH].
Qed.

(** X24 — The task of a transaction status subscription begins with the
    status the subscription was made with: that is the first thing it
    writes, whatever it receives.  If the write fails, or if that status is
    final already (rejected, or accepted on L1), the task ends there: the
    two loops are not started, and nothing else is written, whatever the
    feeds bring. *)
Theorem tx_status_task_starts_with_status (received : list StatusReceived)
    (w : Wire) (id : Z) (txHash : Felt) (curStatus : TransactionStatus) :
  let task :=
    statusTask TxnStatusRejected TxnStatusAcceptedOnL2 TxnStatusAcceptedOnL1
      TxnAcceptedOnL1 received w id txHash curStatus in
  let first := statusNotification id txHash curStatus in
  (exists rest,
     written task = written w ++ take (through w 1) [first] ++ rest)
  /\ (isFinal TxnStatusRejected TxnStatusAcceptedOnL1 curStatus = true
      \/ writesLeft w = Some 0%nat ->
      written task = written w ++ take (through w 1) [first]).
Proof.
  intros task first. subst task first.
  unfold statusTask, sendTxnStatus, sendResponse.
  destruct (Write_cases (statusNotification id txHash curStatus) w)
    as [(err & Hrun & Hw)|(w' & Hrun & Hw' & _ & Hw)];
    unfold statusNotification in Hrun; rewrite Hrun;
    fold (statusNotification id txHash curStatus).
  - unfold through. rewrite Hw. simpl. rewrite app_nil_r.
    split; [exists []; by rewrite app_nil_r|done].
  - assert (Hone : through w 1 = 1%nat).
    { unfold through. by destruct (writesLeft w) as [[|k]|]. }
    rewrite Hone. simpl.
    destruct (isFinal _ _ _) eqn:Hfinal.
    + split; [exists []; by rewrite Hw'|by rewrite Hw'].
    + split; [|by intros [?|?]].
      destruct (statusLoops_extends received (true, true) w' id txHash
                  curStatus) as [rest ->].
      exists rest. by rewrite Hw', <- app_assoc.
Qed.

(** What the loops write once the statuses written so far rise and are at
    most as final as the status held. *)
Lemma statusLoops_rise received running (w : Wire) id txHash cur :
  StronglySorted Z.lt (finalitiesFor id (written w)) ->
  (running.1 = true ->
   Forall (fun f => f <= Finality cur) (finalitiesFor id (written w))
   /\ rising TxnAcceptedOnL1 (Finality cur) received) ->
  StronglySorted Z.lt
    (finalitiesFor id
       (written (statusLoops TxnStatusRejected TxnStatusAcceptedOnL2
                   TxnStatusAcceptedOnL1 TxnAcceptedOnL1 received running w
                   id txHash cur))).
Proof.
  revert running w cur.
  assert (Hsnoc : forall (w w' : Wire) st f,
            written w' = written w ++ [statusNotification id txHash st] ->
            StronglySorted Z.lt (finalitiesFor id (written w)) ->
            Forall (fun x => x <= f) (finalitiesFor id (written w)) ->
            f < Finality st ->
            StronglySorted Z.lt (finalitiesFor id (written w'))
            /\ Forall (fun x => x <= Finality st)
                 (finalitiesFor id (written w'))).
  { intros w w' st f -> Hs Hb Hlt.
    rewrite finalitiesFor_app, finalitiesFor_status. split.
    - apply sorted_snoc; [done|].
      eapply Forall_impl; [exact Hb|]. simpl. lia.
    - apply Forall_app. split; [|by apply Forall_singleton].
      eapply Forall_impl; [exact Hb|]. simpl. lia. }
  induction received as [|[[e|st]|[e|r]|reorg] received IH];
    intros [a b] w cur Hs Hrun; simpl in *.
  - done.
  - destruct a; simpl; [|by apply IH].
    destruct (Hrun eq_refl) as [Hb Hr].
    destruct (_ <? _); by apply IH.
  - destruct a; simpl; [|by apply IH].
    destruct (Hrun eq_refl) as [Hb [Hle Hr]].
    destruct (Finality cur <? TxnStatusAcceptedOnL2).
    2: { apply IH; [done|]. intros _. split; [done|].
         by apply (rising_mono _ (Finality st)). }
    destruct (Z.ltb_spec (Finality cur) (Finality st)) as [Hlt|Hge].
    2: { apply IH; [done|]. intros _. split; [|done].
         eapply Forall_impl; [exact Hb|]. simpl. lia. }
    unfold sendTxnStatus, sendResponse.
    destruct (Write_cases (statusNotification id txHash st) w)
      as [(err & Hw & _)|(w' & Hw & Hw' & _)];
      unfold statusNotification in Hw; rewrite Hw; [by apply IH|].
    destruct (Hsnoc w w' st (Finality cur) Hw' Hs Hb Hlt) as [Hs' Hb'].
    destruct (isFinal _ _ _); by apply IH.
  - destruct a; simpl; by apply IH.
  - destruct a; simpl; [|by apply IH].
    destruct (Hrun eq_refl) as [Hb [Hl1 Hr]].
    destruct (Z.eqb_spec (FinalityStatus r) TxnAcceptedOnL1) as [Heq|Hne];
      [|by apply IH].
    unfold sendTxnStatus, sendResponse.
    fold (statusNotification id txHash
            {| Finality := FinalityStatus r;
               Execution := ExecutionStatus r |}).
    destruct (Write_cases
                (statusNotification id txHash
                   {| Finality := FinalityStatus r;
                      Execution := ExecutionStatus r |}) w)
      as [(err & -> & _)|(w' & -> & Hw' & _)]; [by apply IH|].
    apply IH; [|done].
    by destruct (Hsnoc w w' _ (Finality cur) Hw' Hs Hb (Hl1 Heq)).
  - assert (Hrun' : forall a', (a', b).1 = true -> a' = a ->
              Forall (fun f => f <= Finality cur)
                (finalitiesFor id (written w))
              /\ rising TxnAcceptedOnL1 (Finality cur) received).
    { intros a' Ha ->. by apply Hrun. }
    destruct b; simpl; [|by apply IH].
    unfold sendReorg, sendResponse.
    destruct (Write_cases (reorgNotification id reorg) w)
      as [(err & Hw & _)|(w' & Hw & Hw' & _)];
      unfold reorgNotification in Hw; rewrite Hw; [by apply IH|].
    assert (Hsame : finalitiesFor id (written w')
                    = finalitiesFor id (written w)).
    { rewrite Hw', finalitiesFor_app. simpl. apply app_nil_r. }
    apply IH; rewrite Hsame; done.
Qed.

(** X25 — No status is notified twice.  When nothing about the status was
    yet written for the subscription and the answers do not go back (each
    status looked up on a pending block is at least as final as the one
    looked up before, and a receipt that is accepted on L1 is more final
    than the status held), the finalities of the statuses the task writes
    rise strictly: an update is written only when the finality has risen,
    and once only, however the reorgs that the task also passes on fall in
    between and whenever the connection fails. *)
Theorem tx_status_rises (received : list StatusReceived) (w : Wire) (id : Z)
    (txHash : Felt) (curStatus : TransactionStatus) :
  finalitiesFor id (written w) = [] ->
  rising TxnAcceptedOnL1 (Finality curStatus) received ->
  StronglySorted Z.lt
    (finalitiesFor id
       (written (statusTask TxnStatusRejected TxnStatusAcceptedOnL2
                   TxnStatusAcceptedOnL1 TxnAcceptedOnL1 received w id txHash
                   curStatus))).
Proof.
  intros Hnone Hrising. unfold statusTask, sendTxnStatus, sendResponse.
  destruct (Write_cases (statusNotification id txHash curStatus) w)
    as [(err & Hw & _)|(w' & Hw & Hw' & _)];
    unfold statusNotification in Hw; rewrite Hw.
  { rewrite Hnone. constructor. }
  assert (Hone : finalitiesFor id (written w') = [Finality curStatus]).
  { by rewrite Hw', finalitiesFor_app, Hnone, finalitiesFor_status. }
  destruct (isFinal _ _ _).
  { rewrite Hone. repeat constructor. }
  apply statusLoops_rise; rewrite Hone.
  - repeat constructor.
  - intros _. split; [|done]. apply Forall_singleton. lia.
Qed.

End TxStatusCoverage.

(** With the constants 2 (rejected), 3 (accepted on L2) and 4 (accepted on
    L1): a subscription for a transaction that was rejected writes that
    status and nothing more. *)
Lemma tx_status_task_starts_with_status_witness :
  let rejected := {| rpcv8.Finality := 2; rpcv8.Execution := 0 |} in
  rpcv8.written
    (rpcv8.statusTask 2 3 4 4 subscriptions_fixtures.statusFeed
       subscriptions_fixtures.freshWire 1 7 rejected)
  = [rpcv8.statusNotification 1 7 rejected].
Proof.
  intros rejected.
  exact (proj2 (tx_status_task_starts_with_status 2 3 4 4
                  subscriptions_fixtures.statusFeed
                  subscriptions_fixtures.freshWire 1 7 rejected)
           (or_introl eq_refl)).
Defined.

(** A transaction that was received, is then accepted on L2 and at last on
    L1: three statuses are written, of finalities 1, 3 and 4. *)
Lemma tx_status_rises_witness :
  rpcv8.finalitiesFor 1
    (rpcv8.written
       (rpcv8.statusTask 2 3 4 4 subscriptions_fixtures.statusFeed
          subscriptions_fixtures.freshWire 1 7
          {| rpcv8.Finality := 1; rpcv8.Execution := 0 |}))
  = [1; 3; 4]
  /\ StronglySorted Z.lt [1; 3; 4].
Proof.
  split; [reflexivity|].
  refine (tx_status_rises 2 3 4 4 subscriptions_fixtures.statusFeed
            subscriptions_fixtures.freshWire 1 7
            {| rpcv8.Finality := 1; rpcv8.Execution := 0 |} eq_refl _).
  simpl. repeat split; lia.
Defined.

(* ===================================================================== *)
(** * Subscribing from the head                                            *)
(* ===================================================================== *)

Section HeadCoverage.
Import rpcv8.
Variable Conn : Type.
Variable deps : Deps Conn.
Implicit Types (h : Handler Conn) (ctx : RequestContext Conn) (w : Conn).

(** X26 — The block range of a subscription begins with the head of the
    chain.  When the head cannot be read, a call on a connection for new
    heads, or for events within the key limit, answers the internal error
    with the text of the reader's error, whatever the block id, and makes
    no subscription.  When the head can be read and the block id is nil or
    says [latest], the range is from the head to the head: no block is
    looked up, no limit on the blocks back applies, the call succeeds, and
    the task of a new heads subscription is started with the head as its
    first and its last header. *)
Theorem subscribe_from_head h ctx w :
  ConnFromContext ctx = Some w ->
  match HeadsHeader (bcReader h) with
  | inl err =>
      forall blockID,
        SubscribeNewHeads deps h ctx blockID
        = ((0, Some (ErrInternal err)), h)
        /\ (forall fromAddr keys,
              lenKeys keys <= MaxEventFilterKeys deps ->
              SubscribeEvents deps h ctx fromAddr keys blockID
              = ((0, Some (ErrInternal err)), h))
  | inr head =>
      forall blockID,
        blockID = None \/ (exists b, blockID = Some b /\ Latest b = true) ->
        resolveBlockRange deps h blockID = inr (head, head)
        /\ (SubscribeNewHeads deps h ctx blockID).1
           = (idgen deps (drawn h), None)
        /\ (exists t,
              tasks (SubscribeNewHeads deps h ctx blockID).2 = tasks h ++ [t]
              /\ job t = newHeadsJob head head)
        /\ (forall fromAddr keys,
              lenKeys keys <= MaxEventFilterKeys deps ->
              (SubscribeEvents deps h ctx fromAddr keys blockID).1
              = (idgen deps (drawn h), None))
  end.
Proof.
  intros Hw. destruct (HeadsHeader (bcReader h)) as [err|head] eqn:Hhead.
  - intros blockID.
    assert (Hres : resolveBlockRange deps h blockID = inl (ErrInternal err)).
    { unfold resolveBlockRange. by rewrite Hhead. }
    split.
    + unfold SubscribeNewHeads. by rewrite Hw, Hres.
    + intros fromAddr keys Hkeys. unfold SubscribeEvents. rewrite Hw, Hres.
      by destruct (Z.ltb_spec (MaxEventFilterKeys deps) (lenKeys keys));
        [lia|].
  - intros blockID Hlatest.
    assert (Hres : resolveBlockRange deps h blockID = inr (head, head)).
    { unfold resolveBlockRange. rewrite Hhead.
      destruct Hlatest as [->|(b & -> & Hb)]; [done|].
      simpl. by rewrite Hb. }
    split_and!; [done| | |].
    + unfold SubscribeNewHeads. by rewrite Hw, Hres.
    + unfold SubscribeNewHeads. rewrite Hw, Hres. simpl. by eexists.
    + intros fromAddr keys Hkeys. unfold SubscribeEvents. rewrite Hw, Hres.
      by destruct (Z.ltb_spec (MaxEventFilterKeys deps) (lenKeys keys));
        [lia|].
Qed.

End HeadCoverage.

(** Over a chain whose head cannot be read, a subscription to new heads
    from the latest block fails with the error of the reader. *)
Lemma subscribe_from_head_witness :
  rpcv8.SubscribeNewHeads subscriptions_fixtures.deps1024
    (rpcv8.newHandler subscriptions_fixtures.brokenChain)
    subscriptions_fixtures.onConn1 None
  = ((0, Some (rpcv8.ErrInternal "db: key not found")),
     rpcv8.newHandler subscriptions_fixtures.brokenChain).
Proof.
  exact (proj1 (subscribe_from_head positive subscriptions_fixtures.deps1024
                  (rpcv8.newHandler subscriptions_fixtures.brokenChain)
                  subscriptions_fixtures.onConn1 1%positive eq_refl None)).
Defined.

(* ===================================================================== *)
(** * Examples                                                             *)
(* ===================================================================== *)

(** An object with both members is read into a blank block id: the hash is
    the one of [block_hash], and the number is left at 0. *)
Lemma unmarshal_block_id_fields_witness :
  exists before hash after,
    [("block_hash"%string, rpcv8.JString "0x1");
     ("block_number"%string, rpcv8.JNumber "7")]
    = before ++ ("block_hash"%string, hash) :: after
    /\ ("block_hash"%string ∉ after.*1)
    /\ rpcv8.UnmarshalJSON subscriptions_fixtures.hashReader
         subscriptions_fixtures.readFelt subscriptions_fixtures.readUint64
         subscriptions_fixtures.hashText subscriptions_fixtures.blankID
       = ((subscriptions_fixtures.readFelt hash 0).1,
          {| rpcv8.Latest := false;
             rpcv8.Hash := Some (subscriptions_fixtures.readFelt hash 0).2;
             rpcv8.Number := 0 |}).
Proof.
  refine (proj1 (proj2 (proj2
            (unmarshal_block_id_fields subscriptions_fixtures.hashReader
               subscriptions_fixtures.readFelt
               subscriptions_fixtures.readUint64
               subscriptions_fixtures.hashText
               subscriptions_fixtures.blankID)))
            [("block_hash"%string, rpcv8.JString "0x1");
             ("block_number"%string, rpcv8.JNumber "7")] _ eq_refl eq_refl).
  discriminate.
Defined.

(** The flag in lower case is not known. *)
Lemma simulation_flag_unmarshal_witness :
  rpcv7.UnmarshalJSON "skip_validate" 0
  = (Some (rpcv7.Errorf "unknown simulation flag %q" "skip_validate"), 0).
Proof.
  destruct (simulation_flag_unmarshal "skip_validate" 0) as (_ & _ & Hno & _).
  apply Hno; intros H; vm_compute in H; discriminate H.
Defined.

(** A subscription from a block that is too far back leaves no trace. *)
Lemma failed_subscribe_leaves_no_trace_witness :
  rpcv8.SubscribeNewHeads subscriptions_fixtures.deps1024
    subscriptions_fixtures.handler0 subscriptions_fixtures.onConn1
    (Some subscriptions_fixtures.block1024)
  = ((0, Some rpcv8.ErrTooManyBlocksBack), subscriptions_fixtures.handler0).
Proof.
  exact (proj1 (failed_subscribe_leaves_no_trace positive
                  subscriptions_fixtures.deps1024
                  subscriptions_fixtures.handler0
                  subscriptions_fixtures.onConn1)
           (Some subscriptions_fixtures.block1024)
           rpcv8.ErrTooManyBlocksBack eq_refl).
Defined.

(** Three events on a connection that takes two writes: the first two are
    written, and the call returns an error. *)
Lemma send_events_without_map_witness :
  let events := [subscriptions_fixtures.confirmedEvent;
                 subscriptions_fixtures.pendingEvent;
                 subscriptions_fixtures.confirmedEvent] in
  let r := rpcv8.sendEvents None subscriptions_fixtures.twoWrites events
             None 1 in
  rpcv8.written r.2.1.2
  = [rpcv8.notificationOf 1 subscriptions_fixtures.confirmedEvent;
     rpcv8.notificationOf 1 subscriptions_fixtures.pendingEvent]
  /\ (r.1 = None <-> 2%nat = 3%nat).
Proof.
  exact (send_events_without_map
           [subscriptions_fixtures.confirmedEvent;
            subscriptions_fixtures.pendingEvent;
            subscriptions_fixtures.confirmedEvent]
           subscriptions_fixtures.twoWrites 1).
Defined.

(** Under a context that is cancelled, an event is not written. *)
Lemma send_events_cancelled_witness :
  rpcv8.sendEvents (Some 0%nat) subscriptions_fixtures.freshWire
    [subscriptions_fixtures.pendingEvent] None 1
  = (Some "context canceled"%string,
     (Some 0%nat, subscriptions_fixtures.freshWire, None)).
Proof.
  destruct (send_events_cancelled 0 [subscriptions_fixtures.pendingEvent]
              subscriptions_fixtures.freshWire None 1) as (_ & _ & Hdone & _).
  apply Hdone; [reflexivity|discriminate].
Defined.

(** Two reorgs on a connection that takes two writes, and three headers:
    of the headers the first two are passed on. *)
Lemma feeds_forwarded_in_order_witness :
  rpcv8.written
    (rpcv8.processNewHeaders
       [subscriptions_fixtures.headerOf 1; subscriptions_fixtures.headerOf 2;
        subscriptions_fixtures.headerOf 3]
       subscriptions_fixtures.twoWrites 1)
  = [rpcv8.headerNotification 1 (subscriptions_fixtures.headerOf 1);
     rpcv8.headerNotification 1 (subscriptions_fixtures.headerOf 2)].
Proof.
  exact (proj1 (feeds_forwarded_in_order subscriptions_fixtures.twoWrites 1)
           [subscriptions_fixtures.headerOf 1;
            subscriptions_fixtures.headerOf 2;
            subscriptions_fixtures.headerOf 3]).
Defined.

(** With the sender list [4], only the declare transaction of sender 4 is
    answered for: by its hash, 11. *)
Lemma pending_txs_filter_witness :
  rpcv8.filterTxs (fun txn => txn) subscriptions_fixtures.pendingTxs false [4]
  = [inr 11].
Proof.
  destruct (pending_txs_filter (fun txn => txn)
              subscriptions_fixtures.pendingTxs [4]) as (_ & _ & Hhashes & _).
  exact Hhashes.
Defined.
